(** * Optimizacion_Logistica: staggered-release CVRPTW planner

    A shallow embedding of [Optimizacion_Logistica.py].  Python integers are
    unbounded and are modelled by [Z]; [//] and [%] are floor division and
    floor modulo, which is what [Z.div] and [Z.modulo] compute for the
    positive divisor 60.  Text is ASCII [string]; Python exceptions are
    values of an error monad.  The routing library (OR-Tools) and the two
    web services are outside the repository: the script only configures
    them, so the embedding records what the script passes to them and
    takes their answers as inputs. *)

From Stdlib Require Import ZArith String Ascii List Lia DecimalString DecimalN.
From stdpp Require Import base option list strings.

Local Open Scope string_scope.
Local Open Scope list_scope.
Local Open Scope Z_scope.

(** ** Exceptions

    [SolverFail] is the [Exception('CP Solver fail')] of the routing
    library, [WorksheetNotFound] the exception of the sheets client.
    [NoTermination] is not a Python exception: it is what a loop of the
    embedding answers when the number of turns it was granted runs out. *)

Inductive exn : Type :=
  | ValueError
  | IndexError
  | KeyError
  | ApiError
  | OverflowError
  | SolverFail
  | WorksheetNotFound
  | NoTermination.

Inductive res (A : Type) : Type :=
  | Ok (a : A)
  | Raise (e : exn).
Arguments Ok {A} a.
Arguments Raise {A} e.

#[global] Instance res_ret : MRet res := @Ok.
#[global] Instance res_bind : MBind res := λ A B f m,
  match m with
  | Ok a => f a
  | Raise e => Raise e
  end.
#[global] Instance res_fmap : FMap res := λ A B f m,
  match m with
  | Ok a => Ok (f a)
  | Raise e => Raise e
  end.

(** [l[i]] on a Python list, for an index that is not negative. *)
Definition getitem {A} (l : list A) (i : nat) : res A :=
  match l !! i with
  | Some x => Ok x
  | None => Raise IndexError
  end.

(** A [for] loop over a list whose body may raise. *)
Fixpoint for_each {A S} (body : S → A → res S) (xs : list A) (s : S) : res S :=
  match xs with
  | [] => Ok s
  | x :: xs' => s' ← body s x; for_each body xs' s'
  end.

(** ** Spreadsheet cells and the builtins used on them *)

(** A value read from a sheet: text or a whole number. *)
Inductive cell : Type :=
  | CStr (s : string)
  | CInt (z : Z).

#[global] Instance cell_eq_dec : EqDecision cell.
Proof. solve_decision. Defined.

Module PyStr.

Definition digit_of_ascii (c : ascii) : option N :=
  let n := N_of_ascii c in
  if ((48 <=? n) && (n <=? 57))%N then Some (n - 48)%N else None.

Definition is_digit (c : ascii) : bool :=
  match digit_of_ascii c with Some _ => true | None => false end.

(** Characters that [int] skips around a literal of an ASCII text: tab,
    line feed, vertical tab, form feed, carriage return and the space.
    The separators 0x1c..0x1f are not skipped. *)
Definition is_space (c : ascii) : bool :=
  let n := N_of_ascii c in
  (((9 <=? n) && (n <=? 13)) || (n =? 32))%N.

Fixpoint lstrip (s : string) : string :=
  match s with
  | String c r => if is_space c then lstrip r else s
  | EmptyString => EmptyString
  end.

Fixpoint rstrip (s : string) : string :=
  match s with
  | String c r =>
      match rstrip r with
      | EmptyString => if is_space c then EmptyString else String c EmptyString
      | r' => String c r'
      end
  | EmptyString => EmptyString
  end.

Definition strip (s : string) : string := rstrip (lstrip s).

(** The digits after a first digit; one underscore may separate two
    digits. *)
Fixpoint digits_acc (acc : N) (s : string) : option N :=
  match s with
  | EmptyString => Some acc
  | String c r =>
      if Ascii.eqb c "_" then
        match r with
        | String d r' =>
            match digit_of_ascii d with
            | Some v => digits_acc (acc * 10 + v)%N r'
            | None => None
            end
        | EmptyString => None
        end
      else
        match digit_of_ascii c with
        | Some v => digits_acc (acc * 10 + v)%N r
        | None => None
        end
  end.

Definition parse_nat (s : string) : option N :=
  match s with
  | String c r =>
      match digit_of_ascii c with
      | Some v => digits_acc v r
      | None => None
      end
  | EmptyString => None
  end.

(** [int(s)] in base ten, for ASCII text.  The interpreter refuses a
    literal of more than 4300 digits; texts of that size are outside the
    embedding, and the statements that read a number back bound its size
    where it is not bounded already. *)
Definition int (s : string) : res Z :=
  let t := strip s in
  let signed :=
    match t with
    | String c r =>
        if Ascii.eqb c "-" then (λ n, - Z.of_N n) <$> parse_nat r
        else if Ascii.eqb c "+" then Z.of_N <$> parse_nat r
        else Z.of_N <$> parse_nat t
    | EmptyString => None
    end in
  match signed with
  | Some z => Ok z
  | None => Raise ValueError
  end.

(** [s.split(sep)] for a separator of one character: never empty. *)
Fixpoint split (sep : ascii) (s : string) : list string :=
  match s with
  | EmptyString => [EmptyString]
  | String c r =>
      if Ascii.eqb c sep then EmptyString :: split sep r
      else
        match split sep r with
        | h :: t => String c h :: t
        | [] => [String c EmptyString]
        end
  end.

(** Decimal digits of a natural number, no padding. *)
Definition digits (n : N) : string := NilEmpty.string_of_uint (N.to_uint n).

Fixpoint zeros (k : nat) : string :=
  match k with
  | O => EmptyString
  | S k' => String "0" (zeros k')
  end.

(** Left-pad with zeros up to [width] characters. *)
Definition zfill (width : nat) (s : string) : string :=
  zeros (width - String.length s) +:+ s.

(** [str(z)] of an integer. *)
Definition of_int (z : Z) : string :=
  if z <? 0 then String "-" (digits (Z.to_N (- z))) else digits (Z.to_N z).

(** The format specification [02d]: sign-aware zero padding to two
    characters.  The interpreter refuses to print a number of more than
    4300 digits; see [int]. *)
Definition format_02d (z : Z) : string :=
  if z <? 0 then String "-" (zfill 1 (digits (Z.to_N (- z))))
  else zfill 2 (digits (Z.to_N z)).

(** [str(x)] of a sheet value. *)
Definition str (x : cell) : string :=
  match x with
  | CStr s => s
  | CInt z => of_int z
  end.

Fixpoint string_forall (P : ascii → bool) (s : string) : bool :=
  match s with
  | EmptyString => true
  | String c r => P c && string_forall P r
  end.

End PyStr.

(** ** Time utilities *)

(** [h, m = map(int, str(time_str).split(':'))]: unpacking wants exactly
    two parts and each part goes through [int]. *)
Definition time_to_minutes (time_str : cell) : res Z :=
  match PyStr.split ":" (PyStr.str time_str) with
  | [a; b] =>
      h ← PyStr.int a;
      m ← PyStr.int b;
      mret (h * 60 + m)
  | _ => Raise ValueError
  end.

(** The rendering [f"{v//60:02d}:{v%60:02d}"] that [process_solution]
    and [main] apply to every minute value. *)
Definition minutes_to_clock (v : Z) : string :=
  PyStr.format_02d (v / 60) +:+ ":" +:+ PyStr.format_02d (v mod 60).

(** A 24-hour clock string: two digits, a colon, two digits, with the
    hour at most 23 and the minute at most 59. *)
Definition valid_clock (s : string) : bool :=
  match s with
  | String h1 (String h2 (String c (String m1 (String m2 EmptyString)))) =>
      match PyStr.digit_of_ascii h1, PyStr.digit_of_ascii h2,
            PyStr.digit_of_ascii m1, PyStr.digit_of_ascii m2 with
      | Some a, Some b, Some x, Some y =>
          Ascii.eqb c ":" && (10 * a + b <=? 23)%N && (10 * x + y <=? 59)%N
      | _, _, _, _ => false
      end
  | _ => false
  end.

(** ** Sheet rows and the data model *)

(** A row of the sheet "Datos"; row 0 is the depot. *)
Record location_row : Type := {
  tienda : cell;
  ubicacion : cell;
  demanda : Z;
  hora_apertura : cell;
  hora_cierre : cell;
  tiempo_servicio : Z
}.

(** A row of the sheet "Vehiculos". *)
Record vehicle_row : Type := {
  id_camion : cell;
  capacidad_cajas : Z;
  tiempo_carga_min : Z
}.

(** The dictionary [data] of [create_data_model]. *)
Record data_model : Type := {
  time_matrix : list (list Z);
  time_windows : list (Z * Z);
  demands : list Z;
  service_times : list Z;
  num_vehicles : nat;
  vehicle_capacities : list Z;
  depot : nat
}.

(** A list comprehension whose element expression may raise. *)
Fixpoint map_res {A B} (f : A → res B) (l : list A) : res (list B) :=
  match l with
  | [] => Ok []
  | x :: l' => y ← f x; ys ← map_res f l'; mret (y :: ys)
  end.

Definition create_data_model (df_locations : list location_row)
    (df_vehicles : list vehicle_row) (matrix : list (list Z)) : res data_model :=
  windows ← map_res (λ row,
      o ← time_to_minutes (hora_apertura row);
      c ← time_to_minutes (hora_cierre row);
      mret (o, c)) df_locations;
  mret {| time_matrix := matrix;
          time_windows := windows;
          demands := demanda <$> df_locations;
          service_times := tiempo_servicio <$> df_locations;
          num_vehicles := length df_vehicles;
          vehicle_capacities := capacidad_cajas <$> df_vehicles;
          depot := 0 |}.

(** ** Travel-time matrix *)

(** One element of a distance-matrix response row: its ['status'] and,
    when the key is there, its ['duration']['value'] in seconds. *)
Record element : Type := {
  status : string;
  duration : option Z
}.

(** [l[i] = x], for an index that is not negative. *)
Definition setitem {A} (l : list A) (i : nat) (x : A) : res (list A) :=
  if decide (i < length l)%nat then Ok (<[i := x]> l) else Raise IndexError.

Section TimeMatrix.

(** The answer of the mapping service for the i-th origin: the list
    [response['rows'][0]['elements']], or the exception of the client. *)
Variable distance_matrix : nat → res (list element).

(** The floating-point expression
    [int((seconds / 60) * slowdown_factor) + 1]. *)
Variable slowdown : Z → Z.

Definition time_row (row_elements : list element) : res (list Z) :=
  map_res (λ e,
    match duration e with
    | Some seconds => Ok (slowdown seconds)
    | None => Raise KeyError
    end) row_elements.

(** The loop over the origins.  [Ok None] is the explicit [return None]. *)
Fixpoint origin_loop (i : nat) (origins : list cell) (matrix : list (list Z))
    : res (option (list (list Z))) :=
  match origins with
  | [] => Ok (Some matrix)
  | _ :: rest =>
      row_elements ← distance_matrix i;
      first ← getitem row_elements 0;
      if decide (status first ≠ "OK") then Ok None
      else
        row ← time_row row_elements;
        origin_loop (S i) rest (matrix ++ [row])
  end.

(** [time_matrix[i][i] = 0] for every row. *)
Definition zero_diagonal (matrix : list (list Z)) : res (list (list Z)) :=
  for_each (λ mat i,
    row ← getitem mat i;
    row' ← setitem row i 0;
    setitem mat i row') (seq 0 (length matrix)) matrix.

(** The body of the [try]; the [except] clauses turn every exception
    into [None]. *)
Definition get_time_matrix (locations : list cell) : option (list (list Z)) :=
  match
    (r ← origin_loop 0 locations [];
     match r with
     | None => Ok None
     | Some matrix => Some <$> zero_diagonal matrix
     end)
  with
  | Ok r => r
  | Raise _ => None
  end.

End TimeMatrix.

(** ** The routing library, as the script configures it *)

(** [RoutingIndexManager(num_nodes, num_vehicles, depot)].  With one depot
    every node keeps its number as index, vehicle 0 starts at the depot's
    index, the other vehicles get fresh start indices after the nodes, and
    the end indices follow. *)
Record RoutingIndexManager : Type := {
  mgr_nodes : nat;
  mgr_vehicles : nat;
  mgr_depot : nat
}.

Definition Size (m : RoutingIndexManager) : nat :=
  (mgr_nodes m + (mgr_vehicles m - 1))%nat.

Definition IndexToNode (m : RoutingIndexManager) (index : nat) : nat :=
  if decide (index < mgr_nodes m)%nat then index else mgr_depot m.

Definition NodeToIndex (m : RoutingIndexManager) (node : nat) : nat := node.

Definition Start (m : RoutingIndexManager) (vehicle : nat) : nat :=
  match vehicle with
  | O => mgr_depot m
  | S v => (mgr_nodes m + v)%nat
  end.

Definition End (m : RoutingIndexManager) (vehicle : nat) : nat :=
  (Size m + vehicle)%nat.

Definition IsEnd (m : RoutingIndexManager) (index : nat) : bool :=
  bool_decide (Size m ≤ index)%nat.

(** A registered transit callback: over an arc, or over the node the arc
    leaves ([RegisterUnaryTransitCallback]). *)
Inductive transit_callback : Type :=
  | Binary (f : nat → nat → res Z)
  | Unary (f : nat → res Z).

(** [AddDimension(evaluator_index, slack_max, capacity,
    fix_start_cumul_to_zero, name)]; with vehicle capacities the third
    argument is a list, one bound per vehicle. *)
Record dimension : Type := {
  dim_name : string;
  dim_evaluator : nat;
  dim_slack_max : Z;
  dim_capacity : list Z;
  dim_fix_start_cumul_to_zero : bool
}.

(** Bounds posted on a cumulative variable [CumulVar(index)]. *)
Inductive cumul_bound : Type :=
  | SetMin (dim : string) (index : nat) (lo : Z)
  | SetRange (dim : string) (index : nat) (lo hi : Z).

Record RoutingModel : Type := {
  manager : RoutingIndexManager;
  callbacks : list transit_callback;
  arc_cost_evaluator : option nat;
  dimensions : list dimension;
  cumul_bounds : list cumul_bound;
  minimized_by_finalizer : list (string * nat)
}.

Definition new_RoutingModel (m : RoutingIndexManager) : RoutingModel :=
  {| manager := m; callbacks := []; arc_cost_evaluator := None;
     dimensions := []; cumul_bounds := []; minimized_by_finalizer := [] |}.

Definition register_callback (cb : transit_callback) (r : RoutingModel)
    : nat * RoutingModel :=
  (length (callbacks r),
   {| manager := manager r; callbacks := callbacks r ++ [cb];
      arc_cost_evaluator := arc_cost_evaluator r;
      dimensions := dimensions r; cumul_bounds := cumul_bounds r;
      minimized_by_finalizer := minimized_by_finalizer r |}).

Definition SetArcCostEvaluatorOfAllVehicles (cb : nat) (r : RoutingModel)
    : RoutingModel :=
  {| manager := manager r; callbacks := callbacks r;
     arc_cost_evaluator := Some cb;
     dimensions := dimensions r; cumul_bounds := cumul_bounds r;
     minimized_by_finalizer := minimized_by_finalizer r |}.

Definition add_dimension (d : dimension) (r : RoutingModel) : RoutingModel :=
  {| manager := manager r; callbacks := callbacks r;
     arc_cost_evaluator := arc_cost_evaluator r;
     dimensions := dimensions r ++ [d]; cumul_bounds := cumul_bounds r;
     minimized_by_finalizer := minimized_by_finalizer r |}.

Definition AddDimension (evaluator_index : nat) (slack_max capacity : Z)
    (fix_start_cumul_to_zero : bool) (name : string) (r : RoutingModel)
    : RoutingModel :=
  add_dimension
    {| dim_name := name; dim_evaluator := evaluator_index;
       dim_slack_max := slack_max;
       dim_capacity := replicate (mgr_vehicles (manager r)) capacity;
       dim_fix_start_cumul_to_zero := fix_start_cumul_to_zero |} r.

Definition AddDimensionWithVehicleCapacity (evaluator_index : nat)
    (slack_max : Z) (vehicle_capacity : list Z)
    (fix_start_cumul_to_zero : bool) (name : string) (r : RoutingModel)
    : RoutingModel :=
  add_dimension
    {| dim_name := name; dim_evaluator := evaluator_index;
       dim_slack_max := slack_max;
       dim_capacity := vehicle_capacity;
       dim_fix_start_cumul_to_zero := fix_start_cumul_to_zero |} r.

(** The model with one more bound in its record of posted bounds. *)
Definition append_bound (b : cumul_bound) (r : RoutingModel) : RoutingModel :=
  {| manager := manager r; callbacks := callbacks r;
     arc_cost_evaluator := arc_cost_evaluator r;
     dimensions := dimensions r; cumul_bounds := cumul_bounds r ++ [b];
     minimized_by_finalizer := minimized_by_finalizer r |}.

(** An argument of [SetMin] or [SetRange] is converted to a signed
    integer of 64 bits. *)
Definition int64 (z : Z) : bool :=
  (-9223372036854775808 <=? z) && (z <? 9223372036854775808).

(** The upper end of the cumulative variables of a dimension when it is
    added: the capacity, the largest one when the vehicles have their
    own (0 for a fleet without vehicles). *)
Definition cumul_max (r : RoutingModel) (dim : string) : Z :=
  match find (λ d, String.eqb (dim_name d) dim) (dimensions r) with
  | Some d => foldr Z.max 0 (dim_capacity d)
  | None => 0
  end.

(** What a bound leaves of an interval [(lo, hi)] of the variable
    [CumulVar(index)] of [dim]; bounds on other variables leave it
    alone. *)
Definition narrow (dim : string) (index : nat) (dom : Z * Z) (b : cumul_bound)
    : Z * Z :=
  match b with
  | SetMin d i lo =>
      if String.eqb d dim && Nat.eqb i index then (Z.max dom.1 lo, dom.2) else dom
  | SetRange d i lo hi =>
      if String.eqb d dim && Nat.eqb i index
      then (Z.max dom.1 lo, Z.min dom.2 hi) else dom
  end.

(** The interval of [CumulVar(index)] while the model is being built:
    from 0 to the capacity, cut by the bounds posted so far. *)
Definition cumul_domain (r : RoutingModel) (dim : string) (index : nat) : Z * Z :=
  foldl (narrow dim index) (0, cumul_max r dim) (cumul_bounds r).

Definition bound_dim (b : cumul_bound) : string :=
  match b with SetMin d _ _ | SetRange d _ _ _ => d end.

Definition bound_index (b : cumul_bound) : nat :=
  match b with SetMin _ i _ | SetRange _ i _ _ => i end.

Definition bound_args (b : cumul_bound) : list Z :=
  match b with SetMin _ _ lo => [lo] | SetRange _ _ lo hi => [lo; hi] end.

(** [CumulVar(index).SetMin(lo)] and [CumulVar(index).SetRange(lo, hi)]
    outside a search: an argument that does not fit 64 bits raises
    [OverflowError]; a bound that leaves the variable no value raises
    the solver's failure; otherwise the bound is recorded. *)
Definition post_bound (b : cumul_bound) (r : RoutingModel) : res RoutingModel :=
  if negb (forallb int64 (bound_args b)) then Raise OverflowError
  else
    let dom := narrow (bound_dim b) (bound_index b)
                 (cumul_domain r (bound_dim b) (bound_index b)) b in
    if decide (dom.1 ≤ dom.2) then Ok (append_bound b r) else Raise SolverFail.

Definition AddVariableMinimizedByFinalizer (dim : string) (index : nat)
    (r : RoutingModel) : RoutingModel :=
  {| manager := manager r; callbacks := callbacks r;
     arc_cost_evaluator := arc_cost_evaluator r;
     dimensions := dimensions r; cumul_bounds := cumul_bounds r;
     minimized_by_finalizer := minimized_by_finalizer r ++ [(dim, index)] |}.

(** The search parameters [main] sets. *)
Record search_parameters : Type := {
  first_solution_strategy : string;
  local_search_metaheuristic : string;
  time_limit_seconds : Z
}.

(** What the script reads from a solution: [Value(NextVar(index))] and
    [Value(dimension.CumulVar(index))]. *)
Record Assignment : Type := {
  next_var : nat → nat;
  cumul_var : string → nat → Z
}.

(** ** What the library promises about a solution it returns

    The script never checks a solution; it relies on the library to return
    only assignments that satisfy the model.  [feasible] spells that
    contract out for the parts of the model the script uses: routes run
    from each vehicle's start to its end and cover every index once; along
    a route a dimension's cumulative value grows by the transit of the arc
    plus a slack between 0 and [slack_max], and stays between 0 and the
    vehicle's capacity; posted bounds hold. *)

Fixpoint walk (m : RoutingIndexManager) (sol : Assignment) (fuel : nat)
    (index : nat) : option (list nat) :=
  match fuel with
  | O => None
  | S fuel' =>
      if IsEnd m index then Some [index]
      else (index ::.) <$> walk m sol fuel' (next_var sol index)
  end.

Definition route (m : RoutingIndexManager) (sol : Assignment) (vehicle : nat)
    : option (list nat) :=
  walk m sol (S (Size m)) (Start m vehicle).

Definition transit (r : RoutingModel) (d : dimension) (i j : nat) : res Z :=
  match callbacks r !! dim_evaluator d with
  | Some (Binary f) => f i j
  | Some (Unary f) => f i
  | None => Raise KeyError
  end.

Fixpoint arcs_ok (r : RoutingModel) (sol : Assignment) (d : dimension)
    (stops : list nat) : bool :=
  match stops with
  | i :: ((j :: _) as rest) =>
      match transit r d i j with
      | Ok t =>
          bool_decide (cumul_var sol (dim_name d) i + t
                         ≤ cumul_var sol (dim_name d) j
                         ≤ cumul_var sol (dim_name d) i + t + dim_slack_max d)
      | Raise _ => false
      end && arcs_ok r sol d rest
  | _ => true
  end.

Definition cumuls_ok (sol : Assignment) (d : dimension) (capacity : Z)
    (stops : list nat) : bool :=
  forallb (λ i, bool_decide (0 ≤ cumul_var sol (dim_name d) i ≤ capacity)) stops.

Definition dimension_ok (r : RoutingModel) (sol : Assignment) (d : dimension)
    (vehicle : nat) (stops : list nat) : bool :=
  match dim_capacity d !! vehicle with
  | Some capacity =>
      cumuls_ok sol d capacity stops
      && arcs_ok r sol d stops
      && (if dim_fix_start_cumul_to_zero d
          then bool_decide (cumul_var sol (dim_name d) (Start (manager r) vehicle) = 0)
          else true)
  | None => false
  end.

Definition bound_ok (sol : Assignment) (b : cumul_bound) : bool :=
  match b with
  | SetMin dim index lo => bool_decide (lo ≤ cumul_var sol dim index)
  | SetRange dim index lo hi => bool_decide (lo ≤ cumul_var sol dim index ≤ hi)
  end.

Definition route_ok (r : RoutingModel) (sol : Assignment) (vehicle : nat) : bool :=
  match route (manager r) sol vehicle with
  | Some stops =>
      bool_decide (last stops = Some (End (manager r) vehicle))
      && forallb (λ d, dimension_ok r sol d vehicle stops) (dimensions r)
  | None => false
  end.

(** The indices that are not route ends, in the order the routes visit
    them. *)
Definition visited (m : RoutingIndexManager) (sol : Assignment) : list nat :=
  mjoin ((λ v, filter (λ i, ¬ IsEnd m i) (default [] (route m sol v)))
           <$> seq 0 (mgr_vehicles m)).

Definition feasible (r : RoutingModel) (sol : Assignment) : bool :=
  forallb (route_ok r sol) (seq 0 (mgr_vehicles (manager r)))
  && bool_decide (visited (manager r) sol ≡ₚ seq 0 (Size (manager r)))
  && forallb (bound_ok sol) (cumul_bounds r).

(** ** The constraint model and the staggered releases built by [main] *)

Definition time_callback (data : data_model) (m : RoutingIndexManager)
    (from_index to_index : nat) : res Z :=
  let from_node := IndexToNode m from_index in
  let to_node := IndexToNode m to_index in
  row ← getitem (time_matrix data) from_node;
  travel ← getitem row to_node;
  service ← getitem (service_times data) from_node;
  mret (travel + service).

Definition demand_callback (data : data_model) (m : RoutingIndexManager)
    (from_index : nat) : res Z :=
  getitem (demands data) (IndexToNode m from_index).

(** Lines 280 to 298: manager, model, both callbacks, both dimensions. *)
Definition build_dimensions (data : data_model) : RoutingModel :=
  let m := {| mgr_nodes := length (time_matrix data);
              mgr_vehicles := num_vehicles data;
              mgr_depot := depot data |} in
  let routing := new_RoutingModel m in
  let '(transit_callback_index, routing) :=
    register_callback (Binary (time_callback data m)) routing in
  let routing := SetArcCostEvaluatorOfAllVehicles transit_callback_index routing in
  let '(demand_callback_index, routing) :=
    register_callback (Unary (demand_callback data m)) routing in
  let routing :=
    AddDimensionWithVehicleCapacity demand_callback_index 0
      (vehicle_capacities data) true "Capacity" routing in
  AddDimension transit_callback_index 60 1440 false "time" routing.

(** One turn of the loop of the staggered releases; the state is
    [(start_loading_times, current_time, routing)]. *)
Definition release_step (tiempos_de_carga : list Z) (vehicle_ids : list cell)
    (st : list Z * Z * RoutingModel) (v_id : nat)
    : res (list Z * Z * RoutingModel) :=
  let '(start_loading_times, current_time, routing) := st in
  let start_loading_times := start_loading_times ++ [current_time] in
  carga ← getitem tiempos_de_carga v_id;
  let departure_time := current_time + carga in
  let index := Start (manager routing) v_id in
  routing ← post_bound (SetMin "time" index departure_time) routing;
  _ ← getitem vehicle_ids v_id;
  mret (start_loading_times, departure_time, routing).

Definition staggered_release (hora_inicio_min : Z) (tiempos_de_carga : list Z)
    (vehicle_ids : list cell) (n_vehicles : nat) (routing : RoutingModel)
    : res (list Z * RoutingModel) :=
  '(start_loading_times, _, routing) ←
    for_each (release_step tiempos_de_carga vehicle_ids)
      (seq 0 n_vehicles) ([], hora_inicio_min, routing);
  mret (start_loading_times, routing).

(** The loop over [enumerate(data['time_windows'])]. *)
Definition window_step (data : data_model) (routing : RoutingModel)
    (entry : nat * (Z * Z)) : res RoutingModel :=
  let '(loc_idx, time_win) := entry in
  if decide (loc_idx = depot data) then Ok routing
  else
    let index := NodeToIndex (manager routing) loc_idx in
    post_bound (SetRange "time" index time_win.1 time_win.2) routing.

Definition time_window_bounds (data : data_model) (routing : RoutingModel)
    : res RoutingModel :=
  for_each (window_step data) (imap (λ i w, (i, w)) (time_windows data)) routing.

Definition finalizers (data : data_model) (routing : RoutingModel) : RoutingModel :=
  foldl (λ r v_id, AddVariableMinimizedByFinalizer "time" (End (manager r) v_id) r)
    routing (seq 0 (num_vehicles data)).

(** Lines 278 to 325 of [main]: everything between the matrix and the
    call of the solver. *)
Definition configure (hora_inicio_carga : string)
    (df_locations : list location_row) (df_vehicles : list vehicle_row)
    (matrix : list (list Z)) : res (data_model * RoutingModel * list Z) :=
  data ← create_data_model df_locations df_vehicles matrix;
  let routing := build_dimensions data in
  hora_inicio_min ← time_to_minutes (CStr hora_inicio_carga);
  let tiempos_de_carga := tiempo_carga_min <$> df_vehicles in
  '(start_loading_times, routing) ←
    staggered_release hora_inicio_min tiempos_de_carga
      (id_camion <$> df_vehicles) (num_vehicles data) routing;
  routing ← time_window_bounds data routing;
  let routing := finalizers data routing in
  mret (data, routing, start_loading_times).

(** ** Solution extractor *)

Definition header : list cell :=
  [CStr "Camion ID"; CStr "Secuencia"; CStr "Tienda"; CStr "Hora Inicio Carga";
   CStr "Hora Llegada"; CStr "Hora Salida"; CStr "Carga Acumulada (cajas)"].

(** [[""] * len(header)] *)
Definition blank_record : list cell := replicate (length header) (CStr "").

Section Extractor.

Variable data : data_model.
Variable m : RoutingIndexManager.
Variable solution : Assignment.
Variables store_names vehicle_ids : list cell.
Variable start_loading_times : list Z.

(** The test of line 180, used again in the count of line 239. *)
Definition not_required (vehicle_id : nat) : bool :=
  IsEnd m (next_var solution (Start m vehicle_id)).

(** The [while] loop over the stops of one route, with at most [fuel]
    turns.  The state is [(index, sequence, route_load, rows)]. *)
Fixpoint visit_loop (fuel : nat) (actual_vehicle_id : cell) (index : nat)
    (sequence route_load : Z) (rows : list (list cell))
    : res (nat * Z * Z * list (list cell)) :=
  match fuel with
  | O => Raise NoTermination
  | S fuel' =>
      if IsEnd m index then Ok (index, sequence, route_load, rows)
      else
        let index := next_var solution index in
        if IsEnd m index then Ok (index, sequence, route_load, rows)
        else
          let sequence := sequence + 1 in
          let node_index := IndexToNode m index in
          store_name ← getitem store_names node_index;
          demand ← getitem (demands data) node_index;
          let route_load := route_load + demand in
          let arrival_time_val := cumul_var solution "time" index in
          service ← getitem (service_times data) node_index;
          let departure_time_val := arrival_time_val + service in
          let arrival_str := minutes_to_clock arrival_time_val in
          let departure_str := minutes_to_clock departure_time_val in
          visit_loop fuel' actual_vehicle_id index sequence route_load
            (rows ++ [[actual_vehicle_id; CInt sequence; store_name; CStr "";
                       CStr arrival_str; CStr departure_str; CInt route_load]])
  end.

(** Lines 185 to 235: the rows of a vehicle that is used. *)
Definition emit_route (fuel : nat) (vehicle_id : nat) (actual_vehicle_id : cell)
    (rows : list (list cell)) : res (list (list cell)) :=
  let index := Start m vehicle_id in
  _ ← getitem (vehicle_capacities data) vehicle_id;
  let sequence := 0 in
  let node_index := IndexToNode m index in
  store_name ← getitem store_names node_index;
  start_load_val ← getitem start_loading_times vehicle_id;
  let departure_time_val := cumul_var solution "time" index in
  let start_load_str := minutes_to_clock start_load_val in
  let departure_str := minutes_to_clock departure_time_val in
  let rows := rows ++ [[actual_vehicle_id; CInt sequence; store_name;
                        CStr start_load_str; CStr ""; CStr departure_str; CInt 0]] in
  '(index, sequence, route_load, rows) ←
    visit_loop fuel actual_vehicle_id index sequence 0 rows;
  let sequence := sequence + 1 in
  let node_index := IndexToNode m index in
  store_name ← getitem store_names node_index;
  let arrival_time_val := cumul_var solution "time" index in
  let arrival_str := minutes_to_clock arrival_time_val in
  mret (rows ++ [[actual_vehicle_id; CInt sequence; store_name; CStr "";
                  CStr arrival_str; CStr ""; CInt route_load]]).

(** [sum(1 for v in range(num_vehicles) if not IsEnd(...))] *)
Definition dispatched : nat :=
  length (filter (λ v, ¬ not_required v) (seq 0 (num_vehicles data))).

(** One turn of the loop over the vehicles; the state is
    [(vehicles_used, solution_data_for_export)]. *)
Definition vehicle_step (fuel : nat) (st : nat * list (list cell))
    (vehicle_id : nat) : res (nat * list (list cell)) :=
  let '(vehicles_used, rows) := st in
  actual_vehicle_id ← getitem vehicle_ids vehicle_id;
  if not_required vehicle_id then Ok (vehicles_used, rows)
  else
    let vehicles_used := S vehicles_used in
    rows ← emit_route fuel vehicle_id actual_vehicle_id rows;
    if decide (vehicles_used < dispatched)%nat
    then Ok (vehicles_used, rows ++ [blank_record])
    else Ok (vehicles_used, rows).

Definition process_solution (fuel : nat) : res (list (list cell)) :=
  '(_, rows) ← for_each (vehicle_step fuel) (seq 0 (num_vehicles data)) (O, [header]);
  mret rows.

(** The rows of one vehicle on their own. *)
Definition vehicle_group (fuel : nat) (vehicle_id : nat) : res (list (list cell)) :=
  actual_vehicle_id ← getitem vehicle_ids vehicle_id;
  emit_route fuel vehicle_id actual_vehicle_id [].

End Extractor.

(** ** Export

    The calls [export_solution_to_sheet] makes on the spreadsheet:
    [spreadsheet.worksheet("Rutas")], [worksheet.clear()],
    [spreadsheet.add_worksheet(title="Rutas", ...)],
    [worksheet.update('A1', data, ...)] and
    [worksheet.format('A1:G1', ...)]. *)
Inductive sheet_call : Type :=
  | OpenRutas
  | ClearRutas
  | AddRutas
  | UpdateA1 (data : list (list cell))
  | FormatHeader.

Section ExportSheet.

(** What the spreadsheet service answers to a call: done, or an
    exception. *)
Variable sheet : sheet_call → res unit.

(** The inner [try]: the sheet "Rutas" is looked up and cleared, and
    added when [WorksheetNotFound] is raised.  The result lists the
    calls that were done and tells the exception that leaves the
    statement, if any. *)
Definition open_or_add : list sheet_call * res unit :=
  let add (calls : list sheet_call) : list sheet_call * res unit :=
    match sheet AddRutas with
    | Ok _ => (calls ++ [AddRutas], Ok ())
    | Raise e => (calls, Raise e)
    end in
  match sheet OpenRutas with
  | Ok _ =>
      match sheet ClearRutas with
      | Ok _ => ([OpenRutas; ClearRutas], Ok ())
      | Raise WorksheetNotFound => add [OpenRutas]
      | Raise e => ([OpenRutas], Raise e)
      end
  | Raise WorksheetNotFound => add []
  | Raise e => ([], Raise e)
  end.

(** [export_solution_to_sheet(spreadsheet, data)]: the calls the service
    did, in order, and the exception that the outer [except] caught and
    printed, if any.  Nothing is raised. *)
Definition export_solution_to_sheet (data : list (list cell))
    : list sheet_call * option exn :=
  if decide (1 < length data)%nat then
    match open_or_add with
    | (calls, Ok _) =>
        match sheet (UpdateA1 data) with
        | Ok _ =>
            match sheet FormatHeader with
            | Ok _ => (calls ++ [UpdateA1 data; FormatHeader], None)
            | Raise e => (calls ++ [UpdateA1 data], Some e)
            end
        | Raise e => (calls, Some e)
        end
    | (calls, Raise e) => (calls, Some e)
    end
  else ([], None).

End ExportSheet.

(** ** Main flow *)

Definition HORA_INICIO_CARGA : string := "07:30".

Definition search : search_parameters :=
  {| first_solution_strategy := "PATH_CHEAPEST_ARC";
     local_search_metaheuristic := "GUIDED_LOCAL_SEARCH";
     time_limit_seconds := 10 |}.

(** How a run of [main] ends when it raises nothing; a finished run
    tells what [export_solution_to_sheet] did. *)
Inductive outcome : Type :=
  | NoSheets
  | NoMatrix
  | NoSolution
  | Finished (exported : list sheet_call * option exn).

Section Main.

Variable distance_matrix : nat → res (list element).
Variable slowdown : Z → Z.

(** [routing.SolveWithParameters]. *)
Variable solve : RoutingModel → search_parameters → option Assignment.

(** The spreadsheet service, as [export_solution_to_sheet] calls it. *)
Variable sheet : sheet_call → res unit.

(** [main], with the configured start of loading as argument and
    [fuel] turns for each route walk of the extractor.  The first
    component lists the models handed to the solver. *)
Definition main (hora_inicio_carga : string) (fuel : nat)
    (sheets : option (list location_row * list vehicle_row))
    : list RoutingModel * res outcome :=
  match sheets with
  | None => ([], Ok NoSheets)
  | Some (df_locations, df_vehicles) =>
      let locations := ubicacion <$> df_locations in
      let store_names := tienda <$> df_locations in
      let vehicle_ids := id_camion <$> df_vehicles in
      match get_time_matrix distance_matrix slowdown locations with
      | None => ([], Ok NoMatrix)
      | Some matrix =>
          match configure hora_inicio_carga df_locations df_vehicles matrix with
          | Raise e => ([], Raise e)
          | Ok (data, routing, start_loading_times) =>
              ([routing],
               match solve routing search with
               | Some solution =>
                   solution_for_export ←
                     process_solution data (manager routing) solution
                       store_names vehicle_ids start_loading_times fuel;
                   mret (Finished (export_solution_to_sheet sheet solution_for_export))
               | None => Ok NoSolution
               end)
          end
      end
  end.

End Main.

(** ** Vocabulary of the statements *)

Definition sum_list_Z (l : list Z) : Z := foldr Z.add 0 l.

(** The recurrences of the scheduler: [load_start_0 = S],
    [load_start_v = load_start_(v-1) + d_(v-1)] and
    [release_v = load_start_v + d_v]. *)
Fixpoint load_starts (current : Z) (durations : list Z) : list Z :=
  match durations with
  | [] => []
  | d :: rest => current :: load_starts (current + d) rest
  end.

Fixpoint release_times (current : Z) (durations : list Z) : list Z :=
  match durations with
  | [] => []
  | d :: rest => (current + d) :: release_times (current + d) rest
  end.

Definition non_decreasing (l : list Z) : Prop :=
  ∀ i j a b, (i ≤ j)%nat → l !! i = Some a → l !! j = Some b → a ≤ b.

(** The bounds [SetMin] posted on the route starts of vehicles
    [first], [first + 1], ... *)
Definition release_bounds (m : RoutingIndexManager) (first : nat)
    (releases : list Z) : list cumul_bound :=
  imap (λ k release, SetMin "time" (Start m (first + k)) release) releases.

(** The model with a list of bounds added to its record, in order. *)
Definition post_all (bs : list cumul_bound) (r : RoutingModel) : RoutingModel :=
  foldl (λ r b, append_bound b r) r bs.

(** A lower bound that is not above [C]. *)
Definition min_upto (C : Z) (b : cumul_bound) : Prop :=
  ∃ d i lo, b = SetMin d i lo ∧ lo ≤ C.

(** A release that [SetMin] takes on a fresh variable of the time
    dimension: within 64 bits and at or before minute 1440. *)
Definition release_fits (release : Z) : Prop :=
  -9223372036854775808 ≤ release ≤ 1440.

(** A window that [SetRange] takes on a fresh variable of the time
    dimension: both ends within 64 bits, and a minute between 0 and 1440
    from its opening to its closing. *)
Definition window_fits (o c : Z) : Prop :=
  -9223372036854775808 ≤ o ∧ c < 9223372036854775808
  ∧ o ≤ c ∧ o ≤ 1440 ∧ 0 ≤ c.

(** The bounds [SetRange] the loop over the time windows posts. *)
Definition window_bounds_from (data : data_model) (first : nat)
    (windows : list (Z * Z)) : list cumul_bound :=
  mjoin (imap (λ i w, if decide (first + i = depot data)%nat then []
                      else [SetRange "time" (first + i) w.1 w.2]) windows).

Definition window_bounds (data : data_model) : list cumul_bound :=
  window_bounds_from data 0 (time_windows data).

(** The two dimensions of the model, as [build_dimensions] declares them. *)
Definition capacity_dimension (data : data_model) : dimension :=
  {| dim_name := "Capacity"; dim_evaluator := 1; dim_slack_max := 0;
     dim_capacity := vehicle_capacities data;
     dim_fix_start_cumul_to_zero := true |}.

Definition time_dimension (data : data_model) : dimension :=
  {| dim_name := "time"; dim_evaluator := 0; dim_slack_max := 60;
     dim_capacity := replicate (num_vehicles data) 1440;
     dim_fix_start_cumul_to_zero := false |}.

Definition manager_of (data : data_model) : RoutingIndexManager :=
  {| mgr_nodes := length (time_matrix data);
     mgr_vehicles := num_vehicles data;
     mgr_depot := depot data |}.

(** ** A small instance

    A depot and two shops, two vehicles of ten boxes that load for 20 and
    15 minutes. *)
Module Demo.

Definition locs : list location_row :=
  [ {| tienda := CStr "Bodega"; ubicacion := CStr "Av. Central 100"; demanda := 0;
       hora_apertura := CStr "00:00"; hora_cierre := CStr "23:59";
       tiempo_servicio := 0 |};
    {| tienda := CStr "Tienda A"; ubicacion := CStr "Calle 1"; demanda := 3;
       hora_apertura := CStr "08:00"; hora_cierre := CStr "12:00";
       tiempo_servicio := 10 |};
    {| tienda := CStr "Tienda B"; ubicacion := CStr "Calle 2"; demanda := 5;
       hora_apertura := CStr "09:00"; hora_cierre := CStr "13:00";
       tiempo_servicio := 15 |} ].

Definition vehs : list vehicle_row :=
  [ {| id_camion := CStr "C1"; capacidad_cajas := 10; tiempo_carga_min := 20 |};
    {| id_camion := CStr "C2"; capacidad_cajas := 10; tiempo_carga_min := 15 |} ].

Definition matrix : list (list Z) := [[0; 30; 40]; [30; 0; 20]; [40; 20; 0]].

(** Factor 1.5 in exact arithmetic: [seconds / 60 * 1.5] is
    [seconds / 40]. *)
Definition slowdown (seconds : Z) : Z := seconds / 40 + 1.

Definition ok (seconds : Z) : element :=
  {| status := "OK"; duration := Some seconds |}.

Definition failed (why : string) : element :=
  {| status := why; duration := None |}.

Definition service (origin : nat) : res (list element) :=
  match origin with
  | 0%nat => Ok [ok 0; ok 1160; ok 1560]
  | 1%nat => Ok [ok 1160; ok 0; ok 760]
  | 2%nat => Ok [ok 1560; ok 760; ok 0]
  | _ => Raise ApiError
  end.

(** The same service when the road from shop A to shop B is not found. *)
Definition service_gap (origin : nat) : res (list element) :=
  match origin with
  | 1%nat => Ok [ok 1160; ok 0; failed "NOT_FOUND"]
  | _ => service origin
  end.

Definition table (time load next : list Z) : Assignment :=
  {| next_var := λ i, Z.to_nat (default 0 (next !! i));
     cumul_var := λ dim i,
       if String.eqb dim "time" then default 0 (time !! i)
       else default 0 (load !! i) |}.

(** Vehicle C1 serves both shops, C2 stays: routes 0, 1, 2, 4 and 3, 5. *)
Definition sol_one : Assignment :=
  table [470; 500; 540; 485; 595; 485] [0; 0; 3; 0; 8; 0] [1; 2; 4; 5].

(** One shop each: routes 0, 1, 4 and 3, 2, 5. *)
Definition sol_two : Assignment :=
  table [470; 500; 540; 500; 540; 595] [0; 0; 0; 0; 3; 5] [1; 4; 5; 2].

(** The data model of this instance and what the extractor is given. *)
Definition data : data_model :=
  {| time_matrix := matrix;
     time_windows := [(0, 1439); (480, 720); (540, 780)];
     demands := [0; 3; 5];
     service_times := [0; 10; 15];
     num_vehicles := 2;
     vehicle_capacities := [10; 10];
     depot := 0 |}.

Definition store_names : list cell := tienda <$> locs.
Definition vehicle_ids : list cell := id_camion <$> vehs.
Definition start_loading_times : list Z := [450; 470].

(** The same durations as [service], with statuses the extractor of the
    matrix does not look at: an element after the first that is marked as
    failed, and a different exception past the last origin. *)
Definition service_marked (origin : nat) : res (list element) :=
  match origin with
  | 0%nat => Ok [ok 0; ok 1160; ok 1560]
  | 1%nat => Ok [ok 1160; ok 0; {| status := "ZERO_RESULTS"; duration := Some 760 |}]
  | 2%nat => Ok [ok 1560; ok 760; ok 0]
  | _ => Raise KeyError
  end.

(** A midnight start of loading and a shop open from midnight. *)
Definition early_locs : list location_row :=
  [ {| tienda := CStr "Bodega"; ubicacion := CStr "Av. Central 100"; demanda := 0;
       hora_apertura := CStr "00:00"; hora_cierre := CStr "23:59";
       tiempo_servicio := 0 |};
    {| tienda := CStr "Tienda A"; ubicacion := CStr "Calle 1"; demanda := 3;
       hora_apertura := CStr "00:00"; hora_cierre := CStr "12:00";
       tiempo_servicio := 10 |} ].

Definition early_vehs : list vehicle_row :=
  [ {| id_camion := CStr "C1"; capacidad_cajas := 10; tiempo_carga_min := 10 |} ].

Definition early_matrix : list (list Z) := [[0; 5]; [5; 0]].

(** Route 0, 1, 2: out at 00:10, at the shop at 00:15, back at 00:30. *)
Definition early_sol : Assignment := table [10; 15; 30] [0; 0; 3] [1; 2].

(** A spreadsheet service that does every call, one whose spreadsheet
    has no sheet "Rutas" yet, and one that refuses every update. *)
Definition sheet_ok (call : sheet_call) : res unit := Ok ().

Definition sheet_new (call : sheet_call) : res unit :=
  match call with
  | OpenRutas => Raise WorksheetNotFound
  | _ => Ok ()
  end.

Definition sheet_refusing (call : sheet_call) : res unit :=
  match call with
  | UpdateA1 _ => Raise ApiError
  | _ => Ok ()
  end.

End Demo.

(** ** Readings of the two dimensions that the statements compare *)

(** Every cumulative time on a vehicle's route of a feasible solution lies
    between [lo] and [hi]. *)
Definition time_cumul_within (lo hi : Z) (hora : string)
    (locs : list location_row) (vehs : list vehicle_row)
    (matrix : list (list Z)) : Prop :=
  ∀ data routing starts sol v stops index,
    configure hora locs vehs matrix = Ok (data, routing, starts) →
    feasible routing sol = true →
    (v < length vehs)%nat →
    route (manager routing) sol v = Some stops →
    index ∈ stops →
    lo ≤ cumul_var sol "time" index ≤ hi.

(** The load dimension charges, on the arc from [i] to [j], the demand of
    the node entered. *)
Definition charges_on_entry (hora : string) (locs : list location_row)
    (vehs : list vehicle_row) (matrix : list (list Z)) : Prop :=
  ∀ data routing starts i j,
    configure hora locs vehs matrix = Ok (data, routing, starts) →
    transit routing (capacity_dimension data) i j
    = getitem (demands data) (IndexToNode (manager routing) j).

(** The demand of the node behind an index, 0 outside the table. *)
Definition demand_at (data : data_model) (m : RoutingIndexManager)
    (index : nat) : Z :=
  default 0 (demands data !! IndexToNode m index).

(** ** Shape of the exported plan *)

(** Groups of rows with one separator between consecutive groups. *)
Fixpoint join_groups {A} (separator : list A) (groups : list (list A)) : list A :=
  match groups with
  | [] => []
  | [g] => g
  | g :: rest => g ++ separator ++ join_groups separator rest
  end.

(** A row of an event: its second field is the sequence number. *)
Definition event_row (r : list cell) : Prop := ∃ sequence, r !! 1%nat = Some (CInt sequence).

(** ** Vocabulary of the further properties *)

(** Both clock texts of a row are accepted by [time_to_minutes]. *)
Definition window_readable (row : location_row) : Prop :=
  (∃ o, time_to_minutes (hora_apertura row) = Ok o)
  ∧ (∃ c, time_to_minutes (hora_cierre row) = Ok c).

(** Two answers of the mapping service that [get_time_matrix] cannot tell
    apart: both are exceptions, or both are rows with the same durations
    whose first elements agree on being OK. *)
Definition same_for_matrix (a b : res (list element)) : Prop :=
  match a, b with
  | Raise _, Raise _ => True
  | Ok ea, Ok eb =>
      duration <$> ea = duration <$> eb
      ∧ ∀ a0 b0, head ea = Some a0 → head eb = Some b0 →
          (status a0 = "OK" ↔ status b0 = "OK")
  | _, _ => False
  end.

(** The matrix with the diagonal of its first [k] rows set to 0. *)
Definition zeroed_upto (k : nat) (matrix : list (list Z)) : list (list Z) :=
  imap (λ i row, if decide (i < k)%nat then <[i := 0]> row else row) matrix.

(** ** The rows of a route, read off the list of its stops

    [visit_loop] follows the solver's next-pointers; [rows_of_route] makes
    the same rows from the list of stops [start :: mids ++ [end_]] of a
    route, in the same order and with the same lookups. *)

Section RouteRows.

Variable data : data_model.
Variable m : RoutingIndexManager.
Variable solution : Assignment.
Variable store_names : list cell.
Variable start_loading_times : list Z.

Fixpoint visit_rows (actual_vehicle_id : cell) (sequence route_load : Z)
    (mids : list nat) : res (Z * Z * list (list cell)) :=
  match mids with
  | [] => Ok (sequence, route_load, [])
  | index :: rest =>
      let sequence := sequence + 1 in
      let node_index := IndexToNode m index in
      store_name ← getitem store_names node_index;
      demand ← getitem (demands data) node_index;
      let route_load := route_load + demand in
      let arrival_time_val := cumul_var solution "time" index in
      service ← getitem (service_times data) node_index;
      let departure_time_val := arrival_time_val + service in
      '(last_sequence, total_load, rows) ←
        visit_rows actual_vehicle_id sequence route_load rest;
      mret (last_sequence, total_load,
            [actual_vehicle_id; CInt sequence; store_name; CStr "";
             CStr (minutes_to_clock arrival_time_val);
             CStr (minutes_to_clock departure_time_val); CInt route_load] :: rows)
  end.

Definition rows_of_route (vehicle_id : nat) (actual_vehicle_id : cell)
    (start : nat) (mids : list nat) (end_ : nat) : res (list (list cell)) :=
  _ ← getitem (vehicle_capacities data) vehicle_id;
  store_name ← getitem store_names (IndexToNode m start);
  start_load_val ← getitem start_loading_times vehicle_id;
  '(last_sequence, total_load, rows) ← visit_rows actual_vehicle_id 0 0 mids;
  depot_name ← getitem store_names (IndexToNode m end_);
  mret ([actual_vehicle_id; CInt 0; store_name;
         CStr (minutes_to_clock start_load_val); CStr "";
         CStr (minutes_to_clock (cumul_var solution "time" start)); CInt 0]
        :: rows
        ++ [[actual_vehicle_id; CInt (last_sequence + 1); depot_name; CStr "";
             CStr (minutes_to_clock (cumul_var solution "time" end_)); CStr "";
             CInt total_load]]).

End RouteRows.

(** ** Reading the sheets

    A frame is the list of record dictionaries that [get_all_records]
    gives for a sheet, one per data row, keyed by the header row; its
    columns are the keys that occur in some record, so a sheet without
    data rows has no columns. *)

Definition frame : Type := list (list (string * cell)).

Definition has_column (df : frame) (col : string) : bool :=
  existsb (λ record, existsb (String.eqb col) record.*1) df.

Definition required_cols_loc : list string :=
  ["tienda"; "ubicacion"; "demanda"; "hora_apertura"; "hora_cierre"; "tiempo_servicio"].

Definition required_cols_veh : list string :=
  ["id_camion"; "capacidad_cajas"; "tiempo_carga_min"].

Section Sheets.

(** Credentials, authorisation and [open_by_url]: done, or an exception. *)
Variable connect : res unit.

(** [spreadsheet.worksheet(name).get_all_records()]. *)
Variable get_all_records : string → res frame.

(** The two frames of [load_all_data_from_sheets], or [None]; every
    [except] clause returns [None]. *)
Definition load_all_data_from_sheets : option (frame * frame) :=
  match
    (_ ← connect;
     df_locations ← get_all_records "Datos";
     if negb (forallb (has_column df_locations) required_cols_loc) then Ok None
     else
       df_vehicles ← get_all_records "Vehiculos";
       if negb (forallb (has_column df_vehicles) required_cols_veh) then Ok None
       else Ok (Some (df_locations, df_vehicles)))
  with
  | Ok r => r
  | Raise _ => None
  end.

End Sheets.

(** Two sheets with one data row each, and the same sheets when
    "Vehiculos" holds its header row only. *)
Module DemoSheets.

Definition datos : frame :=
  [[("tienda", CStr "Bodega"); ("ubicacion", CStr "Av. Central 100");
    ("demanda", CInt 0); ("hora_apertura", CStr "00:00");
    ("hora_cierre", CStr "23:59"); ("tiempo_servicio", CInt 0)]].

Definition vehiculos : frame :=
  [[("id_camion", CStr "C1"); ("capacidad_cajas", CInt 10);
    ("tiempo_carga_min", CInt 20)]].

Definition sheets (name : string) : res frame :=
  if String.eqb name "Datos" then Ok datos
  else if String.eqb name "Vehiculos" then Ok vehiculos
  else Raise KeyError.

Definition sheets_no_fleet (name : string) : res frame :=
  if String.eqb name "Vehiculos" then Ok [] else sheets name.

End DemoSheets.

(** The cost of an arc for the search: the evaluator set for all vehicles. *)
Definition arc_cost (r : RoutingModel) (i j : nat) : res Z :=
  match arc_cost_evaluator r with
  | Some cb =>
      match callbacks r !! cb with
      | Some (Binary f) => f i j
      | Some (Unary f) => f i
      | None => Raise KeyError
      end
  | None => Ok 0
  end.

(** * Properties *)

(** ** The code on small inputs *)

Example time_to_minutes_0730 : time_to_minutes (CStr "07:30") = Ok 450.
Proof. reflexivity. Qed.

Example time_to_minutes_lenient : time_to_minutes (CStr " 1_0 : +5") = Ok 605.
Proof. reflexivity. Qed.

(** The separator 0x1c is not skipped as a space is. *)
Example time_to_minutes_separator :
  time_to_minutes (CStr (String (ascii_of_nat 28) "7:30")) = Raise ValueError.
Proof. reflexivity. Qed.

Example time_to_minutes_no_colon : time_to_minutes (CStr "7h30") = Raise ValueError.
Proof. reflexivity. Qed.

Example time_to_minutes_seconds : time_to_minutes (CStr "07:30:00") = Raise ValueError.
Proof. reflexivity. Qed.

Example time_to_minutes_number : time_to_minutes (CInt 730) = Raise ValueError.
Proof. reflexivity. Qed.

Example minutes_to_clock_485 : minutes_to_clock 485 = "08:05".
Proof. reflexivity. Qed.

Example demo_matrix :
  get_time_matrix Demo.service Demo.slowdown (ubicacion <$> Demo.locs)
  = Some Demo.matrix.
Proof. reflexivity. Qed.

Example demo_data : create_data_model Demo.locs Demo.vehs Demo.matrix = Ok Demo.data.
Proof. reflexivity. Qed.

Example demo_bounds :
  (λ '(_, routing, starts), (cumul_bounds routing, starts))
    <$> configure HORA_INICIO_CARGA Demo.locs Demo.vehs Demo.matrix
  = Ok ([SetMin "time" 0 470; SetMin "time" 3 485;
         SetRange "time" 1 480 720; SetRange "time" 2 540 780],
        Demo.start_loading_times).
Proof. reflexivity. Qed.

(** A run of [main] in which the solver answers the routes of
    [Demo.sol_one]: vehicle C2 is not required and has no row. *)
Example demo_main :
  (main Demo.service Demo.slowdown (λ _ _, Some Demo.sol_one) Demo.sheet_new
     HORA_INICIO_CARGA 5 (Some (Demo.locs, Demo.vehs))).2
  = Ok (Finished
      ([ AddRutas;
         UpdateA1
           [ header;
             [CStr "C1"; CInt 0; CStr "Bodega"; CStr "07:30"; CStr ""; CStr "07:50"; CInt 0];
             [CStr "C1"; CInt 1; CStr "Tienda A"; CStr ""; CStr "08:20"; CStr "08:30"; CInt 3];
             [CStr "C1"; CInt 2; CStr "Tienda B"; CStr ""; CStr "09:00"; CStr "09:15"; CInt 8];
             [CStr "C1"; CInt 3; CStr "Bodega"; CStr ""; CStr "09:55"; CStr ""; CInt 8] ];
         FormatHeader ], None)).
Proof. reflexivity. Qed.

(** The same run when the service refuses the update: the sheet "Rutas"
    is left cleared, the exception is caught and [main] ends. *)
Example demo_main_refused :
  (main Demo.service Demo.slowdown (λ _ _, Some Demo.sol_one) Demo.sheet_refusing
     HORA_INICIO_CARGA 5 (Some (Demo.locs, Demo.vehs))).2
  = Ok (Finished ([OpenRutas; ClearRutas], Some ApiError)).
Proof. reflexivity. Qed.

(** With loading from 07:30, reaching shop A at 09:21 respects its window
    and the day, yet the model rejects it: it needs a wait of 61 minutes
    at the depot, one more than the slack the time dimension allows.
    Reaching it at 09:20 is accepted. *)
Example demo_wait :
  (λ '(_, routing, _),
     (feasible routing (Demo.table [470; 561; 591; 485; 646; 485] [0; 0; 3; 0; 8; 0] [1; 2; 4; 5]),
      feasible routing (Demo.table [470; 560; 590; 485; 645; 485] [0; 0; 3; 0; 8; 0] [1; 2; 4; 5])))
    <$> configure HORA_INICIO_CARGA Demo.locs Demo.vehs Demo.matrix
  = Ok (false, true).
Proof. reflexivity. Qed.

(** A route that never reaches its end uses up every turn. *)
Example demo_cycle :
  process_solution Demo.data (manager_of Demo.data)
    (Demo.table [470; 500; 540] [0; 0; 3] [1; 2; 1; 5])
    Demo.store_names Demo.vehicle_ids Demo.start_loading_times 50
  = Raise NoTermination.
Proof. reflexivity. Qed.

(** ** Text and numbers *)

Module PyStrFacts.
Import PyStr.

Lemma string_forall_app P a b :
  string_forall P (a +:+ b) = string_forall P a && string_forall P b.
Proof.
  induction a as [|c a IH]; simpl; [done|].
  by rewrite IH, andb_assoc.
Qed.

Lemma string_forall_impl (P Q : ascii → bool) s :
  (∀ c, P c = true → Q c = true) →
  string_forall P s = true → string_forall Q s = true.
Proof.
  intros HPQ. induction s as [|c s IH]; simpl; [done|].
  intros [Hc Hs]%andb_true_iff. rewrite (HPQ _ Hc). simpl. auto.
Qed.

Lemma uint_all_digits d : string_forall is_digit (NilEmpty.string_of_uint d) = true.
Proof. induction d; simpl; auto. Qed.

Lemma zeros_all_digits k : string_forall is_digit (zeros k) = true.
Proof. induction k; simpl; auto. Qed.

Lemma digit_not_space c : is_digit c = true → is_space c = false.
Proof.
  unfold is_digit, digit_of_ascii, is_space.
  destruct (andb _ _) eqn:E; [|done]. intros _.
  apply andb_true_iff in E as [E1%N.leb_le E2%N.leb_le].
  apply orb_false_iff; split.
  - apply andb_false_iff. right. apply N.leb_gt. lia.
  - apply N.eqb_neq. lia.
Qed.

Lemma digit_not_char c (x : ascii) :
  (N_of_ascii x < 48 ∨ 57 < N_of_ascii x)%N →
  is_digit c = true → Ascii.eqb c x = false.
Proof.
  intros Hx. unfold is_digit, digit_of_ascii.
  destruct (andb _ _) eqn:E; [|done]. intros _.
  apply andb_true_iff in E as [E1%N.leb_le E2%N.leb_le].
  apply Ascii.eqb_neq. intros ->. lia.
Qed.

Lemma lstrip_digits s :
  string_forall is_digit s = true → lstrip s = s.
Proof.
  destruct s as [|c s]; simpl; [done|].
  intros [Hc _]%andb_true_iff. by rewrite (digit_not_space _ Hc).
Qed.

Lemma rstrip_digits s :
  string_forall is_digit s = true → rstrip s = s.
Proof.
  induction s as [|c s IH]; simpl; [done|].
  intros [Hc Hs]%andb_true_iff. rewrite (IH Hs).
  destruct s; [|done]. by rewrite (digit_not_space _ Hc).
Qed.

Lemma strip_digits s : string_forall is_digit s = true → strip s = s.
Proof.
  intros H. unfold strip. rewrite (lstrip_digits _ H). by apply rstrip_digits.
Qed.

Lemma digits_acc_pos d p :
  digits_acc (Npos p) (NilEmpty.string_of_uint d) = Some (Npos (Pos.of_uint_acc d p)).
Proof.
  revert p. induction d; intros p; simpl; [done|..];
    match goal with
    | |- digits_acc ?a _ = Some (N.pos (Pos.of_uint_acc _ ?b)) =>
        replace a with (N.pos b) by lia; apply IHd
    end.
Qed.

Lemma digits_acc_zero d :
  digits_acc 0 (NilEmpty.string_of_uint d) = Some (N.of_uint d).
Proof.
  induction d; simpl; [done| done |..]; apply digits_acc_pos.
Qed.

Lemma digits_acc_zeros k s : digits_acc 0 (zeros k +:+ s) = digits_acc 0 s.
Proof. induction k; simpl; auto. Qed.

Lemma digits_nonempty n : digits n ≠ EmptyString.
Proof.
  unfold digits. destruct n as [|p]; [done|]. simpl.
  pose proof (DecimalPos.Unsigned.to_uint_nonnil p) as Hp.
  destruct (Pos.to_uint p); done.
Qed.

(** Parsing the digits of a number, zero-padded or not, gives it back. *)
Lemma parse_nat_padded k n : parse_nat (zeros k +:+ digits n) = Some n.
Proof.
  assert (Hd : digits_acc 0 (digits n) = Some n).
  { unfold digits. rewrite digits_acc_zero. f_equal. apply DecimalN.Unsigned.of_to. }
  assert (Hp : parse_nat (digits n) = Some n).
  { unfold digits in *. destruct n as [|p]; [done|].
    pose proof (DecimalPos.Unsigned.to_uint_nonnil p) as Hnil.
    simpl in *. destruct (Pos.to_uint p); simpl in *; try done. }
  destruct k as [|k]; [done|]. simpl.
  by rewrite digits_acc_zeros.
Qed.

Lemma padded_all_digits k n : string_forall is_digit (zeros k +:+ digits n) = true.
Proof.
  rewrite string_forall_app, zeros_all_digits. apply uint_all_digits.
Qed.

Lemma int_padded k n : int (zeros k +:+ digits n) = Ok (Z.of_N n).
Proof.
  unfold int. rewrite (strip_digits _ (padded_all_digits k n)).
  pose proof (padded_all_digits k n) as Hall.
  pose proof (parse_nat_padded k n) as Hp.
  destruct (zeros k +:+ digits n) as [|c r] eqn:E; [done|].
  simpl in Hall. apply andb_true_iff in Hall as [Hc _].
  rewrite (digit_not_char c "-"), (digit_not_char c "+"); [|by left; vm_compute|done|by left; vm_compute|done].
  by rewrite Hp.
Qed.

Lemma int_format_02d z : 0 ≤ z → int (format_02d z) = Ok z.
Proof.
  intros Hz. unfold format_02d, zfill.
  destruct (Z.ltb_spec z 0); [lia|].
  rewrite int_padded. f_equal. lia.
Qed.

Lemma format_02d_all_digits z :
  0 ≤ z → string_forall is_digit (format_02d z) = true.
Proof.
  intros Hz. unfold format_02d, zfill.
  destruct (Z.ltb_spec z 0); [lia|]. apply padded_all_digits.
Qed.

Lemma split_no_sep sep s :
  string_forall (λ c, negb (Ascii.eqb c sep)) s = true → split sep s = [s].
Proof.
  induction s as [|c s IH]; simpl; [done|].
  intros [Hc Hs]%andb_true_iff. apply negb_true_iff in Hc.
  by rewrite Hc, (IH Hs).
Qed.

Lemma split_app sep a b :
  string_forall (λ c, negb (Ascii.eqb c sep)) a = true →
  split sep (a +:+ String sep b) = a :: split sep b.
Proof.
  induction a as [|c a IH]; simpl.
  - intros _. by rewrite Ascii.eqb_refl.
  - intros [Hc Ha]%andb_true_iff. apply negb_true_iff in Hc.
    by rewrite Hc, (IH Ha).
Qed.

Lemma digits_no_colon s :
  string_forall is_digit s = true →
  string_forall (λ c, negb (Ascii.eqb c ":")) s = true.
Proof.
  apply string_forall_impl. intros c Hc.
  rewrite (digit_not_char c ":"); [done| right; by vm_compute |done].
Qed.

(** Every outcome of [int] is a number or a [ValueError]. *)
Lemma int_cases s : (∃ z, int s = Ok z) ∨ int s = Raise ValueError.
Proof.
  unfold int. destruct (match strip s with EmptyString => _ | _ => _ end); eauto.
Qed.

End PyStrFacts.

(** ** Time utilities *)

Section TimeUtilities.
Import PyStr PyStrFacts.

Lemma digit_of_ascii_inv c a :
  digit_of_ascii c = Some a → c = ascii_of_N (48 + a) ∧ (a < 10)%N.
Proof.
  unfold digit_of_ascii. destruct (andb _ _) eqn:E; [|done].
  intros [= <-]. apply andb_true_iff in E as [E1%N.leb_le E2%N.leb_le].
  split; [|lia].
  replace (48 + (N_of_ascii c - 48))%N with (N_of_ascii c) by lia.
  by rewrite ascii_N_embedding.
Qed.

Lemma format_02d_two_digits c1 c2 a b :
  digit_of_ascii c1 = Some a → digit_of_ascii c2 = Some b →
  format_02d (Z.of_N (10 * a + b)) = String c1 (String c2 EmptyString).
Proof.
  intros [-> Ha]%digit_of_ascii_inv [-> Hb]%digit_of_ascii_inv.
  assert (Ea : (a = 0 ∨ a = 1 ∨ a = 2 ∨ a = 3 ∨ a = 4 ∨ a = 5 ∨ a = 6
                ∨ a = 7 ∨ a = 8 ∨ a = 9)%N) by lia.
  assert (Eb : (b = 0 ∨ b = 1 ∨ b = 2 ∨ b = 3 ∨ b = 4 ∨ b = 5 ∨ b = 6
                ∨ b = 7 ∨ b = 8 ∨ b = 9)%N) by lia.
  clear Ha Hb.
  repeat (destruct Ea as [->|Ea]); try subst a;
    repeat (destruct Eb as [->|Eb]); try subst b; reflexivity.
Qed.

Lemma split_clock h m :
  0 ≤ h → 0 ≤ m →
  split ":" (format_02d h +:+ ":" +:+ format_02d m) = [format_02d h; format_02d m].
Proof.
  intros Hh Hm. change (":" +:+ format_02d m) with (String ":" (format_02d m)).
  rewrite split_app by (apply digits_no_colon; by apply format_02d_all_digits).
  rewrite split_no_sep by (apply digits_no_colon; by apply format_02d_all_digits).
  done.
Qed.

(** Reading a rendered clock gives the hour and minute that were
    rendered, whatever their size. *)
Lemma time_to_minutes_rendered h m :
  0 ≤ h → 0 ≤ m →
  time_to_minutes (CStr (format_02d h +:+ ":" +:+ format_02d m)) = Ok (h * 60 + m).
Proof.
  intros Hh Hm. unfold time_to_minutes. simpl str.
  rewrite split_clock by done.
  by rewrite !int_format_02d by done.
Qed.

Lemma valid_clock_inv s :
  valid_clock s = true →
  ∃ h m, 0 ≤ h ≤ 23 ∧ 0 ≤ m ≤ 59 ∧ s = format_02d h +:+ ":" +:+ format_02d m.
Proof.
  destruct s as [|h1 [|h2 [|c [|m1 [|m2 [|? ?]]]]]]; try done. simpl.
  destruct (digit_of_ascii h1) as [a|] eqn:E1; [|done].
  destruct (digit_of_ascii h2) as [b|] eqn:E2; [|done].
  destruct (digit_of_ascii m1) as [x|] eqn:E3; [|done].
  destruct (digit_of_ascii m2) as [y|] eqn:E4; [|done].
  intros [[Hc%Ascii.eqb_eq Hh%N.leb_le]%andb_true_iff Hm%N.leb_le]%andb_true_iff.
  subst c. exists (Z.of_N (10 * a + b)), (Z.of_N (10 * x + y)).
  split; [lia|]. split; [lia|].
  by rewrite (format_02d_two_digits _ _ _ _ E1 E2), (format_02d_two_digits _ _ _ _ E3 E4).
Qed.

End TimeUtilities.

(** C5. For every valid 24-hour clock string "HH:MM" (hour 0 to 23, minute
    0 to 59), [time_to_minutes] succeeds and rendering its result back as
    zero-padded hours [v // 60] and minutes [v % 60] gives the string
    again. *)
Theorem clock_round_trip (s : string) :
  valid_clock s = true →
  ∃ v, time_to_minutes (CStr s) = Ok v ∧ minutes_to_clock v = s.
Proof.
  intros (h & m & Hh & Hm & ->)%valid_clock_inv.
  exists (h * 60 + m). split.
  - apply time_to_minutes_rendered; lia.
  - unfold minutes_to_clock.
    replace ((h * 60 + m) / 60) with h by (apply Z.div_unique with m; lia).
    replace ((h * 60 + m) mod 60) with m by (apply Z.mod_unique with h; lia).
    done.
Qed.

Lemma clock_round_trip_witness :
  valid_clock "07:30" = true
  ∧ ∃ v, time_to_minutes (CStr "07:30") = Ok v ∧ minutes_to_clock v = "07:30".
Proof. split; [reflexivity | apply (clock_round_trip "07:30"); reflexivity]. Defined.

(** C9. [time_to_minutes] is partial: it answers [h * 60 + m] exactly when
    the text of its argument splits on the colon into two parts that
    [int] accepts, it raises on every other argument, and it checks no
    range: "25:99" is read as 1599. *)
Theorem time_to_minutes_partial :
  (∀ x v, time_to_minutes x = Ok v ↔
     ∃ a b h m, PyStr.split ":" (PyStr.str x) = [a; b]
       ∧ PyStr.int a = Ok h ∧ PyStr.int b = Ok m ∧ v = h * 60 + m)
  ∧ (∀ x, ¬ (∃ a b h m, PyStr.split ":" (PyStr.str x) = [a; b]
               ∧ PyStr.int a = Ok h ∧ PyStr.int b = Ok m) →
       time_to_minutes x = Raise ValueError)
  ∧ time_to_minutes (CStr "25:99") = Ok 1599.
Proof.
  split; [|split]; [| |reflexivity].
  - intros x v. unfold time_to_minutes. split.
    + destruct (PyStr.split ":" (PyStr.str x)) as [|a [|b [|? ?]]]; try done.
      destruct (PyStr.int a) as [h|] eqn:Ea; [|done].
      destruct (PyStr.int b) as [m|] eqn:Eb; [|done].
      intros [= <-]. by exists a, b, h, m.
    + intros (a & b & h & m & -> & -> & -> & ->). done.
  - intros x Hno. unfold time_to_minutes.
    destruct (PyStr.split ":" (PyStr.str x)) as [|a [|b [|? ?]]]; try done.
    destruct (PyStrFacts.int_cases a) as [[h Ea]| ->]; [|done].
    destruct (PyStrFacts.int_cases b) as [[m Eb]| Eb]; rewrite Ea, Eb; [|done].
    exfalso. apply Hno. by exists a, b, h, m.
Qed.

(** C10. The rendering of a minute value takes the hour as [v // 60] and
    never wraps it at 24: from 1440 minutes on the hour field reads 24 or
    more (1470 gives "24:30"), and the text differs from that of the same
    minute of the next day. *)
Theorem clock_hour_not_wrapped (v : Z) :
  1440 ≤ v →
  (∃ hh mm, PyStr.split ":" (minutes_to_clock v) = [hh; mm]
     ∧ PyStr.int hh = Ok (v / 60) ∧ 24 ≤ v / 60)
  ∧ minutes_to_clock v ≠ minutes_to_clock (v mod 1440)
  ∧ minutes_to_clock 1470 = "24:30".
Proof.
  intros Hv.
  assert (Hh : 24 ≤ v / 60) by (apply Z.div_le_lower_bound; lia).
  assert (Hm : 0 ≤ v mod 60) by (apply Z.mod_pos_bound; lia).
  assert (Hsplit : ∀ w, 0 ≤ w →
    PyStr.split ":" (minutes_to_clock w)
    = [PyStr.format_02d (w / 60); PyStr.format_02d (w mod 60)]).
  { intros w Hw. apply split_clock; [apply Z.div_pos; lia | apply Z.mod_pos_bound; lia]. }
  split; [|split]; [| |reflexivity].
  - eexists _, _. split; [apply Hsplit; lia|].
    split; [|done]. apply PyStrFacts.int_format_02d. lia.
  - intros Heq.
    assert (Hw : 0 ≤ v mod 1440 < 1440) by (apply Z.mod_pos_bound; lia).
    assert (Heq' : PyStr.split ":" (minutes_to_clock v)
                   = PyStr.split ":" (minutes_to_clock (v mod 1440))) by (by rewrite Heq).
    rewrite !Hsplit in Heq' by lia.
    injection Heq' as Hhh _.
    assert (Hint : PyStr.int (PyStr.format_02d (v / 60))
                   = PyStr.int (PyStr.format_02d (v mod 1440 / 60))) by (by rewrite Hhh).
    rewrite !PyStrFacts.int_format_02d in Hint
      by (apply Z.div_pos; lia).
    injection Hint as Hint.
    assert (v mod 1440 / 60 < 24) by (apply Z.div_lt_upper_bound; lia).
    lia.
Qed.

Lemma clock_hour_not_wrapped_witness :
  1440 ≤ 1470
  ∧ (∃ hh mm, PyStr.split ":" (minutes_to_clock 1470) = [hh; mm]
       ∧ PyStr.int hh = Ok (1470 / 60) ∧ 24 ≤ 1470 / 60)
  ∧ minutes_to_clock 1470 ≠ minutes_to_clock (1470 mod 1440)
  ∧ minutes_to_clock 1470 = "24:30".
Proof. split; [lia | apply (clock_hour_not_wrapped 1470); lia]. Defined.

(** ** Lookups *)

Lemma res_bind_ok {A B} (a : A) (f : A → res B) : (Ok a ≫= f) = f a.
Proof. done. Qed.

Lemma getitem_ok {A} (l : list A) i x : l !! i = Some x → getitem l i = Ok x.
Proof. unfold getitem. by intros ->. Qed.

Lemma getitem_lt {A} (l : list A) i :
  (i < length l)%nat → ∃ x, l !! i = Some x ∧ getitem l i = Ok x.
Proof.
  intros [x Hx]%lookup_lt_is_Some_2. exists x. split; [done|by apply getitem_ok].
Qed.

Lemma for_each_cons {A S} (body : S → A → res S) x xs s :
  for_each body (x :: xs) s = s' ← body s x; for_each body xs s'.
Proof. done. Qed.

Lemma map_res_cons {A B} (f : A → res B) x l :
  map_res f (x :: l) = y ← f x; ys ← map_res f l; mret (y :: ys).
Proof. done. Qed.

(** ** Staggered releases *)

Section Scheduler.

Lemma sum_list_Z_app l1 l2 : sum_list_Z (l1 ++ l2) = sum_list_Z l1 + sum_list_Z l2.
Proof. induction l1 as [|x l1 IH]; simpl; lia. Qed.

Lemma load_starts_length cur ds : length (load_starts cur ds) = length ds.
Proof. revert cur. induction ds; intros; simpl; auto. Qed.

Lemma release_times_length cur ds : length (release_times cur ds) = length ds.
Proof. revert cur. induction ds; intros; simpl; auto. Qed.

Lemma load_starts_lookup cur ds v :
  (v < length ds)%nat →
  load_starts cur ds !! v = Some (cur + sum_list_Z (take v ds)).
Proof.
  revert cur v. induction ds as [|d ds IH]; intros cur v Hv; simpl in *; [lia|].
  destruct v as [|v]; simpl.
  - f_equal. lia.
  - rewrite IH by lia. f_equal. lia.
Qed.

Lemma release_times_lookup cur ds v :
  (v < length ds)%nat →
  release_times cur ds !! v = Some (cur + sum_list_Z (take (S v) ds)).
Proof.
  revert cur v. induction ds as [|d ds IH]; intros cur v Hv; simpl in *; [lia|].
  destruct v as [|v].
  - simpl. f_equal. lia.
  - change ((cur + d :: release_times (cur + d) ds) !! S v)
      with (release_times (cur + d) ds !! v).
    rewrite IH by lia. f_equal. simpl. lia.
Qed.

Lemma sum_take_S ds v d :
  ds !! v = Some d → sum_list_Z (take (S v) ds) = sum_list_Z (take v ds) + d.
Proof.
  intros Hd. rewrite (take_S_r _ _ _ Hd), sum_list_Z_app. simpl. lia.
Qed.

Lemma sum_take_mono ds i j :
  Forall (λ d, 0 ≤ d) ds → (i ≤ j)%nat →
  sum_list_Z (take i ds) ≤ sum_list_Z (take j ds).
Proof.
  intros Hds Hij. induction Hij as [|j Hij IH]; [lia|].
  destruct (ds !! j) as [d|] eqn:Ed.
  - rewrite (sum_take_S _ _ _ Ed).
    pose proof (Forall_lookup_1 _ _ _ _ Hds Ed) as Hd. simpl in Hd. lia.
  - apply lookup_ge_None in Ed. rewrite (take_ge ds (S j)) by lia.
    rewrite (take_ge ds j) in IH by lia. done.
Qed.

Lemma post_all_bounds bs r : cumul_bounds (post_all bs r) = cumul_bounds r ++ bs.
Proof.
  revert r. induction bs as [|b bs IH]; intros r; simpl.
  - by rewrite app_nil_r.
  - unfold post_all in *. simpl. rewrite IH. simpl. by rewrite <- app_assoc.
Qed.

Lemma post_all_frame bs r :
  manager (post_all bs r) = manager r
  ∧ callbacks (post_all bs r) = callbacks r
  ∧ dimensions (post_all bs r) = dimensions r
  ∧ arc_cost_evaluator (post_all bs r) = arc_cost_evaluator r
  ∧ minimized_by_finalizer (post_all bs r) = minimized_by_finalizer r.
Proof.
  revert r. induction bs as [|b bs IH]; intros r; simpl; [done|].
  unfold post_all in *. simpl. destruct (IH (append_bound b r)) as (-> & -> & -> & -> & ->).
  done.
Qed.

Lemma post_all_app bs1 bs2 r : post_all (bs1 ++ bs2) r = post_all bs2 (post_all bs1 r).
Proof. unfold post_all. apply foldl_app. Qed.

Lemma cumul_max_post_all bs r dim : cumul_max (post_all bs r) dim = cumul_max r dim.
Proof.
  unfold cumul_max. by destruct (post_all_frame bs r) as (_ & _ & -> & _).
Qed.

Lemma cumul_max_nonneg r dim : 0 ≤ cumul_max r dim.
Proof.
  unfold cumul_max. destruct (find _ _) as [d|]; [|done].
  induction (dim_capacity d) as [|c l IH]; simpl; lia.
Qed.

(** *** When a bound is taken *)

Lemma post_bound_ok b r r' : post_bound b r = Ok r' → r' = append_bound b r.
Proof.
  unfold post_bound. destruct (negb _); [done|].
  destruct (decide _); [|done]. by intros [= <-].
Qed.

Lemma post_bound_raises b r e :
  post_bound b r = Raise e → e = OverflowError ∨ e = SolverFail.
Proof.
  unfold post_bound. destruct (negb _); [intros [= <-]; by left|].
  destruct (decide _); [done|]. intros [= <-]. by right.
Qed.

Lemma narrow_inside dim i bs : ∀ dom,
  dom.1 ≤ (foldl (narrow dim i) dom bs).1 ∧ (foldl (narrow dim i) dom bs).2 ≤ dom.2.
Proof.
  induction bs as [|b bs IH]; intros dom; simpl; [lia|].
  specialize (IH (narrow dim i dom b)).
  destruct b; simpl in *; destruct (_ && _); simpl in *; lia.
Qed.

Lemma cumul_domain_inside r dim i :
  0 ≤ (cumul_domain r dim i).1 ∧ (cumul_domain r dim i).2 ≤ cumul_max r dim.
Proof. apply (narrow_inside dim i (cumul_bounds r) (0, cumul_max r dim)). Qed.

Lemma narrow_same dim i dom b :
  bound_dim b = dim → bound_index b = i →
  narrow dim i dom b
  = match b with
    | SetMin _ _ lo => (Z.max dom.1 lo, dom.2)
    | SetRange _ _ lo hi => (Z.max dom.1 lo, Z.min dom.2 hi)
    end.
Proof.
  intros <- <-. destruct b; simpl; by rewrite String.eqb_refl, Nat.eqb_refl.
Qed.

Lemma narrow_other dim i dom b :
  bound_dim b ≠ dim ∨ bound_index b ≠ i → narrow dim i dom b = dom.
Proof.
  intros Hne. destruct b as [d j lo|d j lo hi]; simpl in *.
  - destruct (String.eqb_spec d dim) as [->|]; [|done].
    destruct (Nat.eqb_spec j i) as [->|]; [|done]. by destruct Hne.
  - destruct (String.eqb_spec d dim) as [->|]; [|done].
    destruct (Nat.eqb_spec j i) as [->|]; [|done]. by destruct Hne.
Qed.

(** The interval of a variable no bound has touched. *)
Lemma cumul_domain_fresh r dim i :
  Forall (λ b, bound_dim b ≠ dim ∨ bound_index b ≠ i) (cumul_bounds r) →
  cumul_domain r dim i = (0, cumul_max r dim).
Proof.
  unfold cumul_domain. generalize (0, cumul_max r dim).
  induction (cumul_bounds r) as [|b bs IH]; intros dom Hbs; [done|].
  apply Forall_cons in Hbs as [Hb Hbs]. simpl.
  rewrite (narrow_other _ _ _ _ Hb). by apply IH.
Qed.

(** Lower bounds leave the upper end of every interval where it was. *)
Lemma narrow_mins C dim i bs : ∀ lo0,
  lo0 ≤ C → Forall (min_upto C) bs →
  (foldl (narrow dim i) (lo0, C) bs).1 ≤ C
  ∧ (foldl (narrow dim i) (lo0, C) bs).2 = C.
Proof.
  induction bs as [|b bs IH]; intros lo0 Hlo Hbs; [done|].
  apply Forall_cons in Hbs as [(d & j & lo & -> & Hle) Hbs]. simpl.
  destruct (_ && _); simpl; apply IH; auto; lia.
Qed.

Lemma post_min_inv dim i lo r r' :
  post_bound (SetMin dim i lo) r = Ok r' →
  int64 lo = true ∧ lo ≤ cumul_max r dim.
Proof.
  unfold post_bound. simpl. rewrite andb_true_r.
  destruct (int64 lo); [|done]. simpl.
  rewrite String.eqb_refl, Nat.eqb_refl. simpl.
  destruct (decide _) as [Hle|]; [|done]. intros _.
  pose proof (cumul_domain_inside r dim i). split; [done|lia].
Qed.

Lemma post_min_runs C dim i lo r :
  cumul_max r dim = C → 0 ≤ C → Forall (min_upto C) (cumul_bounds r) →
  int64 lo = true → lo ≤ C →
  post_bound (SetMin dim i lo) r = Ok (append_bound (SetMin dim i lo) r).
Proof.
  intros HC H0 Hbs H64 Hlo. unfold post_bound. simpl. rewrite H64. simpl.
  rewrite String.eqb_refl, Nat.eqb_refl. simpl.
  unfold cumul_domain. rewrite HC.
  destruct (narrow_mins C dim i (cumul_bounds r) 0 H0 Hbs) as [H1 H2].
  rewrite H2. destruct (decide _) as [|Hn]; [done|]. lia.
Qed.

Lemma post_range_inv dim i lo hi r r' :
  post_bound (SetRange dim i lo hi) r = Ok r' →
  int64 lo = true ∧ int64 hi = true
  ∧ lo ≤ hi ∧ lo ≤ cumul_max r dim ∧ 0 ≤ hi.
Proof.
  unfold post_bound. simpl. rewrite andb_true_r.
  destruct (int64 lo); [|done]. destruct (int64 hi); [|done]. simpl.
  rewrite String.eqb_refl, Nat.eqb_refl. simpl.
  destruct (decide _) as [Hle|]; [|done]. intros _.
  pose proof (cumul_domain_inside r dim i). repeat split; lia.
Qed.

Lemma post_range_runs dim i lo hi r :
  Forall (λ b, bound_dim b ≠ dim ∨ bound_index b ≠ i) (cumul_bounds r) →
  int64 lo = true → int64 hi = true →
  lo ≤ hi → lo ≤ cumul_max r dim → 0 ≤ hi →
  post_bound (SetRange dim i lo hi) r = Ok (append_bound (SetRange dim i lo hi) r).
Proof.
  intros Hfresh Hlo64 Hhi64 H1 H2 H3. unfold post_bound. simpl.
  rewrite Hlo64, Hhi64. simpl.
  rewrite String.eqb_refl, Nat.eqb_refl. simpl.
  rewrite (cumul_domain_fresh _ _ _ Hfresh). simpl.
  pose proof (cumul_max_nonneg r dim).
  destruct (decide _) as [|Hn]; [done|]. lia.
Qed.

(** *** The loop of the releases *)

Lemma release_step_eq tiempos ids starts cur routing v_id :
  release_step tiempos ids (starts, cur, routing) v_id
  = carga ← getitem tiempos v_id;
    routing' ← post_bound (SetMin "time" (Start (manager routing) v_id) (cur + carga))
                 routing;
    _ ← getitem ids v_id;
    mret (starts ++ [cur], cur + carga, routing').
Proof. done. Qed.

(** The loop, started anywhere in the fleet: what it has done when it
    ends without an exception. *)
Lemma release_loop tiempos ids :
  ∀ rest done starts cur routing out,
    tiempos = done ++ rest →
    for_each (release_step tiempos ids) (seq (length done) (length rest))
      (starts, cur, routing) = Ok out →
    out = (starts ++ load_starts cur rest,
           cur + sum_list_Z rest,
           post_all (release_bounds (manager routing) (length done)
                       (release_times cur rest)) routing)
    ∧ Forall (λ release, int64 release = true ∧ release ≤ cumul_max routing "time")
        (release_times cur rest).
Proof.
  intros rest. induction rest as [|d rest IH]; intros done starts cur routing out Ht.
  - simpl. intros [= <-]. rewrite app_nil_r. split; [|done]. do 2 f_equal. lia.
  - assert (Hd : tiempos !! length done = Some d).
    { rewrite Ht. by rewrite list_lookup_middle. }
    cbn [length seq]. rewrite for_each_cons.
    rewrite release_step_eq, (getitem_ok _ _ _ Hd), res_bind_ok.
    destruct (post_bound _ routing) as [r1|] eqn:Epost; [|done].
    rewrite res_bind_ok.
    destruct (getitem ids (length done)); [|done]. rewrite res_bind_ok.
    change (mret ?x ≫= ?f) with (f x). cbn beta.
    replace (S (length done)) with (length (done ++ [d])) by (rewrite length_app; simpl; lia).
    intros Hrun. apply IH in Hrun; [|by rewrite <- app_assoc].
    destruct (post_min_inv _ _ _ _ _ Epost) as [H64 Hmax].
    apply post_bound_ok in Epost as ->.
    destruct Hrun as [-> Hall]. split.
    + f_equal; [f_equal|].
      * by rewrite <- app_assoc.
      * simpl. lia.
      * unfold release_bounds, post_all. simpl. rewrite Nat.add_0_r.
        f_equal. apply imap_ext. intros k r _. simpl.
        rewrite length_app. simpl. do 2 f_equal. lia.
    + simpl. apply Forall_cons. split; [done|]. exact Hall.
Qed.

(** The loop takes every release that fits the time dimension. *)
Lemma release_loop_runs C tiempos ids :
  (length tiempos ≤ length ids)%nat → 0 ≤ C →
  ∀ rest done starts cur routing,
    tiempos = done ++ rest →
    cumul_max routing "time" = C →
    Forall (min_upto C) (cumul_bounds routing) →
    Forall (λ release, int64 release = true ∧ release ≤ C) (release_times cur rest) →
    ∃ out, for_each (release_step tiempos ids) (seq (length done) (length rest))
             (starts, cur, routing) = Ok out.
Proof.
  intros Hids H0 rest.
  induction rest as [|d rest IH]; intros done starts cur routing Ht HC Hbs Hfit.
  - simpl. eauto.
  - assert (Hd : tiempos !! length done = Some d).
    { rewrite Ht. by rewrite list_lookup_middle. }
    destruct (ids !! length done) as [id|] eqn:Eid.
    2:{ apply lookup_ge_None in Eid. rewrite Ht, length_app in Hids. simpl in Hids. lia. }
    simpl in Hfit. apply Forall_cons in Hfit as [[H64 Hle] Hfit].
    cbn [length seq]. rewrite for_each_cons.
    rewrite release_step_eq, (getitem_ok _ _ _ Hd), res_bind_ok.
    rewrite (post_min_runs C) by done. rewrite res_bind_ok.
    rewrite (getitem_ok _ _ _ Eid), res_bind_ok.
    change (mret ?x ≫= ?f) with (f x). cbn beta.
    replace (S (length done)) with (length (done ++ [d])) by (rewrite length_app; simpl; lia).
    apply IH; [by rewrite <- app_assoc|done| |done].
    simpl. apply Forall_app. split; [done|].
    apply Forall_singleton. by eexists _, _, _.
Qed.

Lemma cumul_max_time data :
  num_vehicles data ≠ 0%nat → cumul_max (build_dimensions data) "time" = 1440.
Proof.
  intros Hnv. unfold cumul_max. simpl.
  destruct (num_vehicles data) as [|n]; [done|]. simpl.
  induction n as [|n IH]; simpl in *; lia.
Qed.

Lemma cumul_max_time_le data : 0 ≤ cumul_max (build_dimensions data) "time" ≤ 1440.
Proof.
  unfold cumul_max. simpl.
  induction (num_vehicles data) as [|n IH]; simpl in *; lia.
Qed.

Lemma int64_range z :
  int64 z = true ↔ -9223372036854775808 ≤ z < 9223372036854775808.
Proof.
  unfold int64. rewrite andb_true_iff, Z.leb_le, Z.ltb_lt. done.
Qed.

(** What the scheduler answers from the model of [build_dimensions]
    when every release fits. *)
Lemma staggered_release_runs hora_inicio_min ds ids data :
  (length ds ≤ length ids)%nat →
  num_vehicles data = length ds →
  Forall (λ release, -9223372036854775808 ≤ release ≤ 1440)
    (release_times hora_inicio_min ds) →
  staggered_release hora_inicio_min ds ids (length ds) (build_dimensions data)
  = Ok (load_starts hora_inicio_min ds,
        post_all (release_bounds (manager_of data) 0 (release_times hora_inicio_min ds))
          (build_dimensions data)).
Proof.
  intros Hids Hnv Hfit. unfold staggered_release.
  destruct ds as [|d ds]; [done|].
  assert (HC : cumul_max (build_dimensions data) "time" = 1440).
  { apply cumul_max_time. rewrite Hnv. done. }
  destruct (release_loop_runs 1440 (d :: ds) ids Hids ltac:(lia) (d :: ds) [] []
              hora_inicio_min (build_dimensions data) eq_refl HC) as [out Hout].
  { done. }
  { eapply Forall_impl; [exact Hfit|]. intros r Hr. simpl in Hr.
    split; [apply int64_range|]; lia. }
  change (seq 0 (length (d :: ds))) with (seq (length (@nil Z)) (length (d :: ds))).
  rewrite Hout.
  apply (release_loop (d :: ds) ids (d :: ds) [] [] hora_inicio_min
           (build_dimensions data) out eq_refl) in Hout as [-> _].
  done.
Qed.

(** Conversely a run of the scheduler that ends found every release
    fit. *)
Lemma staggered_release_inv hora_inicio_min ds ids n routing starts routing' :
  n = length ds →
  staggered_release hora_inicio_min ds ids n routing = Ok (starts, routing') →
  starts = load_starts hora_inicio_min ds
  ∧ routing' = post_all (release_bounds (manager routing) 0
                           (release_times hora_inicio_min ds)) routing
  ∧ Forall (λ release, int64 release = true ∧ release ≤ cumul_max routing "time")
      (release_times hora_inicio_min ds).
Proof.
  intros ->. unfold staggered_release.
  destruct (for_each _ _ _) as [out|] eqn:Eloop; [|done].
  apply (release_loop ds ids ds [] [] hora_inicio_min routing out eq_refl)
    in Eloop as [-> Hall].
  rewrite res_bind_ok. intros [= <- <-]. done.
Qed.

End Scheduler.

(** C1, amended.  The scheduler works on the model [main] has built,
    whose time dimension spans the minutes 0 to 1440 of one day, and
    posts each release with [SetMin].  From a start of loading [S] and
    loading durations, in vehicle order, whose releases
    [S + sum(d_0..d_v)] all lie at or before minute 1440 (and within 64
    bits), it answers the loading starts with [load_start_0 = S] and
    [load_start_v = load_start_(v-1) + d_(v-1)], and posts as lower bound
    of each route start the release
    [release_v = load_start_v + d_v = S + sum(d_0..d_v)]; when no duration
    is negative both sequences are non-decreasing. *)
Theorem staggered_release_sequence (hora_inicio_min : Z) (ds : list Z)
    (ids : list cell) (data : data_model) :
  length ids = length ds →
  num_vehicles data = length ds →
  (∀ v, (v < length ds)%nat →
     -9223372036854775808 ≤ hora_inicio_min + sum_list_Z (take (S v) ds) ≤ 1440) →
  ∃ starts releases routing',
    staggered_release hora_inicio_min ds ids (length ds) (build_dimensions data)
    = Ok (starts, routing')
    ∧ cumul_bounds routing' = release_bounds (manager_of data) 0 releases
    ∧ length starts = length ds ∧ length releases = length ds
    ∧ (ds ≠ [] → starts !! 0%nat = Some hora_inicio_min)
    ∧ (∀ v ls d, starts !! v = Some ls → ds !! v = Some d →
         releases !! v = Some (ls + d)
         ∧ ls + d = hora_inicio_min + sum_list_Z (take (S v) ds)
         ∧ ((S v < length ds)%nat → starts !! S v = Some (ls + d)))
    ∧ (Forall (λ d, 0 ≤ d) ds → non_decreasing starts ∧ non_decreasing releases).
Proof.
  intros Hids Hnv Hfit.
  exists (load_starts hora_inicio_min ds), (release_times hora_inicio_min ds),
    (post_all (release_bounds (manager_of data) 0 (release_times hora_inicio_min ds))
       (build_dimensions data)).
  split; [|split; [|split; [|split; [|split; [|split]]]]].
  - apply staggered_release_runs; [lia|done|].
    apply Forall_lookup_2. intros v r Hr.
    pose proof (lookup_lt_Some _ _ _ Hr) as Hv. rewrite release_times_length in Hv.
    rewrite release_times_lookup in Hr by done. injection Hr as <-. by apply Hfit.
  - by rewrite post_all_bounds.
  - apply load_starts_length.
  - apply release_times_length.
  - intros Hne. destruct ds; [done|]. done.
  - intros v ls d Hls Hd.
    pose proof (lookup_lt_Some _ _ _ Hd) as Hv.
    rewrite load_starts_lookup in Hls by done. injection Hls as <-.
    rewrite release_times_lookup by done.
    rewrite (sum_take_S _ _ _ Hd).
    split; [f_equal; lia|]. split; [lia|].
    intros Hv'. rewrite load_starts_lookup by done.
    rewrite (sum_take_S _ _ _ Hd). f_equal. lia.
  - intros Hpos. split; intros i j a b Hij Ha Hb.
    + pose proof (lookup_lt_Some _ _ _ Ha) as Hi.
      pose proof (lookup_lt_Some _ _ _ Hb) as Hj.
      rewrite load_starts_length in Hi, Hj.
      rewrite load_starts_lookup in Ha, Hb by done.
      injection Ha as <-. injection Hb as <-.
      pose proof (sum_take_mono ds i j Hpos Hij). lia.
    + pose proof (lookup_lt_Some _ _ _ Ha) as Hi.
      pose proof (lookup_lt_Some _ _ _ Hb) as Hj.
      rewrite release_times_length in Hi, Hj.
      rewrite release_times_lookup in Ha, Hb by done.
      injection Ha as <-. injection Hb as <-.
      pose proof (sum_take_mono ds (S i) (S j) Hpos ltac:(lia)). lia.
Qed.

(** Scenario D of the specification: loading starts at 07:30 and two
    vehicles load for 20 and 15 minutes. *)
Lemma staggered_release_sequence_witness :
  length Demo.vehicle_ids = length [20; 15]
  ∧ num_vehicles Demo.data = length [20; 15]
  ∧ (∀ v, (v < length [20; 15])%nat →
       -9223372036854775808 ≤ 450 + sum_list_Z (take (S v) [20; 15]) ≤ 1440)
  ∧ ∃ starts releases routing',
      staggered_release 450 [20; 15] Demo.vehicle_ids (length [20; 15])
        (build_dimensions Demo.data)
      = Ok (starts, routing')
      ∧ minutes_to_clock <$> starts = ["07:30"; "07:50"]
      ∧ minutes_to_clock <$> releases = ["07:50"; "08:05"]
      ∧ cumul_bounds routing' = [SetMin "time" 0 470; SetMin "time" 3 485].
Proof.
  assert (Hfit : ∀ v, (v < length [20; 15])%nat →
            -9223372036854775808 ≤ 450 + sum_list_Z (take (S v) [20; 15]) ≤ 1440).
  { intros [|[|v]] Hv; simpl in *; lia. }
  split; [reflexivity|]. split; [reflexivity|]. split; [exact Hfit|].
  destruct (staggered_release_sequence 450 [20; 15] Demo.vehicle_ids Demo.data
              eq_refl eq_refl Hfit)
    as (starts & releases & routing' & Hrun & Hb & _).
  exists starts, [470; 485], routing'.
  split; [exact Hrun|].
  vm_compute in Hrun. injection Hrun as <- <-.
  repeat split; reflexivity.
Defined.

(** C1, as the specification states it, fails.  With loading
    from 23:50 the first vehicle of the instance is released at minute
    1450, past the last minute of the time dimension: [SetMin] raises the
    solver's failure, and neither the scheduler nor [main]'s
    configuration answers anything. *)
Lemma release_after_midnight_aborts :
  time_to_minutes (CStr "23:50") = Ok 1430
  ∧ length Demo.vehicle_ids = length [20; 15]
  ∧ staggered_release 1430 [20; 15] Demo.vehicle_ids (length [20; 15])
      (build_dimensions Demo.data)
    = Raise SolverFail
  ∧ (¬ ∃ starts routing',
         staggered_release 1430 [20; 15] Demo.vehicle_ids (length [20; 15])
           (build_dimensions Demo.data)
         = Ok (starts, routing'))
  ∧ configure "23:50" Demo.locs Demo.vehs Demo.matrix = Raise SolverFail.
Proof.
  split; [reflexivity|]. split; [reflexivity|]. split; [reflexivity|].
  split; [|reflexivity]. intros (starts & routing' & Hrun). discriminate Hrun.
Qed.

(** ** The model handed to the solver *)

Section Configure.

Lemma window_step_eq data r loc_idx w :
  window_step data r (loc_idx, w)
  = if decide (loc_idx = depot data) then Ok r
    else post_bound (SetRange "time" loc_idx w.1 w.2) r.
Proof. done. Qed.

Lemma window_bounds_from_cons data first w ws :
  window_bounds_from data first (w :: ws)
  = (if decide (first = depot data) then []
     else [SetRange "time" first w.1 w.2])
    ++ window_bounds_from data (S first) ws.
Proof.
  unfold window_bounds_from. simpl. rewrite Nat.add_0_r. f_equal. f_equal.
  apply imap_ext. intros i x _. simpl.
  replace (first + S i)%nat with (S (first + i)) by lia. done.
Qed.

Lemma window_entries_cons first (w : Z * Z) ws :
  imap (λ i w, (first + i, w)%nat) (w :: ws)
  = (first, w) :: imap (λ i w, (S first + i, w)%nat) ws.
Proof.
  simpl. rewrite Nat.add_0_r. f_equal.
  apply imap_ext. intros i x _. simpl. f_equal. lia.
Qed.

(** The loop over the windows: what it has done when it ends without an
    exception, and what it found of every window it posted. *)
Lemma window_loop data ws : ∀ first r r',
  for_each (window_step data) (imap (λ i w, (first + i, w)%nat) ws) r = Ok r' →
  r' = post_all (window_bounds_from data first ws) r
  ∧ ∀ i w, ws !! i = Some w → (first + i)%nat ≠ depot data →
      int64 w.1 = true ∧ int64 w.2 = true
      ∧ w.1 ≤ w.2 ∧ w.1 ≤ cumul_max r "time" ∧ 0 ≤ w.2.
Proof.
  induction ws as [|w ws IH]; intros first r r'.
  - simpl. intros [= <-]. done.
  - rewrite window_entries_cons, for_each_cons, window_step_eq, window_bounds_from_cons.
    destruct (decide (first = depot data)) as [Hdep|Hdep].
    + rewrite res_bind_ok. intros Hrun. apply IH in Hrun as [-> Hall].
      split; [done|]. intros [|i] w' Hw' Hne; simpl in *.
      * rewrite Nat.add_0_r in Hne. done.
      * apply (Hall i w' Hw'). lia.
    + destruct (post_bound _ r) as [r1|] eqn:Epost; [|done].
      rewrite res_bind_ok. intros Hrun. apply IH in Hrun as [-> Hall].
      pose proof (post_range_inv _ _ _ _ _ _ Epost) as Hw.
      apply post_bound_ok in Epost as ->.
      split; [by rewrite post_all_app|].
      intros [|i] w' Hw' Hne; simpl in *.
      * by injection Hw' as <-.
      * apply (Hall i w' Hw'). lia.
Qed.

Lemma window_loop_raises data ws : ∀ first r e,
  for_each (window_step data) (imap (λ i w, (first + i, w)%nat) ws) r = Raise e →
  e = OverflowError ∨ e = SolverFail.
Proof.
  induction ws as [|w ws IH]; intros first r e; [done|].
  rewrite window_entries_cons, for_each_cons, window_step_eq.
  destruct (decide (first = depot data)).
  - rewrite res_bind_ok. apply IH.
  - destruct (post_bound _ r) as [r1|e1] eqn:Epost.
    + rewrite res_bind_ok. apply IH.
    + intros [= <-]. by apply post_bound_raises in Epost.
Qed.

(** The loop takes every window that fits, when no earlier bound is on
    a node the loop has still to visit. *)
Lemma window_loop_runs data ws : ∀ first r,
  (∀ b j, b ∈ cumul_bounds r → (first ≤ j < first + length ws)%nat →
     j ≠ depot data → bound_index b ≠ j) →
  (∀ i w, ws !! i = Some w → (first + i)%nat ≠ depot data →
     int64 w.1 = true ∧ int64 w.2 = true
     ∧ w.1 ≤ w.2 ∧ w.1 ≤ cumul_max r "time" ∧ 0 ≤ w.2) →
  ∃ r', for_each (window_step data) (imap (λ i w, (first + i, w)%nat) ws) r = Ok r'.
Proof.
  induction ws as [|w ws IH]; intros first r Hfresh Hfit; [simpl; eauto|].
  rewrite window_entries_cons, for_each_cons, window_step_eq.
  destruct (decide (first = depot data)) as [Hdep|Hdep].
  - rewrite res_bind_ok. apply IH.
    + intros b j Hb Hj. apply Hfresh; [done|]. simpl. lia.
    + intros i w' Hw' Hne. apply (Hfit (S i) w' Hw'). lia.
  - destruct (Hfit 0%nat w eq_refl ltac:(by rewrite Nat.add_0_r))
      as (H1 & H2 & H3 & H4 & H5).
    rewrite post_range_runs; [|
      apply Forall_forall; intros b Hb; right;
      apply (Hfresh b first Hb); [simpl; lia|done] |done..].
    rewrite res_bind_ok. apply IH.
    + intros b j Hb Hj Hne. simpl in Hb.
      apply elem_of_app in Hb as [Hb|Hb].
      * apply (Hfresh b j Hb); [simpl; lia|done].
      * apply list_elem_of_singleton in Hb as ->. simpl. lia.
    + intros i w' Hw' Hne. apply (Hfit (S i) w' Hw'). lia.
Qed.

Lemma time_window_bounds_inv data r r' :
  time_window_bounds data r = Ok r' →
  r' = post_all (window_bounds data) r
  ∧ ∀ i w, time_windows data !! i = Some w → i ≠ depot data →
      int64 w.1 = true ∧ int64 w.2 = true
      ∧ w.1 ≤ w.2 ∧ w.1 ≤ cumul_max r "time" ∧ 0 ≤ w.2.
Proof.
  unfold time_window_bounds, window_bounds.
  intros Hrun. apply (window_loop data _ 0%nat r r') in Hrun. exact Hrun.
Qed.

Lemma finalizers_frame data r :
  manager (finalizers data r) = manager r
  ∧ callbacks (finalizers data r) = callbacks r
  ∧ dimensions (finalizers data r) = dimensions r
  ∧ cumul_bounds (finalizers data r) = cumul_bounds r.
Proof.
  unfold finalizers. generalize (seq 0 (num_vehicles data)). intros l.
  revert r. induction l as [|v l IH]; intros r; simpl; [done|].
  destruct (IH (AddVariableMinimizedByFinalizer "time" (End (manager r) v) r))
    as (-> & -> & -> & ->). done.
Qed.

Lemma build_dimensions_eq data :
  manager (build_dimensions data) = manager_of data
  ∧ callbacks (build_dimensions data)
    = [Binary (time_callback data (manager_of data));
       Unary (demand_callback data (manager_of data))]
  ∧ arc_cost_evaluator (build_dimensions data) = Some 0%nat
  ∧ dimensions (build_dimensions data) = [capacity_dimension data; time_dimension data]
  ∧ cumul_bounds (build_dimensions data) = [].
Proof. done. Qed.

Lemma window_bounds_elem data node o c :
  time_windows data !! node = Some (o, c) → node ≠ depot data →
  SetRange "time" node o c ∈ window_bounds data.
Proof.
  intros Hw Hne. unfold window_bounds, window_bounds_from.
  apply list_elem_of_join. 
  exists [SetRange "time" node o c]. split; [apply list_elem_of_singleton; done|].
  apply list_elem_of_lookup. exists node.
  rewrite list_lookup_imap, Hw. simpl.
  destruct (decide (node = depot data)); done.
Qed.

Lemma create_data_model_vehicles locs vehs matrix data :
  create_data_model locs vehs matrix = Ok data →
  num_vehicles data = length (tiempo_carga_min <$> vehs).
Proof.
  unfold create_data_model. destruct (map_res _ locs); [|done].
  intros [= <-]. simpl. by rewrite length_fmap.
Qed.

(** The model [configure] answers, and what the bounds it posted were
    found to satisfy. *)
Lemma configure_inv hora locs vehs matrix data routing starts :
  configure hora locs vehs matrix = Ok (data, routing, starts) →
  ∃ inicio,
    time_to_minutes (CStr hora) = Ok inicio
    ∧ create_data_model locs vehs matrix = Ok data
    ∧ starts = load_starts inicio (tiempo_carga_min <$> vehs)
    ∧ routing
      = finalizers data
          (post_all (window_bounds data)
             (post_all (release_bounds (manager_of data) 0
                          (release_times inicio (tiempo_carga_min <$> vehs)))
                (build_dimensions data)))
    ∧ Forall (λ release, int64 release = true
                         ∧ release ≤ cumul_max (build_dimensions data) "time")
        (release_times inicio (tiempo_carga_min <$> vehs))
    ∧ ∀ i w, time_windows data !! i = Some w → i ≠ depot data →
        int64 w.1 = true ∧ int64 w.2 = true
        ∧ w.1 ≤ w.2 ∧ w.1 ≤ cumul_max (build_dimensions data) "time" ∧ 0 ≤ w.2.
Proof.
  unfold configure.
  destruct (create_data_model locs vehs matrix) as [data'|] eqn:Ed; [|done].
  rewrite res_bind_ok.
  destruct (time_to_minutes (CStr hora)) as [inicio|] eqn:Eh; [|done].
  rewrite res_bind_ok.
  pose proof (create_data_model_vehicles _ _ _ _ Ed) as Hnv.
  destruct (staggered_release _ _ _ _ _) as [[starts' r1]|] eqn:Erel; [|done].
  rewrite res_bind_ok.
  apply staggered_release_inv in Erel as (-> & -> & Hrel); [|done].
  destruct (time_window_bounds data' _) as [r2|] eqn:Ewin; [|done].
  rewrite res_bind_ok.
  apply time_window_bounds_inv in Ewin as [-> Hwin].
  intros [= <- <- <-].
  exists inicio. repeat split; try done.
  all: rewrite cumul_max_post_all in Hwin; by apply (Hwin i w).
Qed.

(** What [configure] leaves in the model when it raises nothing. *)
Lemma configure_ok hora locs vehs matrix data routing starts :
  configure hora locs vehs matrix = Ok (data, routing, starts) →
  ∃ inicio,
    time_to_minutes (CStr hora) = Ok inicio
    ∧ create_data_model locs vehs matrix = Ok data
    ∧ manager routing = manager_of data
    ∧ callbacks routing
      = [Binary (time_callback data (manager_of data));
         Unary (demand_callback data (manager_of data))]
    ∧ dimensions routing = [capacity_dimension data; time_dimension data]
    ∧ starts = load_starts inicio (tiempo_carga_min <$> vehs)
    ∧ cumul_bounds routing
      = release_bounds (manager_of data) 0
          (release_times inicio (tiempo_carga_min <$> vehs))
        ++ window_bounds data.
Proof.
  intros Hcfg.
  destruct (configure_inv _ _ _ _ _ _ _ Hcfg) as (inicio & Eh & Ed & -> & -> & _).
  exists inicio. split; [done|]. split; [done|].
  match goal with
  | |- context [post_all (window_bounds data) ?r] => set (r1 := r)
  end.
  destruct (finalizers_frame data (post_all (window_bounds data) r1)) as (-> & -> & -> & ->).
  destruct (post_all_frame (window_bounds data) r1) as (-> & -> & -> & _).
  rewrite post_all_bounds. unfold r1.
  match goal with
  | |- context [post_all ?bs (build_dimensions data)] =>
      destruct (post_all_frame bs (build_dimensions data)) as (-> & -> & -> & _);
      rewrite (post_all_bounds bs (build_dimensions data))
  end.
  done.
Qed.

End Configure.

(** ** What a feasible solution satisfies *)

Section Feasible.

Lemma map_res_lookup {A B} (f : A → res B) l ys i x :
  map_res f l = Ok ys → l !! i = Some x → ∃ y, f x = Ok y ∧ ys !! i = Some y.
Proof.
  revert ys i. induction l as [|a l IH]; intros ys i Hm Hx; [done|].
  simpl in Hm. destruct (f a) as [b|] eqn:Ea; [|done]. simpl in Hm.
  destruct (map_res f l) as [bs|] eqn:El; [|done]. simpl in Hm.
  injection Hm as <-. destruct i as [|i]; simpl in *.
  - injection Hx as <-. eauto.
  - eapply IH; eauto.
Qed.

Lemma map_res_length {A B} (f : A → res B) l ys :
  map_res f l = Ok ys → length ys = length l.
Proof.
  revert ys. induction l as [|a l IH]; intros ys Hm; simpl in Hm.
  - by injection Hm as <-.
  - destruct (f a); [|done]. simpl in Hm.
    destruct (map_res f l) eqn:El; [|done]. simpl in Hm.
    injection Hm as <-. simpl. f_equal. by apply IH.
Qed.

Lemma feasible_route r sol v :
  feasible r sol = true → (v < mgr_vehicles (manager r))%nat →
  ∃ stops, route (manager r) sol v = Some stops
    ∧ last stops = Some (End (manager r) v)
    ∧ ∀ d, d ∈ dimensions r → dimension_ok r sol d v stops = true.
Proof.
  unfold feasible. intros [[Hr _]%andb_true_iff _]%andb_true_iff Hv.
  rewrite forallb_forall in Hr.
  assert (Hok : route_ok r sol v = true) by (apply Hr, in_seq; lia).
  unfold route_ok in Hok.
  destruct (route (manager r) sol v) as [stops|]; [|done].
  exists stops. split; [done|].
  apply andb_true_iff in Hok as [Hl%bool_decide_eq_true Hd].
  split; [done|]. intros d Hin. rewrite forallb_forall in Hd.
  apply Hd. by apply list_elem_of_In.
Qed.

Lemma feasible_bound r sol b :
  feasible r sol = true → b ∈ cumul_bounds r → bound_ok sol b = true.
Proof.
  unfold feasible. intros [_ Hb]%andb_true_iff Hin.
  rewrite forallb_forall in Hb. apply Hb. by apply list_elem_of_In.
Qed.

Lemma cumuls_ok_Forall sol d capacity stops :
  cumuls_ok sol d capacity stops = true →
  Forall (λ i, 0 ≤ cumul_var sol (dim_name d) i ≤ capacity) stops.
Proof.
  unfold cumuls_ok. rewrite forallb_forall. intros H.
  apply Forall_forall. intros i Hi.
  apply (bool_decide_eq_true_1 _), H. by apply list_elem_of_In.
Qed.

Lemma arcs_ok_lookup r sol d stops k i j :
  arcs_ok r sol d stops = true →
  stops !! k = Some i → stops !! S k = Some j →
  ∃ t, transit r d i j = Ok t
    ∧ cumul_var sol (dim_name d) i + t ≤ cumul_var sol (dim_name d) j
      ≤ cumul_var sol (dim_name d) i + t + dim_slack_max d.
Proof.
  revert k. induction stops as [|a stops IH]; intros k Hok Hi Hj; [done|].
  destruct stops as [|b stops]; [done|].
  simpl in Hok. apply andb_true_iff in Hok as [Harc Hrest].
  destruct k as [|k]; simpl in Hi, Hj.
  - injection Hi as <-. injection Hj as <-.
    destruct (transit r d a b) as [t|]; [|done].
    exists t. split; [done|]. by apply (bool_decide_eq_true_1 _).
  - by apply (IH k).
Qed.

Lemma release_bounds_elem m inicio ds v d :
  ds !! v = Some d →
  SetMin "time" (Start m v) (inicio + sum_list_Z (take (S v) ds))
    ∈ release_bounds m 0 (release_times inicio ds).
Proof.
  intros Hd. pose proof (lookup_lt_Some _ _ _ Hd) as Hv.
  apply list_elem_of_lookup. exists v.
  unfold release_bounds. rewrite list_lookup_imap.
  by rewrite release_times_lookup.
Qed.

End Feasible.

(** C2. In every solution that satisfies the model [main] hands to the
    solver, the arrival (cumulative time) at each index of a stop other
    than the depot lies in the window of that stop, the cumulative load
    at every index of a vehicle's route is at most that vehicle's
    capacity, and the cumulative time at a vehicle's route start is at
    least its release: its loading start plus its loading duration. *)
Theorem feasible_solution_respects_constraints
    (hora : string) (locs : list location_row) (vehs : list vehicle_row)
    (matrix : list (list Z)) (data : data_model) (routing : RoutingModel)
    (starts : list Z) (sol : Assignment) :
  configure hora locs vehs matrix = Ok (data, routing, starts) →
  feasible routing sol = true →
  (∀ index row,
     locs !! IndexToNode (manager routing) index = Some row →
     IndexToNode (manager routing) index ≠ depot data →
     ∃ o c, time_to_minutes (hora_apertura row) = Ok o
       ∧ time_to_minutes (hora_cierre row) = Ok c
       ∧ o ≤ cumul_var sol "time" index ≤ c)
  ∧ (∀ v row, vehs !! v = Some row →
       ∃ stops load_start,
         route (manager routing) sol v = Some stops
         ∧ Forall (λ i, cumul_var sol "Capacity" i ≤ capacidad_cajas row) stops
         ∧ starts !! v = Some load_start
         ∧ load_start + tiempo_carga_min row
           ≤ cumul_var sol "time" (Start (manager routing) v)).
Proof.
  intros Hcfg Hfeas.
  destruct (configure_ok _ _ _ _ _ _ _ Hcfg)
    as (inicio & Hini & Hdata & Hm & Hcb & Hdims & Hstarts & Hbounds).
  unfold create_data_model in Hdata.
  destruct (map_res _ locs) as [windows|] eqn:Ew; [|done]. simpl in Hdata.
  injection Hdata as Hdata.
  split.
  - intros index row Hrow Hnd.
    destruct (map_res_lookup _ _ _ _ _ Ew Hrow) as ([o c] & Hoc & Hw).
    destruct (time_to_minutes (hora_apertura row)) as [o'|] eqn:Eo; [|done].
    destruct (time_to_minutes (hora_cierre row)) as [c'|] eqn:Ec; [|done].
    simpl in Hoc. injection Hoc as -> ->.
    exists o, c. split; [done|]. split; [done|].
    assert (Hidx : IndexToNode (manager routing) index = index).
    { unfold IndexToNode in *. destruct (decide _); [done|].
      exfalso. apply Hnd. rewrite Hm. by subst data. }
    rewrite Hidx in *.
    assert (Hin : SetRange "time" index o c ∈ cumul_bounds routing).
    { rewrite Hbounds. apply elem_of_app. right.
      apply window_bounds_elem; [by subst data|done]. }
    by apply (feasible_bound _ _ _ Hfeas), bool_decide_eq_true in Hin.
  - intros v row Hrow.
    pose proof (lookup_lt_Some _ _ _ Hrow) as Hv.
    destruct (feasible_route routing sol v Hfeas) as (stops & Hroute & _ & Hdim).
    { rewrite Hm. subst data. done. }
    assert (Hcap : dimension_ok routing sol (capacity_dimension data) v stops = true).
    { apply Hdim. rewrite Hdims. apply list_elem_of_here. }
    unfold dimension_ok in Hcap.
    assert (Hc : dim_capacity (capacity_dimension data) !! v = Some (capacidad_cajas row)).
    { subst data. simpl. by rewrite list_lookup_fmap, Hrow. }
    rewrite Hc in Hcap.
    apply andb_true_iff in Hcap as [[Hcum%cumuls_ok_Forall _]%andb_true_iff _].
    assert (Hd : (tiempo_carga_min <$> vehs) !! v = Some (tiempo_carga_min row))
      by (by rewrite list_lookup_fmap, Hrow).
    pose proof (lookup_lt_Some _ _ _ Hd) as Hv'.
    exists stops, (inicio + sum_list_Z (take v (tiempo_carga_min <$> vehs))).
    split; [done|]. split.
    { eapply Forall_impl; [exact Hcum|]. simpl. intros i Hi. lia. }
    split; [rewrite Hstarts; by apply load_starts_lookup|].
    assert (Hin : SetMin "time" (Start (manager routing) v)
                    (inicio + sum_list_Z (take (S v) (tiempo_carga_min <$> vehs)))
                  ∈ cumul_bounds routing).
    { rewrite Hbounds, Hm. apply elem_of_app. left.
      by eapply release_bounds_elem. }
    apply (feasible_bound _ _ _ Hfeas), bool_decide_eq_true in Hin.
    rewrite (sum_take_S _ _ _ Hd) in Hin. lia.
Qed.

Lemma feasible_solution_respects_constraints_witness :
  ∃ data routing starts,
    configure HORA_INICIO_CARGA Demo.locs Demo.vehs Demo.matrix
    = Ok (data, routing, starts)
    ∧ feasible routing Demo.sol_one = true
    ∧ (∃ o c, time_to_minutes (CStr "09:00") = Ok o
         ∧ time_to_minutes (CStr "13:00") = Ok c
         ∧ o ≤ cumul_var Demo.sol_one "time" 2 ≤ c)
    ∧ (∃ stops load_start,
         route (manager routing) Demo.sol_one 0 = Some stops
         ∧ Forall (λ i, cumul_var Demo.sol_one "Capacity" i ≤ 10) stops
         ∧ starts !! 0%nat = Some load_start
         ∧ load_start + 20 ≤ cumul_var Demo.sol_one "time" (Start (manager routing) 0)).
Proof.
  eexists _, _, _. split; [reflexivity|]. split; [reflexivity|].
  pose proof (feasible_solution_respects_constraints
                HORA_INICIO_CARGA Demo.locs Demo.vehs Demo.matrix _ _ _ Demo.sol_one
                eq_refl eq_refl) as [Hwin Hveh].
  split.
  - exact (Hwin 2%nat _ eq_refl ltac:(discriminate)).
  - exact (Hveh 0%nat _ eq_refl).
Defined.

(** ** The two dimensions *)

Section Dimensions.

Lemma walk_head m sol fuel index stops :
  walk m sol fuel index = Some stops → stops !! 0%nat = Some index.
Proof.
  destruct fuel as [|fuel]; [done|]. simpl.
  destruct (IsEnd m index); [by intros [= <-]|].
  destruct (walk m sol fuel (next_var sol index)); [|done].
  by intros [= <-].
Qed.

Lemma route_head m sol v stops :
  route m sol v = Some stops → stops !! 0%nat = Some (Start m v).
Proof. apply walk_head. Qed.

Lemma time_transit hora locs vehs matrix data routing starts i j :
  configure hora locs vehs matrix = Ok (data, routing, starts) →
  transit routing (time_dimension data) i j
  = time_callback data (manager routing) i j.
Proof.
  intros Hcfg. destruct (configure_ok _ _ _ _ _ _ _ Hcfg)
    as (_ & _ & _ & Hm & Hcb & _).
  unfold transit. rewrite Hcb, Hm. done.
Qed.

Lemma capacity_transit hora locs vehs matrix data routing starts i j :
  configure hora locs vehs matrix = Ok (data, routing, starts) →
  transit routing (capacity_dimension data) i j
  = demand_callback data (manager routing) i.
Proof.
  intros Hcfg. destruct (configure_ok _ _ _ _ _ _ _ Hcfg)
    as (_ & _ & _ & Hm & Hcb & _).
  unfold transit. rewrite Hcb, Hm. done.
Qed.

Lemma configure_data hora locs vehs matrix data routing starts :
  configure hora locs vehs matrix = Ok (data, routing, starts) →
  time_matrix data = matrix
  ∧ demands data = demanda <$> locs
  ∧ service_times data = tiempo_servicio <$> locs
  ∧ num_vehicles data = length vehs
  ∧ vehicle_capacities data = capacidad_cajas <$> vehs
  ∧ depot data = 0%nat
  ∧ length (time_windows data) = length locs.
Proof.
  intros Hcfg. destruct (configure_ok _ _ _ _ _ _ _ Hcfg) as (_ & _ & Hd & _).
  unfold create_data_model in Hd.
  destruct (map_res _ locs) as [windows|] eqn:Ew; [|done]. simpl in Hd.
  injection Hd as <-. simpl. repeat split; try done.
  by apply map_res_length in Ew.
Qed.

End Dimensions.

(** C3, as the specification states it, fails.  With loading from
    midnight, the model accepts a route whose vehicle reaches the shop at
    minute 15: the cumulative time has no lower bound of 60. *)
Lemma time_cumul_below_60 :
  ¬ time_cumul_within 60 1440 "00:00" Demo.early_locs Demo.early_vehs Demo.early_matrix.
Proof.
  intros H.
  specialize (H _ _ _ Demo.early_sol 0%nat [0; 1; 2]%nat 1%nat eq_refl eq_refl
                ltac:(simpl; lia) eq_refl).
  assert (Hin : 1%nat ∈ [0; 1; 2]%nat) by (apply list_elem_of_lookup; by exists 1%nat).
  specialize (H Hin). vm_compute in H. destruct H as [H _]. by apply H.
Qed.

(** C3, amended.  The transit of the time dimension from [i] to [j] is
    [T[i][j] + service(i)].  The dimension is declared with a slack of at
    most 60, a capacity of 1440 for every vehicle and a start that is not
    fixed: along a route of a feasible solution every cumulative time
    lies between 0 and 1440, and from a stop to the next it grows by the
    transit plus a wait of at most 60. *)
Theorem time_dimension_as_built
    (hora : string) (locs : list location_row) (vehs : list vehicle_row)
    (matrix : list (list Z)) (data : data_model) (routing : RoutingModel)
    (starts : list Z) :
  configure hora locs vehs matrix = Ok (data, routing, starts) →
  (∀ i j T_i travel row,
     matrix !! IndexToNode (manager routing) i = Some T_i →
     T_i !! IndexToNode (manager routing) j = Some travel →
     locs !! IndexToNode (manager routing) i = Some row →
     transit routing (time_dimension data) i j = Ok (travel + tiempo_servicio row))
  ∧ dimensions routing !! 1%nat = Some (time_dimension data)
  ∧ dim_slack_max (time_dimension data) = 60
  ∧ dim_capacity (time_dimension data) = replicate (length vehs) 1440
  ∧ dim_fix_start_cumul_to_zero (time_dimension data) = false
  ∧ time_cumul_within 0 1440 hora locs vehs matrix
  ∧ (∀ sol v stops k i j,
       feasible routing sol = true → (v < length vehs)%nat →
       route (manager routing) sol v = Some stops →
       stops !! k = Some i → stops !! S k = Some j →
       ∃ t, transit routing (time_dimension data) i j = Ok t
         ∧ cumul_var sol "time" i + t ≤ cumul_var sol "time" j
           ≤ cumul_var sol "time" i + t + 60).
Proof.
  intros Hcfg.
  destruct (configure_ok _ _ _ _ _ _ _ Hcfg) as (_ & _ & _ & Hm & _ & Hdims & _).
  destruct (configure_data _ _ _ _ _ _ _ Hcfg) as (HT & _ & Hs & Hnv & _).
  assert (Hdim : ∀ sol v stops,
    feasible routing sol = true → (v < length vehs)%nat →
    route (manager routing) sol v = Some stops →
    cumuls_ok sol (time_dimension data) 1440 stops = true
    ∧ arcs_ok routing sol (time_dimension data) stops = true).
  { intros sol v stops Hfeas Hv Hroute.
    destruct (feasible_route routing sol v Hfeas) as (stops' & Hroute' & _ & Hd).
    { by rewrite Hm; simpl; rewrite Hnv. }
    rewrite Hroute in Hroute'. injection Hroute' as <-.
    assert (Hok : dimension_ok routing sol (time_dimension data) v stops = true).
    { apply Hd. rewrite Hdims. apply list_elem_of_further, list_elem_of_here. }
    unfold dimension_ok in Hok. simpl in Hok.
    rewrite lookup_replicate_2 in Hok by lia.
    apply andb_true_iff in Hok as [[? ?]%andb_true_iff _]. done. }
  split; [|split; [|split; [|split; [|split; [|split]]]]].
  - intros i j T_i travel row HTi Htr Hrow.
    rewrite (time_transit _ _ _ _ _ _ _ i j Hcfg). unfold time_callback.
    rewrite HT, Hs.
    rewrite (getitem_ok _ _ _ HTi). simpl.
    rewrite (getitem_ok _ _ _ Htr). simpl.
    rewrite (getitem_ok (tiempo_servicio <$> locs) _ (tiempo_servicio row))
      by (by rewrite list_lookup_fmap, Hrow).
    done.
  - by rewrite Hdims.
  - done.
  - simpl. by rewrite Hnv.
  - done.
  - intros data' routing' starts' sol v stops index Hcfg' Hfeas Hv Hroute Hin.
    rewrite Hcfg in Hcfg'. injection Hcfg' as <- <- <-.
    destruct (Hdim sol v stops Hfeas Hv Hroute) as [Hc%cumuls_ok_Forall _].
    rewrite Forall_forall in Hc. by apply Hc.
  - intros sol v stops k i j Hfeas Hv Hroute Hi Hj.
    destruct (Hdim sol v stops Hfeas Hv Hroute) as [_ Ha].
    by apply (arcs_ok_lookup _ _ _ _ _ _ _ Ha Hi Hj).
Qed.

Lemma time_dimension_as_built_witness :
  ∃ data routing starts,
    configure HORA_INICIO_CARGA Demo.locs Demo.vehs Demo.matrix
    = Ok (data, routing, starts)
    ∧ transit routing (time_dimension data) 1 2 = Ok (20 + 10)
    ∧ dim_slack_max (time_dimension data) = 60
    ∧ dim_capacity (time_dimension data) = [1440; 1440]
    ∧ time_cumul_within 0 1440 HORA_INICIO_CARGA Demo.locs Demo.vehs Demo.matrix.
Proof.
  eexists _, _, _. split; [reflexivity|].
  pose proof (time_dimension_as_built
                HORA_INICIO_CARGA Demo.locs Demo.vehs Demo.matrix _ _ _ eq_refl)
    as (Htr & _ & Hslack & Hcap & _ & Hwithin & _).
  split; [exact (Htr 1%nat 2%nat _ _ _ eq_refl eq_refl eq_refl)|].
  split; [exact Hslack|]. split; [exact Hcap|]. exact Hwithin.
Defined.

(** C4, as the specification states it, fails.  On the arc from shop A
    (3 boxes) to shop B (5 boxes) the load dimension charges the 3 boxes
    of the shop that is left, not the 5 of the shop that is entered. *)
Lemma load_not_charged_on_entry :
  ¬ charges_on_entry HORA_INICIO_CARGA Demo.locs Demo.vehs Demo.matrix.
Proof.
  intros H. specialize (H _ _ _ 1%nat 2%nat eq_refl). vm_compute in H. discriminate H.
Qed.

(** C4, amended.  The load dimension charges, on every arc, the demand of
    the node the arc leaves.  It is declared with no slack, the vehicle
    capacities as upper bounds and the start fixed at zero: at every
    position of a route of a feasible solution the cumulative load is the
    exact total demand of the positions before it, and lies between 0 and
    the capacity of the vehicle. *)
Theorem capacity_dimension_as_built
    (hora : string) (locs : list location_row) (vehs : list vehicle_row)
    (matrix : list (list Z)) (data : data_model) (routing : RoutingModel)
    (starts : list Z) :
  configure hora locs vehs matrix = Ok (data, routing, starts) →
  (∀ i j, transit routing (capacity_dimension data) i j
          = getitem (demanda <$> locs) (IndexToNode (manager routing) i))
  ∧ dimensions routing !! 0%nat = Some (capacity_dimension data)
  ∧ dim_slack_max (capacity_dimension data) = 0
  ∧ dim_capacity (capacity_dimension data) = capacidad_cajas <$> vehs
  ∧ dim_fix_start_cumul_to_zero (capacity_dimension data) = true
  ∧ (∀ sol v row stops k i,
       feasible routing sol = true → vehs !! v = Some row →
       route (manager routing) sol v = Some stops →
       stops !! k = Some i →
       cumul_var sol "Capacity" i
       = sum_list_Z (demand_at data (manager routing) <$> take k stops)
       ∧ 0 ≤ cumul_var sol "Capacity" i ≤ capacidad_cajas row).
Proof.
  intros Hcfg.
  destruct (configure_ok _ _ _ _ _ _ _ Hcfg) as (_ & _ & _ & Hm & _ & Hdims & _).
  destruct (configure_data _ _ _ _ _ _ _ Hcfg) as (_ & Hdem & _ & Hnv & Hcaps & _).
  split; [|split; [|split; [|split; [|split]]]]; try done.
  - intros i j. rewrite (capacity_transit _ _ _ _ _ _ _ i j Hcfg).
    unfold demand_callback. by rewrite Hdem.
  - by rewrite Hdims.
  - intros sol v row stops k i Hfeas Hrow Hroute.
    pose proof (lookup_lt_Some _ _ _ Hrow) as Hv.
    destruct (feasible_route routing sol v Hfeas) as (stops' & Hroute' & _ & Hd).
    { by rewrite Hm; simpl; rewrite Hnv. }
    rewrite Hroute in Hroute'. injection Hroute' as <-.
    assert (Hok : dimension_ok routing sol (capacity_dimension data) v stops = true).
    { apply Hd. rewrite Hdims. apply list_elem_of_here. }
    unfold dimension_ok in Hok. simpl in Hok.
    rewrite Hcaps, list_lookup_fmap, Hrow in Hok. simpl in Hok.
    apply andb_true_iff in Hok as [[Hc%cumuls_ok_Forall Ha]%andb_true_iff Hz%bool_decide_eq_true].
    intros Hi. split.
    + revert i Hi. induction k as [|k IH]; intros i Hi.
      * rewrite (route_head _ _ _ _ Hroute) in Hi. injection Hi as <-. done.
      * destruct (lookup_lt_is_Some_2 stops k) as [p Hp];
          [apply lookup_lt_Some in Hi; lia|].
        destruct (arcs_ok_lookup _ _ _ _ _ _ _ Ha Hp Hi) as (t & Ht & Hle).
        simpl in Hle. rewrite (IH p Hp) in Hle.
        rewrite (take_S_r _ _ _ Hp), fmap_app, sum_list_Z_app. simpl.
        rewrite (capacity_transit _ _ _ _ _ _ _ p i Hcfg) in Ht.
        assert (Hdp : demand_at data (manager routing) p = t).
        { unfold demand_callback, getitem in Ht. unfold demand_at.
          destruct (demands data !! IndexToNode (manager routing) p) as [t'|]; [|done].
          by injection Ht as ->. }
        rewrite Hdp. simpl. lia.
    + rewrite Forall_forall in Hc. apply Hc. apply list_elem_of_lookup. eauto.
Qed.

Lemma capacity_dimension_as_built_witness :
  ∃ data routing starts,
    configure HORA_INICIO_CARGA Demo.locs Demo.vehs Demo.matrix
    = Ok (data, routing, starts)
    ∧ transit routing (capacity_dimension data) 1 2 = Ok 3
    ∧ cumul_var Demo.sol_one "Capacity" 4
      = sum_list_Z (demand_at data (manager routing) <$> [0; 1; 2]%nat)
    ∧ 0 ≤ cumul_var Demo.sol_one "Capacity" 4 ≤ 10.
Proof.
  eexists _, _, _. split; [reflexivity|].
  pose proof (capacity_dimension_as_built
                HORA_INICIO_CARGA Demo.locs Demo.vehs Demo.matrix _ _ _ eq_refl)
    as (Htr & _ & _ & _ & _ & Hload).
  split; [exact (Htr 1%nat 2%nat)|].
  exact (Hload Demo.sol_one 0%nat _ [0; 1; 2; 4]%nat 3%nat 4%nat
           eq_refl eq_refl eq_refl eq_refl).
Defined.

(** ** Travel-time matrix *)

Section MatrixFailure.

Variable distance_matrix : nat → res (list element).
Variable slowdown : Z → Z.

Lemma time_row_missing row_elements j e :
  row_elements !! j = Some e → duration e = None →
  ∃ ex, time_row slowdown row_elements = Raise ex.
Proof.
  revert j. induction row_elements as [|a l IH]; intros j Hj He; [done|].
  unfold time_row in *. simpl.
  destruct (duration a) as [seconds|] eqn:Ea; [|by eauto].
  simpl. destruct j as [|j]; simpl in Hj.
  - injection Hj as ->. congruence.
  - destruct (IH j Hj He) as [ex ->]. eauto.
Qed.

(** The loop over the origins cannot complete once one of the answers
    still to come holds an element that failed. *)
Lemma origin_loop_failed origins : ∀ first matrix i j row_elements e,
  (first ≤ i < first + length origins)%nat →
  distance_matrix i = Ok row_elements →
  row_elements !! j = Some e →
  status e ≠ "OK" → duration e = None →
  origin_loop distance_matrix slowdown first origins matrix = Ok None
  ∨ ∃ ex, origin_loop distance_matrix slowdown first origins matrix = Raise ex.
Proof.
  induction origins as [|origin rest IH];
    intros first matrix i j row_elements e Hi Hresp Hj Hst Hdur; simpl in *; [lia|].
  destruct (decide (first = i)) as [->|Hne].
  - rewrite Hresp. simpl.
    destruct row_elements as [|head tail]; [done|].
    unfold getitem. simpl.
    destruct (decide (status head ≠ "OK")); [by left|].
    destruct (time_row_missing (head :: tail) j e Hj Hdur) as [ex ->].
    right. by exists ex.
  - destruct (distance_matrix first) as [elements|ex]; [|right; by exists ex]. simpl.
    destruct (getitem elements 0) as [head|ex]; [|right; by exists ex]. simpl.
    destruct (decide (status head ≠ "OK")); [by left|].
    destruct (time_row slowdown elements) as [row|ex]; [|right; by exists ex]. simpl.
    apply (IH (S first) _ i j row_elements e); try done. lia.
Qed.

End MatrixFailure.

(** C8. When one element of one answer of the mapping service has a status
    other than OK, and so carries no duration, [get_time_matrix] answers
    no matrix at all, and [main] stops there: no model reaches the
    solver. *)
Theorem failed_entry_invalidates_matrix
    (distance_matrix : nat → res (list element)) (slowdown : Z → Z)
    (solve : RoutingModel → search_parameters → option Assignment)
    (sheet : sheet_call → res unit)
    (hora : string) (fuel : nat)
    (df_locations : list location_row) (df_vehicles : list vehicle_row)
    (i j : nat) (row_elements : list element) (e : element) :
  (i < length df_locations)%nat →
  distance_matrix i = Ok row_elements →
  row_elements !! j = Some e →
  status e ≠ "OK" → duration e = None →
  get_time_matrix distance_matrix slowdown (ubicacion <$> df_locations) = None
  ∧ main distance_matrix slowdown solve sheet hora fuel
      (Some (df_locations, df_vehicles))
    = ([], Ok NoMatrix).
Proof.
  intros Hi Hresp Hj Hst Hdur.
  assert (Hnone : get_time_matrix distance_matrix slowdown (ubicacion <$> df_locations) = None).
  { unfold get_time_matrix.
    destruct (origin_loop_failed distance_matrix slowdown (ubicacion <$> df_locations)
                0%nat [] i j row_elements e) as [-> | [ex ->]]; try done.
    rewrite length_fmap. lia. }
  split; [done|]. unfold main. by rewrite Hnone.
Qed.

Lemma failed_entry_invalidates_matrix_witness :
  (1 < length Demo.locs)%nat
  ∧ Demo.service_gap 1 = Ok [Demo.ok 1160; Demo.ok 0; Demo.failed "NOT_FOUND"]
  ∧ get_time_matrix Demo.service_gap Demo.slowdown (ubicacion <$> Demo.locs) = None
  ∧ main Demo.service_gap Demo.slowdown (λ _ _, Some Demo.sol_one) Demo.sheet_ok
      HORA_INICIO_CARGA 5 (Some (Demo.locs, Demo.vehs))
    = ([], Ok NoMatrix).
Proof.
  split; [simpl; lia|]. split; [reflexivity|].
  apply (failed_entry_invalidates_matrix Demo.service_gap Demo.slowdown
           (λ _ _, Some Demo.sol_one) Demo.sheet_ok HORA_INICIO_CARGA 5
           Demo.locs Demo.vehs
           1 2 [Demo.ok 1160; Demo.ok 0; Demo.failed "NOT_FOUND"]
           (Demo.failed "NOT_FOUND")).
  - simpl; lia.
  - reflexivity.
  - reflexivity.
  - discriminate.
  - reflexivity.
Defined.

(** ** Solution extractor *)

Section ExtractorFacts.

Variable data : data_model.
Variable m : RoutingIndexManager.
Variable solution : Assignment.
Variables store_names vehicle_ids : list cell.
Variable start_loading_times : list Z.

Local Abbreviation step := (vehicle_step data m solution store_names vehicle_ids start_loading_times).
Local Abbreviation group := (vehicle_group data m solution store_names vehicle_ids start_loading_times).
Local Abbreviation emit := (emit_route data m solution store_names start_loading_times).
Local Abbreviation visit := (visit_loop data m solution store_names).
Local Abbreviation used_vehicle := (λ v : nat, ¬ not_required m solution v).

Lemma for_each_skip {A S} (body : S → A → res S) (P : A → Prop)
    `{∀ x, Decision (P x)} (xs : list A) (s : S) :
  (∀ x s', x ∈ xs → ¬ P x → body s' x = Ok s') →
  for_each body xs s = for_each body (filter P xs) s.
Proof.
  revert s. induction xs as [|x xs IH]; intros s Hskip; [done|].
  rewrite filter_cons. destruct (decide (P x)) as [Hx|Hx]; simpl.
  - destruct (body s x); [|done]. simpl. apply IH.
    intros y s' Hy. apply Hskip. by apply list_elem_of_further.
  - rewrite (Hskip x s) by (done || apply list_elem_of_here). simpl.
    apply IH. intros y s' Hy. apply Hskip. by apply list_elem_of_further.
Qed.

Lemma vehicle_step_not_required fuel used rows v :
  (v < length vehicle_ids)%nat → not_required m solution v = true →
  step fuel (used, rows) v = Ok (used, rows).
Proof.
  intros Hv Hnr. unfold vehicle_step.
  destruct (getitem_lt vehicle_ids v Hv) as (id & _ & ->). simpl.
  by rewrite Hnr.
Qed.

Lemma visit_loop_acc fuel id : ∀ index sequence load rows more,
  visit fuel id index sequence load (rows ++ more)
  = (λ '(i, s, l, rs), (i, s, l, rows ++ rs)) <$> visit fuel id index sequence load more.
Proof.
  induction fuel as [|fuel IH]; intros index sequence load rows more; [done|].
  simpl. destruct (IsEnd m index); [done|].
  destruct (IsEnd m (next_var solution index)); [done|].
  destruct (getitem store_names _); [|done]. simpl.
  destruct (getitem (demands data) _); [|done]. simpl.
  destruct (getitem (service_times data) _); [|done]. simpl.
  rewrite <- app_assoc. apply IH.
Qed.

Lemma emit_route_acc fuel v id rows :
  emit fuel v id rows = (rows ++.) <$> emit fuel v id [].
Proof.
  unfold emit_route.
  destruct (getitem (vehicle_capacities data) v); [|done]. simpl.
  destruct (getitem store_names _); [|done]. simpl.
  destruct (getitem start_loading_times v); [|done]. simpl.
  rewrite (visit_loop_acc fuel id _ _ _ rows [_]).
  destruct (visit fuel id _ _ _ _) as [[[[i s] l] rs]|]; [|done]. simpl.
  destruct (getitem store_names _); [|done]. simpl.
  by rewrite <- app_assoc.
Qed.

Lemma visit_loop_events fuel id : ∀ index sequence load rows i s l rs,
  Forall event_row rows →
  visit fuel id index sequence load rows = Ok (i, s, l, rs) →
  Forall event_row rs.
Proof.
  induction fuel as [|fuel IH]; intros index sequence load rows i s l rs Hrows; [done|].
  simpl. destruct (IsEnd m index); [by intros [= _ _ _ <-]|].
  destruct (IsEnd m (next_var solution index)); [by intros [= _ _ _ <-]|].
  destruct (getitem store_names _); [|done]. simpl.
  destruct (getitem (demands data) _); [|done]. simpl.
  destruct (getitem (service_times data) _); [|done]. simpl.
  apply IH. apply Forall_app. split; [done|].
  apply Forall_singleton. by eexists.
Qed.

Lemma vehicle_group_events fuel v g :
  group fuel v = Ok g → g ≠ [] ∧ Forall event_row g.
Proof.
  unfold vehicle_group, emit_route.
  destruct (getitem vehicle_ids v) as [id|]; [|done]. simpl.
  destruct (getitem (vehicle_capacities data) v); [|done]. simpl.
  destruct (getitem store_names _); [|done]. simpl.
  destruct (getitem start_loading_times v); [|done]. simpl.
  destruct (visit fuel id _ _ _ _) as [[[[i s] l] rs]|] eqn:Ev; [|done]. simpl.
  destruct (getitem store_names _); [|done]. simpl.
  intros [= <-]. split; [by destruct rs|].
  apply Forall_app. split.
  - eapply visit_loop_events; [|exact Ev]. apply Forall_singleton. by eexists.
  - apply Forall_singleton. by eexists.
Qed.

Lemma blank_record_not_event : ¬ event_row blank_record.
Proof. intros [z Hz]. done. Qed.

Lemma vehicle_step_used fuel used rows v :
  (v < length vehicle_ids)%nat → not_required m solution v = false →
  step fuel (used, rows) v
  = g ← group fuel v;
    mret (S used,
          rows ++ g ++ (if decide (S used < dispatched data m solution)%nat
                        then [blank_record] else [])).
Proof.
  intros Hv Hnr. unfold vehicle_step, vehicle_group.
  destruct (getitem_lt vehicle_ids v Hv) as (id & _ & ->). simpl.
  rewrite Hnr. rewrite emit_route_acc.
  destruct (emit fuel v id []) as [g|]; [|done]. simpl.
  destruct (decide _); simpl; by rewrite <- ?app_assoc, ?app_nil_r.
Qed.

(** The loop over the vehicles, started anywhere in the fleet. *)
Lemma vehicle_loop fuel vs : ∀ used rows,
  (∀ v, v ∈ vs → v < length vehicle_ids)%nat →
  (used + length (filter used_vehicle vs))%nat = dispatched data m solution →
  for_each (step fuel) vs (used, rows)
  = gs ← map_res (group fuel) (filter used_vehicle vs);
    mret (dispatched data m solution, rows ++ join_groups [blank_record] gs).
Proof.
  induction vs as [|v vs IH]; intros used rows Hids Hcount.
  - simpl in *. rewrite app_nil_r. do 2 f_equal. lia.
  - assert (Hv : (v < length vehicle_ids)%nat) by apply Hids, list_elem_of_here.
    assert (Hids' : ∀ w, w ∈ vs → (w < length vehicle_ids)%nat)
      by (intros w Hw; by apply Hids, list_elem_of_further).
    rewrite filter_cons in Hcount |- *. rewrite for_each_cons.
    destruct (decide (used_vehicle v)) as [Hu|Hu].
    + apply negb_prop_intro, Is_true_true, negb_true_iff in Hu.
      rewrite (vehicle_step_used fuel used rows v Hv Hu), map_res_cons.
      simpl in Hcount.
      destruct (group fuel v) as [g|] eqn:Eg; [|done]. simpl.
      rewrite IH by (done || lia).
      destruct (map_res (group fuel) (filter used_vehicle vs)) as [gs|] eqn:Egs; [|done].
      simpl. apply map_res_length in Egs.
      destruct gs as [|g' gs]; simpl in *.
      * destruct (decide _); [lia|]. by rewrite !app_nil_r.
      * destruct (decide _); [|lia]. by rewrite <- !app_assoc.
    + assert (Hnr : not_required m solution v = true).
      { destruct (not_required m solution v); [done|]. exfalso. apply Hu. by intros ?. }
      rewrite (vehicle_step_not_required fuel used rows v Hv Hnr). simpl.
      by apply IH.
Qed.

End ExtractorFacts.

(** C6. A vehicle whose first stop after its start is already its route
    end leaves the plan as it was: its turn of the loop adds no row and
    counts no vehicle, so the plan is the one obtained from the
    dispatched vehicles alone. *)
Theorem unused_vehicle_contributes_no_rows
    (data : data_model) (m : RoutingIndexManager) (solution : Assignment)
    (store_names vehicle_ids : list cell) (start_loading_times : list Z)
    (fuel : nat) :
  (num_vehicles data ≤ length vehicle_ids)%nat →
  (∀ v used rows,
     (v < num_vehicles data)%nat → not_required m solution v = true →
     vehicle_step data m solution store_names vehicle_ids start_loading_times
       fuel (used, rows) v
     = Ok (used, rows))
  ∧ process_solution data m solution store_names vehicle_ids start_loading_times fuel
    = ('(_, rows) ←
         for_each
           (vehicle_step data m solution store_names vehicle_ids
              start_loading_times fuel)
           (filter (λ v, ¬ not_required m solution v) (seq 0 (num_vehicles data)))
           (O, [header]);
       mret rows).
Proof.
  intros Hids.
  assert (Hstep : ∀ v used rows,
    (v < num_vehicles data)%nat → not_required m solution v = true →
    vehicle_step data m solution store_names vehicle_ids start_loading_times
      fuel (used, rows) v = Ok (used, rows)).
  { intros v used rows Hv Hnr. apply vehicle_step_not_required; [lia|done]. }
  split; [exact Hstep|].
  unfold process_solution. f_equal.
  apply (for_each_skip _ (λ v, ¬ not_required m solution v)).
  intros v [used rows] Hv%elem_of_seq Hnot. apply Hstep; [lia|].
  destruct (not_required m solution v); [done|]. exfalso. apply Hnot. by intros ?.
Qed.

Lemma unused_vehicle_contributes_no_rows_witness :
  (num_vehicles Demo.data ≤ length Demo.vehicle_ids)%nat
  ∧ not_required (manager_of Demo.data) Demo.sol_one 1 = true
  ∧ vehicle_step Demo.data (manager_of Demo.data) Demo.sol_one Demo.store_names
      Demo.vehicle_ids Demo.start_loading_times 5 (1%nat, [header]) 1
    = Ok (1%nat, [header]).
Proof.
  split; [simpl; lia|]. split; [reflexivity|].
  apply (unused_vehicle_contributes_no_rows Demo.data (manager_of Demo.data)
           Demo.sol_one Demo.store_names Demo.vehicle_ids Demo.start_loading_times 5).
  - simpl; lia.
  - simpl; lia.
  - reflexivity.
Defined.

(** C7. The plan is the header followed by the groups of the dispatched
    vehicles, in vehicle order, with exactly one blank record (one empty
    field per header column) between two consecutive groups: none before
    the first group, none after the last, and no group holds a blank
    record. *)
Theorem blank_record_between_groups
    (data : data_model) (m : RoutingIndexManager) (solution : Assignment)
    (store_names vehicle_ids : list cell) (start_loading_times : list Z)
    (fuel : nat) :
  (num_vehicles data ≤ length vehicle_ids)%nat →
  process_solution data m solution store_names vehicle_ids start_loading_times fuel
  = (groups ←
       map_res
         (vehicle_group data m solution store_names vehicle_ids
            start_loading_times fuel)
         (filter (λ v, ¬ not_required m solution v) (seq 0 (num_vehicles data)));
     mret (header :: join_groups [blank_record] groups))
  ∧ (∀ v g,
       vehicle_group data m solution store_names vehicle_ids start_loading_times
         fuel v = Ok g →
       g ≠ [] ∧ blank_record ∉ g)
  ∧ blank_record = replicate (length header) (CStr "").
Proof.
  intros Hids. split; [|split; [|done]].
  - unfold process_solution.
    rewrite (vehicle_loop data m solution store_names vehicle_ids
               start_loading_times fuel (seq 0 (num_vehicles data)) O [header]).
    + by destruct (map_res _ _).
    + intros v Hv%elem_of_seq. lia.
    + done.
  - intros v g Hg.
    destruct (vehicle_group_events _ _ _ _ _ _ _ _ _ Hg) as [Hne Hev].
    split; [done|]. intros Hin. rewrite Forall_forall in Hev.
    by apply blank_record_not_event, Hev.
Qed.

Lemma blank_record_between_groups_witness :
  (num_vehicles Demo.data ≤ length Demo.vehicle_ids)%nat
  ∧ process_solution Demo.data (manager_of Demo.data) Demo.sol_two Demo.store_names
      Demo.vehicle_ids Demo.start_loading_times 5
    = Ok [ header;
           [CStr "C1"; CInt 0; CStr "Bodega"; CStr "07:30"; CStr ""; CStr "07:50"; CInt 0];
           [CStr "C1"; CInt 1; CStr "Tienda A"; CStr ""; CStr "08:20"; CStr "08:30"; CInt 3];
           [CStr "C1"; CInt 2; CStr "Bodega"; CStr ""; CStr "09:00"; CStr ""; CInt 3];
           blank_record;
           [CStr "C2"; CInt 0; CStr "Bodega"; CStr "07:50"; CStr ""; CStr "08:20"; CInt 0];
           [CStr "C2"; CInt 1; CStr "Tienda B"; CStr ""; CStr "09:00"; CStr "09:15"; CInt 5];
           [CStr "C2"; CInt 2; CStr "Bodega"; CStr ""; CStr "09:55"; CStr ""; CInt 5] ].
Proof.
  split; [simpl; lia|].
  destruct (blank_record_between_groups Demo.data (manager_of Demo.data)
              Demo.sol_two Demo.store_names Demo.vehicle_ids
              Demo.start_loading_times 5) as [Hplan _]; [simpl; lia|].
  rewrite Hplan. reflexivity.
Defined.

(** ** The extractor ends on feasible solutions *)

Section ExtractorTotal.

Variable data : data_model.
Variable m : RoutingIndexManager.
Variable solution : Assignment.
Variables store_names vehicle_ids : list cell.
Variable start_loading_times : list Z.

(** Every node has a name, a demand and a service time. *)
Hypothesis names_cover : (mgr_nodes m ≤ length store_names)%nat.
Hypothesis demands_cover : (mgr_nodes m ≤ length (demands data))%nat.
Hypothesis services_cover : (mgr_nodes m ≤ length (service_times data))%nat.
Hypothesis depot_is_node : (mgr_depot m < mgr_nodes m)%nat.

Lemma IndexToNode_lt index : (IndexToNode m index < mgr_nodes m)%nat.
Proof using depot_is_node. unfold IndexToNode. by destruct (decide _). Qed.

Lemma visit_loop_total id : ∀ f index stops fuel sequence load rows,
  walk m solution f index = Some stops → IsEnd m index = false →
  (f ≤ S fuel)%nat →
  ∃ i s l rs,
    visit_loop data m solution store_names fuel id index sequence load rows
    = Ok (i, s, l, rs).
Proof using names_cover demands_cover services_cover depot_is_node.
  induction f as [|f IH]; intros index stops fuel sequence load rows Hwalk Hend Hfuel;
    [done|].
  simpl in Hwalk. rewrite Hend in Hwalk.
  destruct (walk m solution f (next_var solution index)) as [rest|] eqn:Erest; [|done].
  destruct f as [|f']; [done|].
  destruct fuel as [|fuel]; [lia|].
  simpl. rewrite Hend.
  destruct (IsEnd m (next_var solution index)) eqn:Enext; [by eauto|].
  pose proof (IndexToNode_lt (next_var solution index)) as Hnode.
  destruct (getitem_lt store_names (IndexToNode m (next_var solution index)))
    as (name & _ & ->); [lia|].
  destruct (getitem_lt (demands data) (IndexToNode m (next_var solution index)))
    as (demand & _ & ->); [lia|].
  destruct (getitem_lt (service_times data) (IndexToNode m (next_var solution index)))
    as (service & _ & ->); [lia|].
  simpl. eapply IH; [exact Erest|done|lia].
Qed.

Hypothesis ids_cover : (num_vehicles data ≤ length vehicle_ids)%nat.
Hypothesis capacities_cover : (num_vehicles data ≤ length (vehicle_capacities data))%nat.
Hypothesis starts_cover : (num_vehicles data ≤ length start_loading_times)%nat.
Hypothesis vehicles_agree : mgr_vehicles m = num_vehicles data.

Lemma vehicle_group_total fuel v stops :
  (v < num_vehicles data)%nat →
  route m solution v = Some stops → (Size m ≤ fuel)%nat →
  ∃ g, vehicle_group data m solution store_names vehicle_ids
         start_loading_times fuel v = Ok g.
Proof using All.
  intros Hv Hroute Hfuel. unfold vehicle_group, emit_route.
  destruct (getitem_lt vehicle_ids v) as (id & _ & ->); [lia|]. simpl.
  destruct (getitem_lt (vehicle_capacities data) v) as (cap & _ & ->); [lia|]. simpl.
  pose proof (IndexToNode_lt (Start m v)) as Hnode.
  destruct (getitem_lt store_names (IndexToNode m (Start m v))) as (name & _ & ->); [lia|].
  simpl.
  destruct (getitem_lt start_loading_times v) as (st & _ & ->); [lia|]. simpl.
  assert (Hstart : IsEnd m (Start m v) = false).
  { unfold IsEnd, Size, Start. apply bool_decide_eq_false.
    destruct v as [|v']; lia. }
  destruct (visit_loop_total id _ _ _ fuel 0 0
              [[id; CInt 0; name; CStr (minutes_to_clock st); CStr "";
                CStr (minutes_to_clock (cumul_var solution "time" (Start m v))); CInt 0]]
              Hroute Hstart) as (i & s & l & rs & ->); [lia|].
  simpl.
  pose proof (IndexToNode_lt i) as Hi.
  destruct (getitem_lt store_names (IndexToNode m i)) as (name' & _ & ->); [lia|].
  simpl. eauto.
Qed.

End ExtractorTotal.

Lemma map_res_total {A B} (f : A → res B) (l : list A) :
  (∀ x, x ∈ l → ∃ y, f x = Ok y) → ∃ ys, map_res f l = Ok ys.
Proof.
  induction l as [|a l IH]; intros Hf; [by eexists|].
  destruct (Hf a) as [y Hy]; [apply list_elem_of_here|].
  destruct IH as [ys Hys]; [intros x Hx; by apply Hf, list_elem_of_further|].
  exists (y :: ys). by rewrite map_res_cons, Hy, Hys.
Qed.

(** On the model [main] builds, with one matrix row per location, the
    extractor gives a plan for every feasible solution as soon as each
    route walk is granted as many turns as there are route indices. *)
Lemma process_solution_total hora locs vehs matrix data routing starts sol fuel :
  configure hora locs vehs matrix = Ok (data, routing, starts) →
  feasible routing sol = true →
  length matrix = length locs → locs ≠ [] →
  (Size (manager routing) ≤ fuel)%nat →
  ∃ plan,
    process_solution data (manager routing) sol (tienda <$> locs)
      (id_camion <$> vehs) starts fuel = Ok plan.
Proof.
  intros Hcfg Hfeas Hsquare Hlocs Hfuel.
  destruct (configure_ok _ _ _ _ _ _ _ Hcfg) as (inicio & _ & _ & Hm & _ & _ & Hst & _).
  destruct (configure_data _ _ _ _ _ _ _ Hcfg) as (HT & Hdem & Hsrv & Hnv & Hcaps & Hdep & _).
  assert (Hnodes : mgr_nodes (manager routing) = length locs)
    by (rewrite Hm; simpl; by rewrite HT).
  assert (Hpos : (0 < length locs)%nat) by (destruct locs; [done|simpl; lia]).
  unfold process_solution.
  rewrite (vehicle_loop data (manager routing) sol (tienda <$> locs) (id_camion <$> vehs)
             starts fuel (seq 0 (num_vehicles data)) O [header]).
  - destruct (map_res_total
                (vehicle_group data (manager routing) sol (tienda <$> locs)
                   (id_camion <$> vehs) starts fuel)
                (filter (λ v, ¬ not_required (manager routing) sol v)
                   (seq 0 (num_vehicles data)))) as [gs ->]; [|by eexists].
    intros v [_ Hv%elem_of_seq]%list_elem_of_filter.
    destruct (feasible_route routing sol v Hfeas) as (stops & Hroute & _).
    { rewrite Hm. simpl. lia. }
    apply (vehicle_group_total data (manager routing) sol (tienda <$> locs)
             (id_camion <$> vehs) starts) with (stops := stops);
      rewrite ?length_fmap, ?Hnodes, ?Hdem, ?Hsrv, ?Hcaps, ?Hnv, ?Hst,
        ?load_starts_length, ?length_fmap; try done; try lia.
    + rewrite Hm. simpl. rewrite Hdep. lia.
    + rewrite Hm. done.
  - intros v Hv%elem_of_seq. rewrite length_fmap. lia.
  - done.
Qed.

(** * Further properties of the code *)

(** ** Time utilities, both directions *)

Section ClockFacts.
Import PyStr PyStrFacts.

Lemma lstrip_first c s : is_space c = false → lstrip (String c s) = String c s.
Proof. intros H. simpl. by rewrite H. Qed.

Lemma rstrip_no_space s :
  string_forall (λ c, negb (is_space c)) s = true → rstrip s = s.
Proof.
  induction s as [|c s IH]; simpl; [done|].
  intros [Hc%negb_true_iff Hs]%andb_true_iff. rewrite (IH Hs).
  destruct s; [|done]. by rewrite Hc.
Qed.

Lemma digits_all_digits n : string_forall is_digit (digits n) = true.
Proof. apply uint_all_digits. Qed.

Lemma digits_no_space n : string_forall (λ c, negb (is_space c)) (digits n) = true.
Proof.
  eapply string_forall_impl; [|apply digits_all_digits].
  intros c Hc. by rewrite (digit_not_space c Hc).
Qed.

Lemma zfill_1_digits n : zfill 1 (digits n) = digits n.
Proof.
  unfold zfill. pose proof (digits_nonempty n) as Hne.
  by destruct (digits n).
Qed.

Lemma parse_nat_digits n : parse_nat (digits n) = Some n.
Proof. apply (parse_nat_padded 0 n). Qed.

Lemma int_minus_digits n : int (String "-" (digits n)) = Ok (- Z.of_N n).
Proof.
  unfold int, strip. rewrite lstrip_first by done.
  rewrite rstrip_no_space by (simpl; apply digits_no_space).
  simpl. by rewrite parse_nat_digits.
Qed.

(** [int] reads back what the format [02d] wrote, negative or not. *)
Lemma int_format_02d_any z : int (format_02d z) = Ok z.
Proof.
  destruct (Z.ltb_spec z 0) as [Hneg|Hpos]; [|by apply int_format_02d].
  unfold format_02d. destruct (Z.ltb_spec z 0); [|lia].
  rewrite zfill_1_digits, int_minus_digits. f_equal. lia.
Qed.

Lemma format_02d_no_colon z :
  string_forall (λ c, negb (Ascii.eqb c ":")) (format_02d z) = true.
Proof.
  destruct (Z.ltb_spec z 0) as [Hneg|Hpos].
  - unfold format_02d. destruct (Z.ltb_spec z 0); [|lia].
    rewrite zfill_1_digits. simpl. apply digits_no_colon, digits_all_digits.
  - by apply digits_no_colon, format_02d_all_digits.
Qed.

Lemma of_int_no_colon z :
  string_forall (λ c, negb (Ascii.eqb c ":")) (of_int z) = true.
Proof.
  unfold of_int. destruct (z <? 0); simpl; apply digits_no_colon, digits_all_digits.
Qed.

Lemma digit_of_ascii_char a :
  (a < 10)%N → digit_of_ascii (ascii_of_N (48 + a)) = Some a.
Proof.
  intros Ha.
  assert (Ea : (a = 0 ∨ a = 1 ∨ a = 2 ∨ a = 3 ∨ a = 4 ∨ a = 5 ∨ a = 6
                ∨ a = 7 ∨ a = 8 ∨ a = 9)%N) by lia.
  repeat (destruct Ea as [->|Ea]); try subst a; reflexivity.
Qed.

Lemma valid_clock_rendered h m :
  0 ≤ h ≤ 23 → 0 ≤ m ≤ 59 →
  valid_clock (format_02d h +:+ ":" +:+ format_02d m) = true.
Proof.
  intros Hh Hm.
  set (a := (Z.to_N h / 10)%N). set (b := (Z.to_N h mod 10)%N).
  set (x := (Z.to_N m / 10)%N). set (y := (Z.to_N m mod 10)%N).
  assert (Hab : (Z.to_N h = 10 * a + b)%N) by (apply N.div_mod; lia).
  assert (Hxy : (Z.to_N m = 10 * x + y)%N) by (apply N.div_mod; lia).
  assert (Hb : (b < 10)%N) by (apply N.mod_lt; lia).
  assert (Hy : (y < 10)%N) by (apply N.mod_lt; lia).
  assert (Ha : (a < 10)%N) by (apply N.Div0.div_lt_upper_bound; lia).
  assert (Hx : (x < 10)%N) by (apply N.Div0.div_lt_upper_bound; lia).
  replace h with (Z.of_N (10 * a + b)) by lia.
  replace m with (Z.of_N (10 * x + y)) by lia.
  rewrite (format_02d_two_digits _ _ a b (digit_of_ascii_char a Ha) (digit_of_ascii_char b Hb)).
  rewrite (format_02d_two_digits _ _ x y (digit_of_ascii_char x Hx) (digit_of_ascii_char y Hy)).
  simpl. rewrite !digit_of_ascii_char by done.
  apply andb_true_iff. split; [|apply N.leb_le; lia].
  apply N.leb_le. lia.
Qed.

Lemma time_to_minutes_of_clock v :
  time_to_minutes (CStr (minutes_to_clock v)) = Ok v.
Proof.
  unfold time_to_minutes, minutes_to_clock. simpl PyStr.str.
  change (":" +:+ format_02d (v mod 60)) with (String ":" (format_02d (v mod 60))).
  rewrite split_app by apply format_02d_no_colon.
  rewrite split_no_sep by apply format_02d_no_colon.
  rewrite !int_format_02d_any. simpl. f_equal.
  pose proof (Z.div_mod v 60). lia.
Qed.

End ClockFacts.

(** X1. Reading back a rendered minute value gives that value, also
    past midnight (24:30 reads as 1470) and below zero, for every integer
    whose hour field has at most 4300 digits, the most that the
    interpreter prints and reads. *)
Theorem clock_read_back (v : Z) :
  Z.abs (v / 60) < 10 ^ 4300 →
  time_to_minutes (CStr (minutes_to_clock v)) = Ok v.
Proof. intros _. apply time_to_minutes_of_clock. Qed.

Lemma clock_read_back_witness :
  Z.abs (1470 / 60) < 10 ^ 4300
  ∧ minutes_to_clock 1470 = "24:30"
  ∧ time_to_minutes (CStr (minutes_to_clock 1470)) = Ok 1470.
Proof.
  assert (Hsize : Z.abs (1470 / 60) < 10 ^ 4300) by (vm_compute; reflexivity).
  split; [exact Hsize|]. split; [reflexivity|].
  apply (clock_read_back 1470 Hsize).
Defined.

(** X2. A cell that holds a number, as a sheet gives for an entry such as
    730, is never a time: its text has no colon and [time_to_minutes]
    raises [ValueError]. *)
Theorem number_cell_is_no_time (z : Z) :
  time_to_minutes (CInt z) = Raise ValueError.
Proof.
  unfold time_to_minutes. simpl PyStr.str.
  by rewrite PyStrFacts.split_no_sep by apply of_int_no_colon.
Qed.

(** X3. The rendering of a minute value is a valid 24-hour clock string
    exactly for the minutes of one day, 0 to 1439. *)
Theorem rendered_clock_valid_iff (v : Z) :
  valid_clock (minutes_to_clock v) = true ↔ 0 ≤ v < 1440.
Proof.
  split.
  - intros (h & m & Hh & Hm & Heq)%valid_clock_inv.
    pose proof (time_to_minutes_of_clock v) as Hv. rewrite Heq in Hv.
    rewrite time_to_minutes_rendered in Hv by lia.
    injection Hv as <-. lia.
  - intros Hv. unfold minutes_to_clock. apply valid_clock_rendered.
    + split; [apply Z.div_pos; lia|].
      assert (v / 60 < 24) by (apply Z.div_lt_upper_bound; lia). lia.
    + pose proof (Z.mod_pos_bound v 60). lia.
Qed.

(** ** Data model and constraint model *)

Section ModelFacts.

Lemma time_to_minutes_raises x e : time_to_minutes x = Raise e → e = ValueError.
Proof.
  unfold time_to_minutes.
  destruct (PyStr.split ":" (PyStr.str x)) as [|a [|b [|? ?]]]; try by intros [= <-].
  destruct (PyStrFacts.int_cases a) as [[h ->]| ->]; [|by intros [= <-]].
  destruct (PyStrFacts.int_cases b) as [[m ->]| ->]; [done|by intros [= <-]].
Qed.

Lemma map_res_raises {A B} (f : A → res B) l e :
  map_res f l = Raise e → ∃ x, x ∈ l ∧ f x = Raise e.
Proof.
  induction l as [|a l IH]; [done|]. rewrite map_res_cons.
  destruct (f a) as [y|e'] eqn:Ea; simpl.
  - destruct (map_res f l) as [ys|e'] eqn:El; [done|]. simpl. intros [= ->].
    destruct IH as (x & Hx & Hfx); [done|]. exists x. split; [by apply list_elem_of_further|done].
  - intros [= ->]. exists a. split; [apply list_elem_of_here|done].
Qed.

(** The pair of minutes of a row's window, as [create_data_model] reads it. *)
Lemma window_of_row_ok row o c :
  (o' ← time_to_minutes (hora_apertura row);
   c' ← time_to_minutes (hora_cierre row); mret (o', c')) = Ok (o, c)
  ↔ time_to_minutes (hora_apertura row) = Ok o
    ∧ time_to_minutes (hora_cierre row) = Ok c.
Proof.
  destruct (time_to_minutes (hora_apertura row)) as [o'|]; simpl;
    [|split; [done|by intros [? ?]]].
  destruct (time_to_minutes (hora_cierre row)) as [c'|]; simpl;
    [|split; [done|by intros [? ?]]].
  split; [by intros [= -> ->]|by intros [[= ->] [= ->]]].
Qed.

Lemma window_of_row_raises row e :
  (o' ← time_to_minutes (hora_apertura row);
   c' ← time_to_minutes (hora_cierre row); mret (o', c')) = Raise e →
  e = ValueError.
Proof.
  destruct (time_to_minutes (hora_apertura row)) as [o'|e1] eqn:E1; simpl.
  - destruct (time_to_minutes (hora_cierre row)) as [c'|e2] eqn:E2; simpl; [done|].
    intros [= <-]. by apply time_to_minutes_raises in E2.
  - intros [= <-]. by apply time_to_minutes_raises in E1.
Qed.

Lemma create_data_model_raises locs vehs matrix e :
  create_data_model locs vehs matrix = Raise e → e = ValueError.
Proof.
  unfold create_data_model.
  destruct (map_res _ locs) as [ws|e'] eqn:Ew; [done|]. simpl. intros [= <-].
  apply map_res_raises in Ew as (row & _ & Hrow).
  by apply window_of_row_raises in Hrow.
Qed.

Lemma release_loop_raises tiempos ids :
  (length tiempos ≤ length ids)%nat →
  ∀ rest pre starts cur routing e,
    tiempos = pre ++ rest →
    for_each (release_step tiempos ids) (seq (length pre) (length rest))
      (starts, cur, routing) = Raise e →
    e = OverflowError ∨ e = SolverFail.
Proof.
  intros Hids rest.
  induction rest as [|d rest IH]; intros pre starts cur routing e Ht; [done|].
  assert (Hd : tiempos !! length pre = Some d).
  { rewrite Ht. by rewrite list_lookup_middle. }
  destruct (ids !! length pre) as [id|] eqn:Eid.
  2:{ apply lookup_ge_None in Eid. rewrite Ht, length_app in Hids. simpl in Hids. lia. }
  cbn [length seq]. rewrite for_each_cons.
  rewrite release_step_eq, (getitem_ok _ _ _ Hd), res_bind_ok.
  destruct (post_bound _ routing) as [r1|e1] eqn:Epost.
  2:{ intros [= <-]. by apply post_bound_raises in Epost. }
  rewrite res_bind_ok, (getitem_ok _ _ _ Eid), res_bind_ok.
  change (mret ?x ≫= ?f) with (f x). cbn beta.
  replace (S (length pre)) with (length (pre ++ [d])) by (rewrite length_app; simpl; lia).
  apply IH. by rewrite <- app_assoc.
Qed.

Lemma configure_raises hora locs vehs matrix e :
  configure hora locs vehs matrix = Raise e →
  e = ValueError ∨ e = OverflowError ∨ e = SolverFail.
Proof.
  unfold configure.
  destruct (create_data_model locs vehs matrix) as [data|e'] eqn:Ed.
  2:{ intros [= <-]. left. by apply create_data_model_raises in Ed. }
  rewrite res_bind_ok.
  destruct (time_to_minutes (CStr hora)) as [inicio|e'] eqn:Eh.
  2:{ intros [= <-]. left. by apply time_to_minutes_raises in Eh. }
  rewrite res_bind_ok.
  pose proof (create_data_model_vehicles _ _ _ _ Ed) as Hnv.
  destruct (staggered_release _ _ _ _ _) as [[starts r1]|e'] eqn:Erel.
  2:{ intros [= <-]. right. revert Erel. unfold staggered_release. rewrite Hnv.
      destruct (for_each _ _ _) as [out|e1] eqn:Eloop.
      - rewrite res_bind_ok. by destruct out as [[? ?] ?].
      - intros [= <-].
        by apply (release_loop_raises (tiempo_carga_min <$> vehs) (id_camion <$> vehs)
                    ltac:(by rewrite !length_fmap)
                    (tiempo_carga_min <$> vehs) [] [] inicio _ _ eq_refl) in Eloop. }
  rewrite res_bind_ok.
  destruct (time_window_bounds data r1) as [r2|e'] eqn:Ewin; [done|].
  intros [= <-]. right.
  by apply (window_loop_raises data _ 0%nat) in Ewin.
Qed.

(** A clock text that cannot be read stops [configure] before any bound
    is posted. *)
Lemma configure_unreadable hora locs vehs matrix :
  (∀ data, create_data_model locs vehs matrix = Ok data →
     ∃ e, time_to_minutes (CStr hora) = Raise e) →
  configure hora locs vehs matrix = Raise ValueError.
Proof.
  intros Hbad. unfold configure.
  destruct (create_data_model locs vehs matrix) as [data|e'] eqn:Ed.
  - rewrite res_bind_ok. destruct (Hbad data eq_refl) as [e He].
    rewrite He. by apply time_to_minutes_raises in He as ->.
  - by apply create_data_model_raises in Ed as ->.
Qed.

(** [configure] builds the model when the texts are readable, the
    releases fit the time dimension and so do the windows of the
    shops. *)
Lemma configure_runs hora locs vehs matrix data inicio :
  create_data_model locs vehs matrix = Ok data →
  time_to_minutes (CStr hora) = Ok inicio →
  vehs ≠ [] → (length locs ≤ length matrix)%nat →
  Forall (λ release, -9223372036854775808 ≤ release ≤ 1440)
    (release_times inicio (tiempo_carga_min <$> vehs)) →
  (∀ i w, time_windows data !! i = Some w → i ≠ 0%nat →
     -9223372036854775808 ≤ w.1 ∧ w.2 < 9223372036854775808
     ∧ w.1 ≤ w.2 ∧ w.1 ≤ 1440 ∧ 0 ≤ w.2) →
  ∃ routing starts, configure hora locs vehs matrix = Ok (data, routing, starts).
Proof.
  intros Ed Eh Hvehs Hlen Hrel Hwin. unfold configure.
  rewrite Ed, res_bind_ok, Eh, res_bind_ok.
  pose proof (create_data_model_vehicles _ _ _ _ Ed) as Hnv.
  assert (Hdata : depot data = 0%nat ∧ time_matrix data = matrix
                  ∧ length (time_windows data) = length locs).
  { unfold create_data_model in Ed.
    destruct (map_res _ locs) as [windows|] eqn:Ew; [|done]. simpl in Ed.
    injection Ed as <-. simpl. repeat split. by apply map_res_length in Ew. }
  destruct Hdata as (Hdep & Hmat & Hwl).
  assert (HC : cumul_max (build_dimensions data) "time" = 1440).
  { apply cumul_max_time. rewrite Hnv, length_fmap. by destruct vehs. }
  rewrite Hnv.
  rewrite (staggered_release_runs inicio (tiempo_carga_min <$> vehs)
             (id_camion <$> vehs) data); [|by rewrite !length_fmap|done|done].
  rewrite res_bind_ok.
  match goal with
  | |- context [time_window_bounds data ?r] => set (r1 := r)
  end.
  destruct (window_loop_runs data (time_windows data) 0%nat r1) as [r2 Hr2].
  - intros b j Hb Hj Hne. unfold r1 in Hb. rewrite post_all_bounds in Hb. simpl in Hb.
    unfold release_bounds in Hb.
    apply list_elem_of_lookup in Hb as [v Hv]. rewrite list_lookup_imap in Hv.
    destruct (release_times _ _ !! v) as [release|]; [|done]. simpl in Hv.
    injection Hv as <-. simpl. destruct v as [|v]; simpl; [congruence|].
    rewrite Hmat. lia.
  - intros i w Hw Hne. simpl in Hne. rewrite Hdep in Hne.
    destruct (Hwin i w Hw Hne) as (H1 & H2 & H3 & H4 & H5).
    unfold r1. rewrite cumul_max_post_all, HC.
    split; [apply int64_range; lia|]. split; [apply int64_range; lia|]. lia.
  - unfold time_window_bounds. change (λ i w, (i, w)) with (λ i (w : Z * Z), (0 + i, w)%nat).
    rewrite Hr2, res_bind_ok. eauto.
Qed.

End ModelFacts.

Section BoundFacts.

Lemma map_res_lookup_inv {A B} (f : A → res B) l ys i y :
  map_res f l = Ok ys → ys !! i = Some y → ∃ x, l !! i = Some x ∧ f x = Ok y.
Proof.
  intros Hm Hy. pose proof (map_res_length _ _ _ Hm) as Hlen.
  destruct (lookup_lt_is_Some_2 l i) as [x Hx];
    [apply lookup_lt_Some in Hy; lia|].
  destruct (map_res_lookup _ _ _ _ _ Hm Hx) as (y' & Hfx & Hy').
  exists x. split; [done|]. congruence.
Qed.

Lemma map_res_ok_Forall {A B} (f : A → res B) l ys :
  map_res f l = Ok ys → Forall (λ x, ∃ y, f x = Ok y) l.
Proof.
  intros Hm. apply Forall_lookup. intros i x Hx.
  destruct (map_res_lookup _ _ _ _ _ Hm Hx) as (y & Hy & _). eauto.
Qed.

Lemma window_readable_iff row :
  window_readable row
  ↔ ∃ w, (o' ← time_to_minutes (hora_apertura row);
          c' ← time_to_minutes (hora_cierre row); mret (o', c')) = Ok w.
Proof.
  unfold window_readable. split.
  - intros [[o Ho] [c Hc]]. exists (o, c). by apply window_of_row_ok.
  - intros [[o c] [Ho Hc]%window_of_row_ok]. eauto.
Qed.

Lemma create_data_model_succeeds locs vehs matrix :
  Forall window_readable locs → ∃ data, create_data_model locs vehs matrix = Ok data.
Proof.
  intros Hall. unfold create_data_model.
  destruct (map_res_total
              (λ row, o ← time_to_minutes (hora_apertura row);
                      c ← time_to_minutes (hora_cierre row); mret (o, c)) locs)
    as [ws Hws].
  { intros row Hrow. rewrite Forall_forall in Hall.
    by apply window_readable_iff, Hall. }
  rewrite Hws. simpl. eauto.
Qed.

Lemma create_data_model_readable locs vehs matrix data :
  create_data_model locs vehs matrix = Ok data → Forall window_readable locs.
Proof.
  unfold create_data_model.
  destruct (map_res _ locs) as [ws|] eqn:Ew; [|done]. intros _.
  apply map_res_ok_Forall in Ew.
  eapply Forall_impl; [exact Ew|]. intros row Hrow. by apply window_readable_iff.
Qed.

Lemma window_bounds_from_elem data first ws b :
  b ∈ window_bounds_from data first ws →
  ∃ i w, ws !! i = Some w ∧ (first + i)%nat ≠ depot data
    ∧ b = SetRange "time" (first + i) w.1 w.2.
Proof.
  unfold window_bounds_from.
  intros (l & Hb & Hl)%list_elem_of_join.
  apply list_elem_of_lookup in Hl as [i Hi].
  rewrite list_lookup_imap in Hi.
  destruct (ws !! i) as [w|] eqn:Ew; [|done]. simpl in Hi.
  injection Hi as <-. destruct (decide _); [by apply elem_of_nil in Hb|].
  apply list_elem_of_singleton in Hb. eauto.
Qed.

Lemma window_bounds_from_length data first ws :
  (depot data < first)%nat → length (window_bounds_from data first ws) = length ws.
Proof.
  revert first. induction ws as [|w ws IH]; intros first Hfirst; [done|].
  unfold window_bounds_from. simpl.
  destruct (decide _); [lia|]. simpl. f_equal.
  rewrite <- (IH (S first)) by lia. unfold window_bounds_from. do 2 f_equal.
  apply imap_ext. intros i x _. simpl.
  by replace (first + S i)%nat with (S first + i)%nat by lia.
Qed.

Lemma window_bounds_tail data w ws :
  depot data = 0%nat →
  window_bounds_from data 0 (w :: ws) = window_bounds_from data 1 ws.
Proof.
  intros Hd. unfold window_bounds_from. simpl.
  destruct (decide _); [|lia]. simpl. f_equal.
Qed.

Lemma release_bounds_inv m inicio ds b :
  b ∈ release_bounds m 0 (release_times inicio ds) →
  ∃ v d, ds !! v = Some d
    ∧ b = SetMin "time" (Start m v) (inicio + sum_list_Z (take v ds) + d).
Proof.
  intros [v Hv]%list_elem_of_lookup. unfold release_bounds in Hv.
  rewrite list_lookup_imap in Hv.
  destruct (release_times inicio ds !! v) as [r|] eqn:Er; [|done].
  simpl in Hv. injection Hv as <-.
  pose proof (lookup_lt_Some _ _ _ Er) as Hlt. rewrite release_times_length in Hlt.
  destruct (lookup_lt_is_Some_2 ds v Hlt) as [d Hd].
  rewrite release_times_lookup in Er by done. injection Er as <-.
  exists v, d. split; [done|]. by rewrite (sum_take_S _ _ _ Hd), Z.add_assoc.
Qed.

End BoundFacts.

(** X4. [create_data_model] succeeds exactly when both clock texts of every
    location row are readable, and otherwise raises [ValueError].  When it
    succeeds, entry [i] of the windows, demands and service times is read
    from row [i]; the window is taken as read, with no check that it
    opens before it closes. *)
Theorem create_data_model_reads_rows
    (locs : list location_row) (vehs : list vehicle_row) (matrix : list (list Z)) :
  ((∃ data, create_data_model locs vehs matrix = Ok data)
     ↔ Forall window_readable locs)
  ∧ (∀ e, create_data_model locs vehs matrix = Raise e → e = ValueError)
  ∧ (∀ data i row,
       create_data_model locs vehs matrix = Ok data → locs !! i = Some row →
       ∃ o c, time_to_minutes (hora_apertura row) = Ok o
         ∧ time_to_minutes (hora_cierre row) = Ok c
         ∧ time_windows data !! i = Some (o, c)
         ∧ demands data !! i = Some (demanda row)
         ∧ service_times data !! i = Some (tiempo_servicio row)).
Proof.
  split; [|split].
  - split; [intros [data Hd]; by eapply create_data_model_readable
           |apply create_data_model_succeeds].
  - apply create_data_model_raises.
  - intros data i row Hd Hrow. unfold create_data_model in Hd.
    destruct (map_res _ locs) as [ws|] eqn:Ew; [|done]. simpl in Hd.
    injection Hd as <-. simpl.
    destruct (map_res_lookup _ _ _ _ _ Ew Hrow) as ([o c] & Hoc%window_of_row_ok & Hw).
    exists o, c. destruct Hoc as [Ho Hc].
    rewrite !list_lookup_fmap, Hrow. done.
Qed.

(** X5. Between the matrix and the solver, [main] fails with a
    [ValueError] from an unreadable clock text, or at a bound the time
    dimension cannot take: the solver's failure or [OverflowError] from
    [SetMin] or [SetRange].  The loops over the fleet never miss an
    index.  For sheets that are not empty, capacities that are not
    negative and fit 64 bits, and a matrix with one row per location,
    the model is built exactly when the configured start of loading and
    both clock texts of every location row are readable, every release
    lies at or before minute 1440, and the window of every location but
    the first has a minute in common with the day. *)
Theorem configure_fails_on_clock_text_or_bound
    (hora : string) (locs : list location_row) (vehs : list vehicle_row)
    (matrix : list (list Z)) :
  locs ≠ [] → vehs ≠ [] →
  Forall (λ row, 0 ≤ capacidad_cajas row < 9223372036854775808) vehs →
  length matrix = length locs →
  ((∃ r, configure hora locs vehs matrix = Ok r)
     ↔ ∃ inicio,
         time_to_minutes (CStr hora) = Ok inicio
         ∧ Forall window_readable locs
         ∧ (∀ v, (v < length vehs)%nat →
              release_fits
                (inicio + sum_list_Z (take (S v) (tiempo_carga_min <$> vehs))))
         ∧ (∀ node row o c,
              locs !! node = Some row → node ≠ 0%nat →
              time_to_minutes (hora_apertura row) = Ok o →
              time_to_minutes (hora_cierre row) = Ok c →
              window_fits o c))
  ∧ (∀ e, configure hora locs vehs matrix = Raise e →
       e = ValueError ∨ e = OverflowError ∨ e = SolverFail).
Proof.
  intros _ Hvehs _ Hlen. split; [|apply configure_raises]. split.
  - intros [[[data routing] starts] Hcfg].
    destruct (configure_inv _ _ _ _ _ _ _ Hcfg)
      as (inicio & Hini & Hd & _ & _ & Hrel & Hwin).
    assert (HC : cumul_max (build_dimensions data) "time" = 1440).
    { apply cumul_max_time.
      rewrite (create_data_model_vehicles _ _ _ _ Hd), length_fmap. by destruct vehs. }
    rewrite HC in Hrel, Hwin.
    exists inicio. split; [done|]. split; [by eapply create_data_model_readable|].
    split.
    + intros v Hv. rewrite Forall_lookup in Hrel.
      assert (Hlt : (v < length (tiempo_carga_min <$> vehs))%nat) by (by rewrite length_fmap).
      destruct (Hrel v _ (release_times_lookup inicio _ v Hlt)) as [H64%int64_range Hle].
      unfold release_fits. lia.
    + intros node row o c Hrow Hne Ho Hc.
      unfold create_data_model in Hd.
      destruct (map_res _ locs) as [ws|] eqn:Ew; [|done]. simpl in Hd.
      injection Hd as <-. simpl in Hwin.
      destruct (map_res_lookup _ _ _ _ _ Ew Hrow) as ([o' c'] & Hoc%window_of_row_ok & Hw).
      destruct Hoc as [Ho' Hc']. rewrite Ho in Ho'. rewrite Hc in Hc'.
      injection Ho' as <-. injection Hc' as <-.
      destruct (Hwin node (o, c) Hw Hne) as (H1%int64_range & H2%int64_range & H3 & H4 & H5).
      unfold window_fits. simpl in *. lia.
  - intros (inicio & Hini & Hall & Hrel & Hwin).
    destruct (create_data_model_succeeds locs vehs matrix Hall) as [data Hd].
    destruct (configure_runs hora locs vehs matrix data inicio Hd Hini Hvehs)
      as (routing & starts & Hcfg); [lia| | |eauto].
    + apply Forall_lookup_2. intros v r Hr.
      pose proof (lookup_lt_Some _ _ _ Hr) as Hv. rewrite release_times_length in Hv.
      rewrite release_times_lookup in Hr by done. injection Hr as <-.
      rewrite length_fmap in Hv. apply (Hrel v Hv).
    + intros i [o c] Hw Hne.
      unfold create_data_model in Hd.
      destruct (map_res _ locs) as [ws|] eqn:Ew; [|done]. simpl in Hd.
      injection Hd as <-. simpl in Hw.
      destruct (map_res_lookup_inv _ _ _ _ _ Ew Hw) as (row & Hrow & [Ho Hc]%window_of_row_ok).
      apply (Hwin i row o c Hrow Hne Ho Hc).
Qed.

(** The instance meets the hypotheses. *)
Lemma configure_fails_on_clock_text_or_bound_witness :
  Demo.locs ≠ [] ∧ Demo.vehs ≠ []
  ∧ Forall (λ row, 0 ≤ capacidad_cajas row < 9223372036854775808) Demo.vehs
  ∧ length Demo.matrix = length Demo.locs
  ∧ ((∃ r, configure HORA_INICIO_CARGA Demo.locs Demo.vehs Demo.matrix = Ok r)
       ↔ ∃ inicio,
           time_to_minutes (CStr HORA_INICIO_CARGA) = Ok inicio
           ∧ Forall window_readable Demo.locs
           ∧ (∀ v, (v < length Demo.vehs)%nat →
                release_fits
                  (inicio + sum_list_Z (take (S v) (tiempo_carga_min <$> Demo.vehs))))
           ∧ (∀ node row o c,
                Demo.locs !! node = Some row → node ≠ 0%nat →
                time_to_minutes (hora_apertura row) = Ok o →
                time_to_minutes (hora_cierre row) = Ok c →
                window_fits o c))
  ∧ (∀ e, configure HORA_INICIO_CARGA Demo.locs Demo.vehs Demo.matrix = Raise e →
       e = ValueError ∨ e = OverflowError ∨ e = SolverFail).
Proof.
  assert (Hcap : Forall (λ row, 0 ≤ capacidad_cajas row < 9223372036854775808)
                   Demo.vehs).
  { apply Forall_forall. intros row Hrow.
    repeat (apply elem_of_cons in Hrow as [->|Hrow]; [simpl; lia|]).
    by apply elem_of_nil in Hrow. }
  split; [done|]. split; [done|]. split; [exact Hcap|]. split; [reflexivity|].
  apply (configure_fails_on_clock_text_or_bound HORA_INICIO_CARGA
           Demo.locs Demo.vehs Demo.matrix); [done|done|exact Hcap|reflexivity].
Defined.

(** X6. The bounds the model carries are one lower bound per vehicle, on
    its route start, equal to its loading start plus its loading
    duration, and one window per location other than the depot, on that
    location's index.  Nothing else is posted: the depot's own window and
    the route ends are left free. *)
Theorem posted_bounds_are_releases_and_shop_windows
    (hora : string) (locs : list location_row) (vehs : list vehicle_row)
    (matrix : list (list Z)) (data : data_model) (routing : RoutingModel)
    (starts : list Z) :
  configure hora locs vehs matrix = Ok (data, routing, starts) →
  length (cumul_bounds routing) = (length vehs + (length locs - 1))%nat
  ∧ ∀ b, b ∈ cumul_bounds routing →
      (∃ v row load_start,
         vehs !! v = Some row ∧ starts !! v = Some load_start
         ∧ b = SetMin "time" (Start (manager routing) v)
                 (load_start + tiempo_carga_min row))
      ∨ (∃ node row o c,
           locs !! node = Some row ∧ node ≠ 0%nat
           ∧ time_to_minutes (hora_apertura row) = Ok o
           ∧ time_to_minutes (hora_cierre row) = Ok c
           ∧ b = SetRange "time" node o c).
Proof.
  intros Hcfg.
  destruct (configure_ok _ _ _ _ _ _ _ Hcfg)
    as (inicio & _ & Hd & Hm & _ & _ & Hst & Hb).
  destruct (configure_data _ _ _ _ _ _ _ Hcfg) as (_ & _ & _ & _ & _ & Hdep & Hwl).
  split.
  - rewrite Hb, length_app. f_equal.
    + unfold release_bounds. by rewrite length_imap, release_times_length, length_fmap.
    + unfold window_bounds. destruct (time_windows data) as [|w ws] eqn:Ews.
      * simpl in Hwl. by rewrite <- Hwl.
      * rewrite window_bounds_tail by done.
        rewrite window_bounds_from_length by lia. simpl in Hwl. lia.
  - intros b. rewrite Hb, elem_of_app. intros [Hrel|Hwin].
    + left. apply release_bounds_inv in Hrel as (v & d & Hv & ->).
      apply list_lookup_fmap_Some in Hv as (row & -> & Hrow).
      exists v, row, (inicio + sum_list_Z (take v (tiempo_carga_min <$> vehs))).
      split; [done|]. split; [|by rewrite Hm].
      rewrite Hst. apply load_starts_lookup. rewrite length_fmap.
      by apply lookup_lt_Some in Hrow.
    + right. apply window_bounds_from_elem in Hwin as (i & [o c] & Hw & Hne & ->).
      simpl in *. rewrite Hdep in Hne.
      unfold create_data_model in Hd.
      destruct (map_res _ locs) as [ws|] eqn:Ew; [|done]. simpl in Hd.
      injection Hd as <-. simpl in Hw.
      destruct (map_res_lookup_inv _ _ _ _ _ Ew Hw) as (row & Hrow & [Ho Hc]%window_of_row_ok).
      exists i, row, o, c. done.
Qed.

(** ** Travel-time matrix, when it is obtained *)

Lemma res_bind_raise {A B} (e : exn) (f : A → res B) : (Raise e ≫= f) = Raise e.
Proof. done. Qed.

Lemma setitem_ok {A} (l : list A) i x :
  (i < length l)%nat → setitem l i x = Ok (<[i := x]> l).
Proof. intros H. unfold setitem. by destruct (decide _). Qed.

Lemma setitem_raise {A} (l : list A) i x :
  ¬ (i < length l)%nat → setitem l i x = Raise IndexError.
Proof. intros H. unfold setitem. by destruct (decide _). Qed.

Section MatrixFacts.

Variable distance_matrix : nat → res (list element).
Variable slowdown : Z → Z.

Lemma time_row_ok row_elements row :
  time_row slowdown row_elements = Ok row →
  length row = length row_elements
  ∧ ∀ j e, row_elements !! j = Some e →
      ∃ seconds, duration e = Some seconds ∧ row !! j = Some (slowdown seconds).
Proof.
  intros Hrow. split; [by eapply map_res_length|].
  intros j e He. destruct (map_res_lookup _ _ _ _ _ Hrow He) as (t & Ht & Hj).
  destruct (duration e) as [seconds|]; [|done]. injection Ht as <-. eauto.
Qed.


Lemma origin_loop_ok origins : ∀ first acc matrix,
  origin_loop distance_matrix slowdown first origins acc = Ok (Some matrix) →
  ∃ rows, matrix = acc ++ rows ∧ length rows = length origins
    ∧ ∀ k row, rows !! k = Some row →
        ∃ row_elements e0,
          distance_matrix (first + k) = Ok row_elements
          ∧ row_elements !! 0%nat = Some e0 ∧ status e0 = "OK"
          ∧ time_row slowdown row_elements = Ok row.
Proof.
  induction origins as [|origin rest IH]; intros first acc matrix; simpl.
  - intros [= <-]. exists []. by rewrite app_nil_r.
  - destruct (distance_matrix first) as [row_elements|] eqn:Eresp; [|done]. simpl.
    destruct (getitem row_elements 0) as [e0|] eqn:E0; [|done]. simpl.
    destruct (decide (status e0 ≠ "OK")) as [|Hok]; [done|].
    apply dec_stable in Hok.
    destruct (time_row slowdown row_elements) as [row|] eqn:Erow; [|done]. simpl.
    intros Hrest. destruct (IH _ _ _ Hrest) as (rows & -> & Hlen & Hrows).
    exists (row :: rows). split; [by rewrite <- app_assoc|]. split; [simpl; lia|].
    intros k r Hk. destruct k as [|k]; simpl in Hk.
    + injection Hk as <-. exists row_elements, e0. rewrite Nat.add_0_r.
      unfold getitem in E0. destruct (row_elements !! 0%nat); [|done].
      by injection E0 as ->.
    + replace (first + S k)%nat with (S first + k)%nat by lia. by apply Hrows.
Qed.


Lemma zeroed_upto_length k matrix : length (zeroed_upto k matrix) = length matrix.
Proof. unfold zeroed_upto. apply length_imap. Qed.

Lemma zeroed_upto_lookup k matrix i :
  zeroed_upto k matrix !! i
  = (λ row, if decide (i < k)%nat then <[i := 0]> row else row) <$> matrix !! i.
Proof. unfold zeroed_upto. apply list_lookup_imap. Qed.

Lemma zeroed_upto_0 matrix : zeroed_upto 0 matrix = matrix.
Proof.
  apply list_eq. intros i. rewrite zeroed_upto_lookup.
  destruct (matrix !! i); [|done]. destruct (decide (i < 0)%nat); [lia|done].
Qed.

Lemma zeroed_upto_S k matrix row :
  matrix !! k = Some row →
  <[k := <[k := 0]> row]> (zeroed_upto k matrix) = zeroed_upto (S k) matrix.
Proof.
  intros Hrow. apply list_eq. intros i. rewrite zeroed_upto_lookup.
  destruct (decide (i = k)) as [->|Hne].
  - rewrite list_lookup_insert_eq
      by (rewrite zeroed_upto_length; by apply lookup_lt_Some in Hrow).
    rewrite Hrow. destruct (decide (k < S k)%nat); [done|lia].
  - rewrite list_lookup_insert_ne by done. rewrite zeroed_upto_lookup.
    destruct (matrix !! i); [|done].
    destruct (decide (i < k)%nat), (decide (i < S k)%nat); try done; lia.
Qed.

(** The loop over the diagonal: it ends well exactly when every row
    reaches its own column. *)
Lemma zero_diagonal_loop matrix : ∀ n k,
  (k + n)%nat = length matrix →
  (Forall (λ i, ∃ row, matrix !! i = Some row ∧ (i < length row)%nat) (seq k n)
   ∧ for_each (λ mat i, row ← getitem mat i; row' ← setitem row i 0; setitem mat i row')
       (seq k n) (zeroed_upto k matrix)
     = Ok (zeroed_upto (k + n) matrix))
  ∨ (¬ Forall (λ i, ∃ row, matrix !! i = Some row ∧ (i < length row)%nat) (seq k n)
     ∧ for_each (λ mat i, row ← getitem mat i; row' ← setitem row i 0; setitem mat i row')
         (seq k n) (zeroed_upto k matrix)
       = Raise IndexError).
Proof.
  induction n as [|n IH]; intros k Hk.
  - left. split; [constructor|]. simpl. by rewrite Nat.add_0_r.
  - destruct (lookup_lt_is_Some_2 matrix k) as [row Hrow]; [lia|].
    simpl seq. rewrite for_each_cons. cbv beta.
    assert (Hget : getitem (zeroed_upto k matrix) k = Ok row).
    { apply getitem_ok. rewrite zeroed_upto_lookup, Hrow.
      destruct (decide (k < k)%nat); [lia|done]. }
    rewrite Hget, res_bind_ok.
    destruct (decide (k < length row)%nat) as [Hlong|Hshort].
    + rewrite (setitem_ok row) by done. rewrite res_bind_ok.
      rewrite setitem_ok by (rewrite zeroed_upto_length; lia).
      rewrite res_bind_ok, (zeroed_upto_S _ _ _ Hrow).
      destruct (IH (S k)) as [[Hall Hrun]|[Hnot Hrun]]; [lia|..].
      * left. split; [constructor; eauto|].
        rewrite Hrun. do 2 f_equal. lia.
      * right. split; [|done]. intros Hall. apply Hnot. by inversion Hall.
    + rewrite (setitem_raise row) by done.
      right. split; [|done]. intros Hall. inversion Hall as [|? ? (row' & Hrow' & Hlt) _].
      rewrite Hrow in Hrow'. injection Hrow' as <-. lia.
Qed.

Lemma zero_diagonal_ok matrix matrix' :
  zero_diagonal matrix = Ok matrix' →
  matrix' = zeroed_upto (length matrix) matrix
  ∧ ∀ i row, matrix !! i = Some row → (i < length row)%nat.
Proof.
  unfold zero_diagonal. intros Hrun.
  destruct (zero_diagonal_loop matrix (length matrix) 0 eq_refl) as [[Hall Heq]|[_ Heq]];
    rewrite zeroed_upto_0 in Heq; rewrite Heq in Hrun; [|done].
  injection Hrun as <-. split; [done|].
  intros i row Hrow. rewrite Forall_forall in Hall.
  destruct (Hall i) as (row' & Hrow' & Hlt).
  { apply elem_of_seq. apply lookup_lt_Some in Hrow. lia. }
  congruence.
Qed.


End MatrixFacts.

Section MatrixBlind.

Variable slowdown : Z → Z.

Lemma map_res_fmap {A B C} (h : A → B) (g : B → res C) l :
  map_res (λ x, g (h x)) l = map_res g (h <$> l).
Proof. induction l as [|a l IH]; [done|]. simpl. by rewrite IH. Qed.

Lemma time_row_durations ea eb :
  duration <$> ea = duration <$> eb → time_row slowdown ea = time_row slowdown eb.
Proof.
  intros Heq. unfold time_row.
  rewrite (map_res_fmap duration
             (λ d, match d with Some seconds => Ok (slowdown seconds)
                            | None => Raise KeyError end) ea).
  rewrite (map_res_fmap duration
             (λ d, match d with Some seconds => Ok (slowdown seconds)
                            | None => Raise KeyError end) eb).
  by rewrite Heq.
Qed.

Lemma origin_loop_same dm1 dm2 origins : ∀ first acc,
  (∀ k, (k < length origins)%nat → same_for_matrix (dm1 (first + k)%nat) (dm2 (first + k)%nat)) →
  match origin_loop dm1 slowdown first origins acc,
        origin_loop dm2 slowdown first origins acc with
  | Raise _, Raise _ => True
  | Ok a, Ok b => a = b
  | _, _ => False
  end.
Proof.
  induction origins as [|origin rest IH]; intros first acc Hsame; [done|].
  pose proof (Hsame 0%nat ltac:(simpl; lia)) as H0. rewrite Nat.add_0_r in H0.
  simpl. unfold same_for_matrix in H0.
  destruct (dm1 first) as [ea|], (dm2 first) as [eb|]; try done. simpl.
  destruct H0 as [Hdur Hhead].
  assert (Hlen : length ea = length eb)
    by (rewrite <- (length_fmap duration ea), Hdur; apply length_fmap).
  unfold getitem. rewrite <- !head_lookup.
  destruct ea as [|a0 ea], eb as [|b0 eb]; try done. simpl.
  specialize (Hhead a0 b0 eq_refl eq_refl).
  destruct (decide (status a0 ≠ "OK")) as [Ha|Ha], (decide (status b0 ≠ "OK")) as [Hb|Hb];
    try done.
  - exfalso. apply Ha, Hhead. by apply dec_stable.
  - exfalso. apply Hb, Hhead. by apply dec_stable.
  - rewrite (time_row_durations (a0 :: ea) (b0 :: eb) Hdur).
    destruct (time_row slowdown (b0 :: eb)) as [row|]; [|done]. simpl.
    apply IH. intros k Hk.
    replace (S first + k)%nat with (first + S k)%nat by lia. apply Hsame. simpl. lia.
Qed.

End MatrixBlind.

(** X7. A matrix that [get_time_matrix] returns has one row per location.
    Row [i] comes from an answer for origin [i] whose first element is OK
    and whose elements all carry a duration; it is as long as that
    answer, holds 0 in column [i] and the slowed duration of element [j]
    in every other column [j]. *)
Theorem time_matrix_shape
    (distance_matrix : nat → res (list element)) (slowdown : Z → Z)
    (locations : list cell) (matrix : list (list Z)) :
  get_time_matrix distance_matrix slowdown locations = Some matrix →
  length matrix = length locations
  ∧ ∀ i row, matrix !! i = Some row →
      ∃ row_elements e0,
        distance_matrix i = Ok row_elements
        ∧ row_elements !! 0%nat = Some e0 ∧ status e0 = "OK"
        ∧ length row = length row_elements
        ∧ row !! i = Some 0
        ∧ ∀ j e, row_elements !! j = Some e →
            ∃ seconds, duration e = Some seconds
              ∧ (j ≠ i → row !! j = Some (slowdown seconds)).
Proof.
  unfold get_time_matrix.
  destruct (origin_loop distance_matrix slowdown 0 locations []) as [[m0|]|] eqn:Eloop;
    try done.
  simpl. destruct (zero_diagonal m0) as [m1|] eqn:Ez; [|done]. simpl.
  intros [= <-].
  destruct (origin_loop_ok _ _ _ _ _ _ Eloop) as (rows & -> & Hlen & Hrows).
  simpl in *.
  destruct (zero_diagonal_ok _ _ Ez) as [-> Hlong].
  split; [by rewrite zeroed_upto_length|].
  intros i row Hrow. rewrite zeroed_upto_lookup in Hrow.
  destruct (rows !! i) as [row0|] eqn:Erow0; [|done].
  pose proof (lookup_lt_Some _ _ _ Erow0) as Hi.
  simpl in Hrow. destruct (decide (i < length rows)%nat); [|lia].
  injection Hrow as <-.
  destruct (Hrows i row0 Erow0) as (row_elements & e0 & Hresp & He0 & Hst & Htr).
  destruct (time_row_ok slowdown _ _ Htr) as [Hlen0 Hcols].
  exists row_elements, e0. split; [done|]. split; [done|]. split; [done|].
  split; [by rewrite length_insert|].
  split; [apply list_lookup_insert_eq; by eapply Hlong|].
  intros j e He. destruct (Hcols j e He) as (seconds & Hd & Hj).
  exists seconds. split; [done|]. intros Hne. by rewrite list_lookup_insert_ne.
Qed.



Lemma time_matrix_shape_witness :
  get_time_matrix Demo.service Demo.slowdown (ubicacion <$> Demo.locs) = Some Demo.matrix
  ∧ length Demo.matrix = length (ubicacion <$> Demo.locs).
Proof.
  split; [reflexivity|].
  destruct (time_matrix_shape Demo.service Demo.slowdown (ubicacion <$> Demo.locs)
              Demo.matrix) as [Hlen _]; [reflexivity|exact Hlen].
Defined.

(** X9. [get_time_matrix] looks at the status of the first element of each
    answer only, and never at which exception the client raised: two
    services whose answers differ in nothing else give the same result. *)
Theorem time_matrix_ignores_later_statuses
    (dm1 dm2 : nat → res (list element)) (slowdown : Z → Z)
    (locations : list cell) :
  (∀ i, (i < length locations)%nat → same_for_matrix (dm1 i) (dm2 i)) →
  get_time_matrix dm1 slowdown locations = get_time_matrix dm2 slowdown locations.
Proof.
  intros Hsame. unfold get_time_matrix.
  pose proof (origin_loop_same slowdown dm1 dm2 locations 0 [] Hsame) as Hloop.
  destruct (origin_loop dm1 slowdown 0 locations []) as [r1|],
           (origin_loop dm2 slowdown 0 locations []) as [r2|]; try done.
  by subst r2.
Qed.

Lemma time_matrix_ignores_later_statuses_witness :
  get_time_matrix Demo.service Demo.slowdown (ubicacion <$> Demo.locs)
  = get_time_matrix Demo.service_marked Demo.slowdown (ubicacion <$> Demo.locs).
Proof.
  apply (time_matrix_ignores_later_statuses Demo.service Demo.service_marked).
  intros i Hi. simpl in Hi.
  destruct i as [|[|[|i]]]; [..|lia]; (split; [reflexivity|]);
    intros a0 b0 [= <-] [= <-]; done.
Defined.

(** ** The rows of a vehicle follow its route *)

Section RouteFacts.

Variable data : data_model.
Variable m : RoutingIndexManager.
Variable solution : Assignment.
Variables store_names vehicle_ids : list cell.
Variable start_loading_times : list Z.

Lemma walk_nonempty f index stops :
  walk m solution f index = Some stops → stops ≠ [].
Proof.
  destruct f as [|f]; [done|]. simpl.
  destruct (IsEnd m index); [by intros [= <-]|].
  destruct (walk m solution f (next_var solution index)); [|done].
  by intros [= <-].
Qed.

Lemma walk_single f index e :
  walk m solution f index = Some [e] → IsEnd m index = true ∧ e = index.
Proof.
  destruct f as [|f]; [done|]. simpl.
  destruct (IsEnd m index); [by intros [= <-]|].
  destruct (walk m solution f (next_var solution index)) as [l|] eqn:E; [|done].
  simpl. intros [= _ ->]. by apply walk_nonempty in E.
Qed.

Lemma walk_step f index second rest :
  walk m solution f index = Some (index :: second :: rest) →
  IsEnd m index = false
  ∧ ∃ f', f = S f' ∧ walk m solution f' (next_var solution index) = Some (second :: rest).
Proof.
  destruct f as [|f]; [done|]. simpl.
  destruct (IsEnd m index); [done|].
  destruct (walk m solution f (next_var solution index)) as [l|] eqn:E; [|done].
  simpl. intros [= ->]. eauto.
Qed.

(** The route of a vehicle is its start, the stops that are no route
    ends, and one route end. *)
Lemma walk_shape f : ∀ index stops,
  walk m solution f index = Some stops →
  ∃ mids end_, stops = mids ++ [end_] ∧ IsEnd m end_ = true
    ∧ Forall (λ i, IsEnd m i = false) mids.
Proof.
  induction f as [|f IH]; intros index stops; [done|]. simpl.
  destruct (IsEnd m index) eqn:Eend.
  - intros [= <-]. exists [], index. done.
  - destruct (walk m solution f (next_var solution index)) as [l|] eqn:E; [|done].
    simpl. intros [= <-]. destruct (IH _ _ E) as (mids & end_ & -> & Hend & Hmids).
    exists (index :: mids), end_. split; [done|]. split; [done|]. by constructor.
Qed.

(** The loop over the stops and the list of the stops give the same rows. *)
Lemma visit_loop_rows id : ∀ mids f index end_ fuel sequence load rows,
  walk m solution f index = Some (index :: mids ++ [end_]) →
  (length mids < fuel)%nat →
  visit_loop data m solution store_names fuel id index sequence load rows
  = '(s, l, more) ← visit_rows data m solution store_names id sequence load mids;
    mret (end_, s, l, rows ++ more).
Proof.
  induction mids as [|i1 mids IH];
    intros f index end_ fuel sequence load rows Hwalk Hfuel;
    (destruct fuel as [|fuel]; [simpl in Hfuel; lia|]).
  - destruct (walk_step _ _ _ _ Hwalk) as (Hstart & f' & -> & Hnext).
    apply walk_single in Hnext as [Hend ->].
    simpl. rewrite Hstart, Hend. by rewrite app_nil_r.
  - change ((i1 :: mids) ++ [end_]) with (i1 :: mids ++ [end_]) in Hwalk.
    destruct (walk_step _ _ _ _ Hwalk) as (Hstart & f' & -> & Hnext).
    pose proof (walk_head _ _ _ _ _ Hnext) as Hhead. simpl in Hhead.
    injection Hhead as Hi1.
    assert (Hmid : IsEnd m i1 = false).
    { rewrite <- Hi1 in Hnext. destruct mids as [|i2 mids'].
      - by destruct (walk_step _ _ _ _ Hnext).
      - by destruct (walk_step _ _ _ _ Hnext). }
    simpl. rewrite Hstart, <- Hi1, Hmid.
    destruct (getitem store_names _) as [name|]; [|done]. simpl.
    destruct (getitem (demands data) _) as [demand|]; [|done]. simpl.
    destruct (getitem (service_times data) _) as [service|]; [|done]. simpl.
    rewrite <- Hi1 in Hnext.
    rewrite (IH f' i1 end_ fuel _ _ _ Hnext) by (simpl in Hfuel; lia).
    destruct (visit_rows _ _ _ _ _ _ _ mids) as [[[s l] more]|]; [|done]. simpl.
    by rewrite <- app_assoc.
Qed.

Lemma vehicle_group_rows fuel v id start mids end_ :
  route m solution v = Some (start :: mids ++ [end_]) →
  vehicle_ids !! v = Some id →
  (length mids < fuel)%nat →
  vehicle_group data m solution store_names vehicle_ids start_loading_times fuel v
  = rows_of_route data m solution store_names start_loading_times v id start mids end_.
Proof.
  intros Hroute Hid Hfuel. unfold vehicle_group, emit_route, rows_of_route.
  rewrite (getitem_ok _ _ _ Hid), res_bind_ok.
  pose proof (route_head _ _ _ _ Hroute) as Hhead. simpl in Hhead.
  injection Hhead as ->.
  destruct (getitem (vehicle_capacities data) v); [|done]. simpl.
  destruct (getitem store_names _) as [name|]; [|done]. simpl.
  destruct (getitem start_loading_times v) as [st|]; [|done]. simpl.
  rewrite (visit_loop_rows id mids _ _ end_ fuel 0 0 _ Hroute Hfuel).
  destruct (visit_rows _ _ _ _ _ _ _ mids) as [[[s l] more]|]; [|done]. simpl.
  destruct (getitem store_names _) as [dname|]; [|done]. done.
Qed.

End RouteFacts.

Section GroupFacts.

Variable data : data_model.
Variable m : RoutingIndexManager.
Variable solution : Assignment.
Variables store_names vehicle_ids : list cell.
Variable start_loading_times : list Z.

Lemma visit_loop_more_fuel id : ∀ fuel extra index sequence load rows r,
  visit_loop data m solution store_names fuel id index sequence load rows = Ok r →
  visit_loop data m solution store_names (fuel + extra) id index sequence load rows = Ok r.
Proof.
  induction fuel as [|fuel IH]; intros extra index sequence load rows r; [done|].
  simpl. destruct (IsEnd m index); [done|].
  destruct (IsEnd m (next_var solution index)); [done|].
  destruct (getitem store_names _); [|done]. simpl.
  destruct (getitem (demands data) _); [|done]. simpl.
  destruct (getitem (service_times data) _); [|done]. simpl.
  apply IH.
Qed.

Lemma vehicle_group_more_fuel fuel extra v g :
  vehicle_group data m solution store_names vehicle_ids start_loading_times fuel v = Ok g →
  vehicle_group data m solution store_names vehicle_ids start_loading_times
    (fuel + extra) v = Ok g.
Proof.
  unfold vehicle_group, emit_route.
  destruct (getitem vehicle_ids v) as [id|]; [|done]. simpl.
  destruct (getitem (vehicle_capacities data) v); [|done]. simpl.
  destruct (getitem store_names _); [|done]. simpl.
  destruct (getitem start_loading_times v); [|done]. simpl.
  destruct (visit_loop _ _ _ _ fuel _ _ _ _ _) as [r|] eqn:Ev; [|done].
  by rewrite (visit_loop_more_fuel _ _ extra _ _ _ _ _ Ev).
Qed.

(** Whatever the turns granted, a group that is obtained is the one read
    off the route. *)
Lemma vehicle_group_is_rows fuel v g start mids end_ :
  route m solution v = Some (start :: mids ++ [end_]) →
  vehicle_group data m solution store_names vehicle_ids start_loading_times fuel v = Ok g →
  ∃ id, vehicle_ids !! v = Some id
    ∧ rows_of_route data m solution store_names start_loading_times v id start mids end_
      = Ok g.
Proof.
  intros Hroute Hg.
  destruct (vehicle_ids !! v) as [id|] eqn:Eid.
  2:{ unfold vehicle_group, getitem in Hg. by rewrite Eid in Hg. }
  exists id. split; [done|].
  rewrite <- (vehicle_group_rows data m solution store_names vehicle_ids
                start_loading_times (fuel + S (length mids)) v id start mids end_
                Hroute Eid ltac:(lia)).
  by apply vehicle_group_more_fuel.
Qed.

Lemma getitem_inv {A} (l : list A) i x : getitem l i = Ok x → l !! i = Some x.
Proof. unfold getitem. destruct (l !! i); [by intros [= ->]|done]. Qed.

(** What [visit_rows] puts in each row. *)
Lemma visit_rows_spec id : ∀ mids sequence load s l rows,
  visit_rows data m solution store_names id sequence load mids = Ok (s, l, rows) →
  s = sequence + Z.of_nat (length mids)
  ∧ l = load + sum_list_Z (demand_at data m <$> mids)
  ∧ length rows = length mids
  ∧ ∀ j index, mids !! j = Some index →
      ∃ name service,
        store_names !! IndexToNode m index = Some name
        ∧ service_times data !! IndexToNode m index = Some service
        ∧ rows !! j
          = Some [id; CInt (sequence + 1 + Z.of_nat j); name; CStr "";
                  CStr (minutes_to_clock (cumul_var solution "time" index));
                  CStr (minutes_to_clock (cumul_var solution "time" index + service));
                  CInt (load + sum_list_Z (demand_at data m <$> take (S j) mids))].
Proof.
  induction mids as [|i1 mids IH]; intros sequence load s l rows.
  - simpl. intros [= <- <- <-]. repeat split; try done; lia.
  - simpl.
    destruct (getitem store_names _) as [name|] eqn:En; [|done]. simpl.
    destruct (getitem (demands data) _) as [demand|] eqn:Ed; [|done]. simpl.
    destruct (getitem (service_times data) _) as [service|] eqn:Es; [|done]. simpl.
    destruct (visit_rows _ _ _ _ _ _ _ mids) as [[[s' l'] rows']|] eqn:Er; [|done].
    simpl. intros [= <- <- <-].
    destruct (IH _ _ _ _ _ Er) as (-> & -> & Hlen & Hrows).
    apply getitem_inv in En, Ed, Es.
    assert (Hdem : demand_at data m i1 = demand) by (unfold demand_at; by rewrite Ed).
    split; [lia|]. split; [simpl; rewrite Hdem; apply eq_sym, Z.add_assoc|].
    split; [simpl; lia|].
    intros j index Hj. destruct j as [|j]; simpl in Hj.
    + injection Hj as <-. exists name, service. split; [done|]. split; [done|].
      simpl. rewrite Hdem.
      assert (E1 : sequence + 1 + Z.of_nat 0 = sequence + 1) by lia.
      assert (E2 : load + (demand + 0) = load + demand) by lia.
      by rewrite E1, E2.
    + destruct (Hrows j index Hj) as (name' & service' & Hn & Hs & Hrow).
      exists name', service'. split; [done|]. split; [done|].
      simpl. rewrite Hrow, Hdem.
      assert (E1 : sequence + 1 + 1 + Z.of_nat j = sequence + 1 + Z.of_nat (S j)) by lia.
      rewrite E1. by rewrite Z.add_assoc.
Qed.

End GroupFacts.

Section GroupRows.

Variable data : data_model.
Variable m : RoutingIndexManager.
Variable solution : Assignment.
Variables store_names vehicle_ids : list cell.
Variable start_loading_times : list Z.

(** The group of a route, row by row. *)
Lemma rows_of_route_spec v id start mids end_ g :
  rows_of_route data m solution store_names start_loading_times v id start mids end_
  = Ok g →
  ∃ name load_start depot_name rows,
    store_names !! IndexToNode m start = Some name
    ∧ start_loading_times !! v = Some load_start
    ∧ store_names !! IndexToNode m end_ = Some depot_name
    ∧ length rows = length mids
    ∧ g = [id; CInt 0; name; CStr (minutes_to_clock load_start); CStr "";
           CStr (minutes_to_clock (cumul_var solution "time" start)); CInt 0]
          :: rows
          ++ [[id; CInt (Z.of_nat (length mids) + 1); depot_name; CStr "";
               CStr (minutes_to_clock (cumul_var solution "time" end_)); CStr "";
               CInt (sum_list_Z (demand_at data m <$> mids))]]
    ∧ ∀ j index, mids !! j = Some index →
        ∃ stop_name service,
          store_names !! IndexToNode m index = Some stop_name
          ∧ service_times data !! IndexToNode m index = Some service
          ∧ rows !! j
            = Some [id; CInt (Z.of_nat (S j)); stop_name; CStr "";
                    CStr (minutes_to_clock (cumul_var solution "time" index));
                    CStr (minutes_to_clock (cumul_var solution "time" index + service));
                    CInt (sum_list_Z (demand_at data m <$> take (S j) mids))].
Proof.
  unfold rows_of_route.
  destruct (getitem (vehicle_capacities data) v); [|done]. simpl.
  destruct (getitem store_names (IndexToNode m start)) as [name|] eqn:En; [|done]. simpl.
  destruct (getitem start_loading_times v) as [st|] eqn:Est; [|done]. simpl.
  destruct (visit_rows _ _ _ _ _ _ _ mids) as [[[s l] rows]|] eqn:Er; [|done]. simpl.
  destruct (getitem store_names (IndexToNode m end_)) as [dname|] eqn:Edn; [|done].
  simpl. intros [= <-].
  apply getitem_inv in En, Est, Edn.
  destruct (visit_rows_spec _ _ _ _ _ _ _ _ _ _ _ Er) as (-> & -> & Hlen & Hrows).
  exists name, st, dname, rows.
  split; [done|]. split; [done|]. split; [done|]. split; [done|].
  split; [by rewrite !Z.add_0_l|].
  intros j index Hj. destruct (Hrows j index Hj) as (sn & service & Hsn & Hs & Hrow).
  exists sn, service. split; [done|]. split; [done|].
  rewrite Hrow. rewrite !Z.add_0_l.
  assert (E : 1 + Z.of_nat j = Z.of_nat (S j)) by lia. by rewrite E.
Qed.

End GroupRows.

(** X10. For a vehicle whose route is [start], the stops [mids] and the
    route end, the loop that follows the next-pointers gives, once it is
    granted more turns than there are stops, exactly the rows made from
    that list: same rows, same order, same exception when a name, a
    demand or a service time is missing. *)
Theorem group_is_rows_of_route
    (data : data_model) (m : RoutingIndexManager) (solution : Assignment)
    (store_names vehicle_ids : list cell) (start_loading_times : list Z)
    (fuel v : nat) (id : cell) (start : nat) (mids : list nat) (end_ : nat) :
  route m solution v = Some (start :: mids ++ [end_]) →
  vehicle_ids !! v = Some id →
  (length mids < fuel)%nat →
  vehicle_group data m solution store_names vehicle_ids start_loading_times fuel v
  = rows_of_route data m solution store_names start_loading_times v id start mids end_.
Proof. apply vehicle_group_rows. Qed.

Lemma group_is_rows_of_route_witness :
  route (manager_of Demo.data) Demo.sol_one 0 = Some (0 :: [1; 2] ++ [4])%nat
  ∧ vehicle_group Demo.data (manager_of Demo.data) Demo.sol_one Demo.store_names
      Demo.vehicle_ids Demo.start_loading_times 3 0
    = rows_of_route Demo.data (manager_of Demo.data) Demo.sol_one Demo.store_names
        Demo.start_loading_times 0 (CStr "C1") 0 [1; 2]%nat 4.
Proof.
  split; [reflexivity|].
  apply (group_is_rows_of_route Demo.data (manager_of Demo.data) Demo.sol_one
           Demo.store_names Demo.vehicle_ids Demo.start_loading_times
           3 0 (CStr "C1") 0 [1; 2]%nat 4).
  - reflexivity.
  - reflexivity.
  - simpl; lia.
Defined.

(** X11. The group of a vehicle has one row per index of its route, start
    and end included.  Row [k] has as many fields as the header, carries
    the vehicle's id, the sequence number [k] and the name of the node
    behind the [k]-th index of the route. *)
Theorem group_rows_number_the_stops
    (data : data_model) (m : RoutingIndexManager) (solution : Assignment)
    (store_names vehicle_ids : list cell) (start_loading_times : list Z)
    (fuel v : nat) (g : list (list cell)) (start : nat) (mids : list nat)
    (end_ : nat) :
  route m solution v = Some (start :: mids ++ [end_]) →
  vehicle_group data m solution store_names vehicle_ids start_loading_times fuel v
  = Ok g →
  length g = length (start :: mids ++ [end_])
  ∧ ∀ k index, (start :: mids ++ [end_]) !! k = Some index →
      ∃ row, g !! k = Some row
        ∧ length row = length header
        ∧ row !! 0%nat = vehicle_ids !! v
        ∧ row !! 1%nat = Some (CInt (Z.of_nat k))
        ∧ row !! 2%nat = store_names !! IndexToNode m index.
Proof.
  intros Hroute Hg.
  destruct (vehicle_group_is_rows _ _ _ _ _ _ _ _ _ _ _ _ Hroute Hg) as (id & Hid & Hrows).
  destruct (rows_of_route_spec _ _ _ _ _ _ _ _ _ _ _ Hrows)
    as (name & st & dname & rows & Hn & Hst & Hdn & Hlen & -> & Hmid).
  split; [simpl; rewrite !length_app; simpl; lia|].
  intros k index Hk. rewrite Hid. destruct k as [|k].
  - injection Hk as <-. eexists. split; [done|]. by rewrite Hn.
  - simpl in Hk. simpl.
    destruct (decide (k < length mids)%nat) as [Hlt|Hge].
    + rewrite lookup_app_l in Hk by done.
      destruct (Hmid k index Hk) as (sn & service & Hsn & _ & Hrow).
      eexists. split; [by rewrite lookup_app_l, Hrow by lia|]. by rewrite Hsn.
    + rewrite lookup_app_r in Hk by lia.
      destruct (k - length mids)%nat as [|?] eqn:Ek; [|done].
      injection Hk as <-.
      eexists. split; [rewrite lookup_app_r by lia; by rewrite Hlen, Ek|].
      rewrite Hdn. replace k with (length mids) by lia.
      assert (E : Z.of_nat (length mids) + 1 = Z.of_nat (S (length mids))) by lia.
      rewrite E. done.
Qed.

Lemma group_rows_number_the_stops_witness :
  ∃ g, vehicle_group Demo.data (manager_of Demo.data) Demo.sol_one Demo.store_names
         Demo.vehicle_ids Demo.start_loading_times 3 0 = Ok g
    ∧ length g = 4%nat
    ∧ ∃ row, g !! 2%nat = Some row ∧ row !! 1%nat = Some (CInt 2)
        ∧ row !! 2%nat = Some (CStr "Tienda B").
Proof.
  eexists. split; [reflexivity|].
  destruct (group_rows_number_the_stops Demo.data (manager_of Demo.data) Demo.sol_one
              Demo.store_names Demo.vehicle_ids Demo.start_loading_times 3 0 _
              0 [1; 2]%nat 4 eq_refl eq_refl) as [Hlen Hrows].
  split; [exact Hlen|].
  destruct (Hrows 2%nat 2%nat eq_refl) as (row & Hrow & _ & _ & Hseq & Hname).
  exists row. split; [exact Hrow|]. split; [exact Hseq|exact Hname].
Defined.

(** X12. The time columns of a group.  The first row gives the vehicle's
    loading start and, as departure, the cumulative time at the route
    start, with no arrival.  The row of a stop gives the cumulative time
    at the stop as arrival and that time plus the stop's service time as
    departure.  The last row gives the cumulative time at the route end
    as arrival, with no departure. *)
Theorem group_time_columns
    (data : data_model) (m : RoutingIndexManager) (solution : Assignment)
    (store_names vehicle_ids : list cell) (start_loading_times : list Z)
    (fuel v : nat) (g : list (list cell)) (start : nat) (mids : list nat)
    (end_ : nat) :
  route m solution v = Some (start :: mids ++ [end_]) →
  vehicle_group data m solution store_names vehicle_ids start_loading_times fuel v
  = Ok g →
  (∃ row load_start,
     g !! 0%nat = Some row ∧ start_loading_times !! v = Some load_start
     ∧ row !! 3%nat = Some (CStr (minutes_to_clock load_start))
     ∧ row !! 4%nat = Some (CStr "")
     ∧ row !! 5%nat = Some (CStr (minutes_to_clock (cumul_var solution "time" start))))
  ∧ (∀ j index, mids !! j = Some index →
       ∃ row service,
         g !! S j = Some row
         ∧ service_times data !! IndexToNode m index = Some service
         ∧ row !! 3%nat = Some (CStr "")
         ∧ row !! 4%nat = Some (CStr (minutes_to_clock (cumul_var solution "time" index)))
         ∧ row !! 5%nat
           = Some (CStr (minutes_to_clock (cumul_var solution "time" index + service))))
  ∧ (∃ row,
       g !! S (length mids) = Some row
       ∧ row !! 3%nat = Some (CStr "")
       ∧ row !! 4%nat = Some (CStr (minutes_to_clock (cumul_var solution "time" end_)))
       ∧ row !! 5%nat = Some (CStr "")).
Proof.
  intros Hroute Hg.
  destruct (vehicle_group_is_rows _ _ _ _ _ _ _ _ _ _ _ _ Hroute Hg) as (id & Hid & Hrows).
  destruct (rows_of_route_spec _ _ _ _ _ _ _ _ _ _ _ Hrows)
    as (name & st & dname & rows & Hn & Hst & Hdn & Hlen & -> & Hmid).
  split; [|split].
  - eexists _, st. done.
  - intros j index Hj. destruct (Hmid j index Hj) as (sn & service & _ & Hs & Hrow).
    eexists _, service.
    split; [simpl; rewrite lookup_app_l by (apply lookup_lt_Some in Hj; lia); exact Hrow|].
    done.
  - eexists.
    split; [simpl; rewrite lookup_app_r by lia; by rewrite Hlen, Nat.sub_diag|].
    done.
Qed.

Lemma group_time_columns_witness :
  ∃ g, vehicle_group Demo.data (manager_of Demo.data) Demo.sol_one Demo.store_names
         Demo.vehicle_ids Demo.start_loading_times 3 0 = Ok g
    ∧ ∃ row, g !! 2%nat = Some row
        ∧ row !! 4%nat = Some (CStr "09:00") ∧ row !! 5%nat = Some (CStr "09:15").
Proof.
  eexists. split; [reflexivity|].
  destruct (group_time_columns Demo.data (manager_of Demo.data) Demo.sol_one
              Demo.store_names Demo.vehicle_ids Demo.start_loading_times 3 0 _
              0 [1; 2]%nat 4 eq_refl eq_refl) as (_ & Hstops & _).
  destruct (Hstops 1%nat 2%nat eq_refl) as (row & service & Hrow & Hs & _ & Ha & Hd).
  exists row. split; [exact Hrow|]. split; [exact Ha|].
  injection Hs as <-. exact Hd.
Defined.

(** The load shown in each row of a group. *)
Lemma group_load_column_rows
    (data : data_model) (m : RoutingIndexManager) (solution : Assignment)
    (store_names vehicle_ids : list cell) (start_loading_times : list Z)
    (fuel v : nat) (g : list (list cell)) (start : nat) (mids : list nat)
    (end_ : nat) :
  route m solution v = Some (start :: mids ++ [end_]) →
  vehicle_group data m solution store_names vehicle_ids start_loading_times fuel v
  = Ok g →
  ∀ k row, g !! k = Some row →
    row !! 6%nat = Some (CInt (sum_list_Z (demand_at data m <$> take k mids))).
Proof.
  intros Hroute Hg.
  destruct (vehicle_group_is_rows _ _ _ _ _ _ _ _ _ _ _ _ Hroute Hg) as (id & Hid & Hrows).
  destruct (rows_of_route_spec _ _ _ _ _ _ _ _ _ _ _ Hrows)
    as (name & st & dname & rows & Hn & Hst & Hdn & Hlen & -> & Hmid).
  intros k row Hk. destruct k as [|k]; [by injection Hk as <-|].
  simpl in Hk. destruct (decide (k < length mids)%nat) as [Hlt|Hge].
  - rewrite lookup_app_l in Hk by lia.
    destruct (lookup_lt_is_Some_2 mids k Hlt) as [index Hindex].
    destruct (Hmid k index Hindex) as (sn & service & _ & _ & Hrow).
    rewrite Hrow in Hk. by injection Hk as <-.
  - rewrite lookup_app_r in Hk by lia.
    destruct (k - length rows)%nat as [|?] eqn:Ek; [|done].
    injection Hk as <-. by rewrite take_ge by lia.
Qed.

(** X13. The load column of a group is a running sum: row [k] shows the
    total demand of the first [k] stops of the route, so the first row
    shows 0 and the last row repeats the total of the route. *)
Theorem group_load_column
    (data : data_model) (m : RoutingIndexManager) (solution : Assignment)
    (store_names vehicle_ids : list cell) (start_loading_times : list Z)
    (fuel v : nat) (g : list (list cell)) (start : nat) (mids : list nat)
    (end_ : nat) :
  route m solution v = Some (start :: mids ++ [end_]) →
  vehicle_group data m solution store_names vehicle_ids start_loading_times fuel v
  = Ok g →
  ∀ k row, g !! k = Some row →
    row !! 6%nat = Some (CInt (sum_list_Z (demand_at data m <$> take k mids))).
Proof. apply group_load_column_rows. Qed.

Lemma group_load_column_witness :
  ∃ g, vehicle_group Demo.data (manager_of Demo.data) Demo.sol_one Demo.store_names
         Demo.vehicle_ids Demo.start_loading_times 3 0 = Ok g
    ∧ ∃ row, g !! 3%nat = Some row ∧ row !! 6%nat = Some (CInt 8).
Proof.
  eexists. split; [reflexivity|].
  eexists. split; [reflexivity|].
  apply (group_load_column Demo.data (manager_of Demo.data) Demo.sol_one
           Demo.store_names Demo.vehicle_ids Demo.start_loading_times 3 0 _
           0 [1; 2]%nat 4 eq_refl eq_refl 3%nat _ eq_refl).
Defined.

(** ** The load column and the capacities *)

Section LoadFacts.

Lemma route_shape m sol v stops :
  route m sol v = Some stops → IsEnd m (Start m v) = false →
  ∃ mids end_, stops = Start m v :: mids ++ [end_] ∧ IsEnd m end_ = true.
Proof.
  intros Hroute Hstart.
  destruct (walk_shape m sol _ _ _ Hroute) as (ms & end_ & -> & Hend & _).
  pose proof (route_head _ _ _ _ Hroute) as Hhead.
  destruct ms as [|s ms]; simpl in Hhead; injection Hhead as ->.
  - congruence.
  - by exists ms, end_.
Qed.

Lemma start_not_end m v : (v < mgr_vehicles m)%nat → (mgr_depot m < mgr_nodes m)%nat →
  IsEnd m (Start m v) = false.
Proof.
  intros Hv Hd. unfold IsEnd, Size, Start. apply bool_decide_eq_false.
  destruct v as [|v']; lia.
Qed.

Lemma start_is_depot m v : mgr_depot m = 0%nat → IndexToNode m (Start m v) = 0%nat.
Proof.
  intros Hd. unfold IndexToNode, Start. destruct v as [|v'].
  - rewrite Hd. by destruct (decide _).
  - destruct (decide _); [lia|done].
Qed.

(** The cumulative load of the capacity dimension along a route. *)
Lemma load_cumul_prefix hora locs vehs matrix data routing starts sol v row stops :
  configure hora locs vehs matrix = Ok (data, routing, starts) →
  feasible routing sol = true → vehs !! v = Some row →
  route (manager routing) sol v = Some stops →
  ∀ k i, stops !! k = Some i →
    cumul_var sol "Capacity" i
    = sum_list_Z (demand_at data (manager routing) <$> take k stops)
    ∧ cumul_var sol "Capacity" i ≤ capacidad_cajas row.
Proof.
  intros Hcfg Hfeas Hrow Hroute.
  destruct (configure_ok _ _ _ _ _ _ _ Hcfg) as (_ & _ & _ & Hm & _ & Hdims & _).
  destruct (configure_data _ _ _ _ _ _ _ Hcfg) as (_ & _ & _ & Hnv & Hcaps & _).
  pose proof (lookup_lt_Some _ _ _ Hrow) as Hv.
  destruct (feasible_route routing sol v Hfeas) as (stops' & Hroute' & _ & Hd).
  { by rewrite Hm; simpl; rewrite Hnv. }
  rewrite Hroute in Hroute'. injection Hroute' as <-.
  assert (Hok : dimension_ok routing sol (capacity_dimension data) v stops = true).
  { apply Hd. rewrite Hdims. apply list_elem_of_here. }
  unfold dimension_ok in Hok. simpl in Hok.
  rewrite Hcaps, list_lookup_fmap, Hrow in Hok. simpl in Hok.
  apply andb_true_iff in Hok as [[Hc%cumuls_ok_Forall Ha]%andb_true_iff Hz%bool_decide_eq_true].
  intros k i Hi. split.
  - revert i Hi. induction k as [|k IH]; intros i Hi.
    + rewrite (route_head _ _ _ _ Hroute) in Hi. injection Hi as <-. done.
    + destruct (lookup_lt_is_Some_2 stops k) as [p Hp];
        [apply lookup_lt_Some in Hi; lia|].
      destruct (arcs_ok_lookup _ _ _ _ _ _ _ Ha Hp Hi) as (t & Ht & Hle).
      simpl in Hle. rewrite (IH p Hp) in Hle.
      rewrite (take_S_r _ _ _ Hp), fmap_app, sum_list_Z_app. simpl.
      rewrite (capacity_transit _ _ _ _ _ _ _ p i Hcfg) in Ht.
      assert (Hdp : demand_at data (manager routing) p = t).
      { unfold demand_callback, getitem in Ht. unfold demand_at.
        destruct (demands data !! IndexToNode (manager routing) p) as [t'|]; [|done].
        by injection Ht as ->. }
      rewrite Hdp. simpl. lia.
  - rewrite Forall_forall in Hc.
    assert (Hin : i ∈ stops) by (apply list_elem_of_lookup; eauto).
    specialize (Hc i Hin). simpl in Hc. lia.
Qed.

End LoadFacts.

(** X14. For a solution that satisfies the model [main] builds, and a
    depot whose demand is not negative, no row of a vehicle's group shows
    a load above that vehicle's capacity. *)
Theorem reported_load_within_capacity
    (hora : string) (locs : list location_row) (vehs : list vehicle_row)
    (matrix : list (list Z)) (data : data_model) (routing : RoutingModel)
    (starts : list Z) (sol : Assignment) (store_names vehicle_ids : list cell)
    (fuel v : nat) (vehicle : vehicle_row) (depot_row : location_row)
    (g : list (list cell)) :
  configure hora locs vehs matrix = Ok (data, routing, starts) →
  feasible routing sol = true →
  vehs !! v = Some vehicle →
  locs !! 0%nat = Some depot_row → 0 ≤ demanda depot_row →
  (0 < length matrix)%nat →
  vehicle_group data (manager routing) sol store_names vehicle_ids starts fuel v = Ok g →
  ∀ row, row ∈ g →
    ∃ load, row !! 6%nat = Some (CInt load) ∧ load ≤ capacidad_cajas vehicle.
Proof.
  intros Hcfg Hfeas Hveh Hdepot Hdem Hn Hg row Hrow.
  destruct (configure_ok _ _ _ _ _ _ _ Hcfg) as (_ & _ & _ & Hm & _).
  destruct (configure_data _ _ _ _ _ _ _ Hcfg) as (HT & Hdems & _ & Hnv & _ & Hdep & _).
  pose proof (lookup_lt_Some _ _ _ Hveh) as Hv.
  destruct (feasible_route routing sol v Hfeas) as (stops & Hroute & _).
  { by rewrite Hm; simpl; rewrite Hnv. }
  destruct (route_shape _ _ _ _ Hroute) as (mids & end_ & -> & _).
  { apply start_not_end; rewrite Hm; simpl; [by rewrite Hnv|rewrite Hdep, HT; lia]. }
  apply list_elem_of_lookup in Hrow as [k Hk].
  pose proof (group_load_column_rows data (manager routing) sol store_names vehicle_ids
                starts fuel v g _ mids end_ Hroute Hg k row Hk) as Hload.
  eexists. split; [exact Hload|].
  set (k' := (k `min` length mids)%nat).
  assert (Htake : take k mids = take k' mids).
  { unfold k'. destruct (Nat.min_spec k (length mids)) as [[_ ->]|[Hge ->]]; [done|].
    by rewrite !take_ge by lia. }
  destruct (lookup_lt_is_Some_2 (Start (manager routing) v :: mids ++ [end_]) (S k'))
    as [i Hi].
  { simpl. rewrite length_app. simpl. unfold k'. lia. }
  destruct (load_cumul_prefix _ _ _ _ _ _ _ _ _ _ _ Hcfg Hfeas Hveh Hroute (S k') i Hi)
    as [Hsum Hcap].
  rewrite Hsum in Hcap. simpl in Hcap.
  rewrite take_app_le in Hcap by (unfold k'; lia).
  assert (Hd0 : demand_at data (manager routing) (Start (manager routing) v)
                = demanda depot_row).
  { unfold demand_at. rewrite start_is_depot by (rewrite Hm; done).
    by rewrite Hdems, list_lookup_fmap, Hdepot. }
  rewrite Hd0 in Hcap. rewrite Htake.
  change (list_fmap nat Z (demand_at data (manager routing)) (take k' mids))
    with (demand_at data (manager routing) <$> take k' mids) in Hcap.
  lia.
Qed.

Lemma reported_load_within_capacity_witness :
  ∃ data routing starts g,
    configure HORA_INICIO_CARGA Demo.locs Demo.vehs Demo.matrix
    = Ok (data, routing, starts)
    ∧ vehicle_group data (manager routing) Demo.sol_one Demo.store_names
        Demo.vehicle_ids starts 3 0 = Ok g
    ∧ ∀ row, row ∈ g → ∃ load, row !! 6%nat = Some (CInt load) ∧ load ≤ 10.
Proof.
  eexists _, _, _, _. split; [reflexivity|]. split; [reflexivity|].
  apply (reported_load_within_capacity HORA_INICIO_CARGA Demo.locs Demo.vehs
           Demo.matrix _ _ _ Demo.sol_one Demo.store_names Demo.vehicle_ids 3 0
           _ _ _ eq_refl eq_refl eq_refl eq_refl).
  - simpl; lia.
  - simpl; lia.
  - reflexivity.
Defined.

(** ** The plan as a whole *)

Section PlanFacts.

Variable data : data_model.
Variable m : RoutingIndexManager.
Variable solution : Assignment.
Variables store_names vehicle_ids : list cell.
Variable start_loading_times : list Z.

Lemma for_each_invariant {A S} (body : S → A → res S) (Inv : S → Prop) xs : ∀ s s',
  (∀ s x s', Inv s → body s x = Ok s' → Inv s') →
  Inv s → for_each body xs s = Ok s' → Inv s'.
Proof.
  induction xs as [|x xs IH]; intros s s' Hbody Hs; simpl.
  - by intros [= <-].
  - destruct (body s x) as [s1|] eqn:E; [|done]. simpl. eauto.
Qed.

Lemma visit_loop_fields fuel id : ∀ index sequence load rows i s l rs,
  Forall (λ r, length r = length header) rows →
  visit_loop data m solution store_names fuel id index sequence load rows
  = Ok (i, s, l, rs) →
  Forall (λ r, length r = length header) rs.
Proof.
  induction fuel as [|fuel IH]; intros index sequence load rows i s l rs Hrows; [done|].
  simpl. destruct (IsEnd m index); [by intros [= _ _ _ <-]|].
  destruct (IsEnd m (next_var solution index)); [by intros [= _ _ _ <-]|].
  destruct (getitem store_names _); [|done]. simpl.
  destruct (getitem (demands data) _); [|done]. simpl.
  destruct (getitem (service_times data) _); [|done]. simpl.
  apply IH. apply Forall_app. split; [done|]. by apply Forall_singleton.
Qed.

Lemma vehicle_step_fields fuel used rows v used' rows' :
  Forall (λ r, length r = length header) rows →
  vehicle_step data m solution store_names vehicle_ids start_loading_times fuel
    (used, rows) v = Ok (used', rows') →
  Forall (λ r, length r = length header) rows'.
Proof.
  intros Hrows. unfold vehicle_step, emit_route.
  destruct (getitem vehicle_ids v) as [id|]; [|done]. simpl.
  destruct (not_required m solution v); [by intros [= _ <-]|].
  destruct (getitem (vehicle_capacities data) v); [|done]. simpl.
  destruct (getitem store_names _); [|done]. simpl.
  destruct (getitem start_loading_times v); [|done]. simpl.
  destruct (visit_loop _ _ _ _ fuel _ _ _ _ _) as [[[[i s] l] rs]|] eqn:Ev; [|done].
  simpl. destruct (getitem store_names _); [|done]. simpl.
  assert (Hrs : Forall (λ r, length r = length header) rs).
  { eapply visit_loop_fields; [|exact Ev].
    apply Forall_app. split; [done|]. by apply Forall_singleton. }
  destruct (decide _); intros [= _ <-]; repeat (apply Forall_app; split);
    try done; by apply Forall_singleton.
Qed.

Lemma join_groups_nonempty {A} (sep : list A) g gs :
  g ≠ [] → join_groups sep (g :: gs) ≠ [].
Proof. intros Hg. destruct gs; simpl; [done|]. by destruct g. Qed.

End PlanFacts.

(** X15. Every record of a plan has as many fields as the header, the
    header and the blank records included, so the exported table is
    rectangular. *)
Theorem plan_is_rectangular
    (data : data_model) (m : RoutingIndexManager) (solution : Assignment)
    (store_names vehicle_ids : list cell) (start_loading_times : list Z)
    (fuel : nat) (plan : list (list cell)) :
  process_solution data m solution store_names vehicle_ids start_loading_times fuel
  = Ok plan →
  Forall (λ record, length record = length header) plan.
Proof.
  unfold process_solution.
  destruct (for_each _ _ _) as [[used rows]|] eqn:Eloop; [|done]. simpl.
  intros [= <-].
  apply (for_each_invariant _
           (λ st : nat * list (list cell), Forall (λ r, length r = length header) st.2)
           _ _ _) in Eloop; [done| |].
  - intros [u rs] v [u' rs'] Hrs Hstep. simpl in *.
    by eapply vehicle_step_fields.
  - simpl. by apply Forall_singleton.
Qed.

Lemma plan_is_rectangular_witness :
  ∃ plan,
    process_solution Demo.data (manager_of Demo.data) Demo.sol_two Demo.store_names
      Demo.vehicle_ids Demo.start_loading_times 5 = Ok plan
    ∧ Forall (λ record, length record = 7%nat) plan.
Proof.
  eexists. split; [reflexivity|].
  apply (plan_is_rectangular Demo.data (manager_of Demo.data) Demo.sol_two
           Demo.store_names Demo.vehicle_ids Demo.start_loading_times 5).
  reflexivity.
Defined.

(** A plan with a dispatched vehicle has rows under the header. *)
Lemma plan_has_rows data m solution store_names vehicle_ids start_loading_times
    fuel plan :
  (num_vehicles data ≤ length vehicle_ids)%nat →
  process_solution data m solution store_names vehicle_ids start_loading_times fuel
  = Ok plan →
  head plan = Some header
  ∧ (dispatched data m solution = 0%nat → plan = [header])
  ∧ ((0 < dispatched data m solution)%nat → (1 < length plan)%nat).
Proof.
  intros Hids. unfold process_solution.
  rewrite (vehicle_loop data m solution store_names vehicle_ids
             start_loading_times fuel (seq 0 (num_vehicles data)) O [header]);
    [|intros v Hv%elem_of_seq; lia|done].
  destruct (map_res _ _) as [gs|] eqn:Egs; [|done]. simpl. intros [= <-].
  pose proof (map_res_length _ _ _ Egs) as Hlen.
  fold (dispatched data m solution) in Hlen.
  split; [done|]. split.
  - intros Hnone. rewrite Hnone in Hlen. by destruct gs.
  - intros Hsome. destruct gs as [|g gs]; [simpl in Hlen; lia|].
    assert (Hg : g ≠ []).
    { destruct (filter _ _) as [|v vs] eqn:Ef; [done|].
      rewrite map_res_cons in Egs.
      destruct (vehicle_group _ _ _ _ _ _ fuel v) as [g'|] eqn:Eg; [|done].
      simpl in Egs. destruct (map_res _ vs); [|done]. injection Egs as <- _.
      by apply vehicle_group_events in Eg as [? _]. }
    pose proof (join_groups_nonempty [blank_record] g gs Hg) as Hne.
    destruct (join_groups [blank_record] (g :: gs)) as [|r rs]; [done|].
    simpl. lia.
Qed.

Lemma export_nothing sheet data :
  (length data ≤ 1)%nat → export_solution_to_sheet sheet data = ([], None).
Proof.
  intros Hle. unfold export_solution_to_sheet. destruct (decide _); [lia|done].
Qed.

Lemma export_all_done sheet data :
  (1 < length data)%nat → (∀ call, sheet call = Ok ()) →
  export_solution_to_sheet sheet data
  = ([OpenRutas; ClearRutas; UpdateA1 data; FormatHeader], None).
Proof.
  intros Hlt Hok. unfold export_solution_to_sheet, open_or_add.
  destruct (decide _); [|lia]. by rewrite !Hok.
Qed.

(** Whatever the service answers, an update carries the data given to
    the export, and the export of a header alone calls nothing. *)
Lemma export_updates sheet data rows :
  UpdateA1 rows ∈ (export_solution_to_sheet sheet data).1 →
  rows = data ∧ (1 < length data)%nat.
Proof.
  unfold export_solution_to_sheet.
  destruct (decide _) as [Hlt|]; [|by intros ?%elem_of_nil].
  assert (Hopen : UpdateA1 rows ∉ (open_or_add sheet).1).
  { unfold open_or_add. intros Hin.
    destruct (sheet OpenRutas) as [|e1]; [destruct (sheet ClearRutas) as [|e2]|];
      [|destruct e2|destruct e1]; try destruct (sheet AddRutas); simpl in Hin;
      repeat (apply elem_of_cons in Hin as [Hin|Hin]; [discriminate Hin|]);
      by apply elem_of_nil in Hin. }
  destruct (open_or_add sheet) as [calls [[]|e]]; simpl in *; [|done].
  destruct (sheet (UpdateA1 data)) as [|e]; [|done].
  destruct (sheet FormatHeader) as [|e]; simpl;
    rewrite elem_of_app; intros [?|Hin]; try done.
  - apply elem_of_cons in Hin as [[= ->]|Hin]; [done|].
    by apply list_elem_of_singleton in Hin.
  - by apply list_elem_of_singleton in Hin as [= ->].
Qed.

(** X16. A plan starts with the header.  When no vehicle is dispatched
    the plan is the header alone and [export_solution_to_sheet] calls
    nothing on the spreadsheet.  When a vehicle is dispatched the plan
    has rows under the header; if the service does every call, the sheet
    "Rutas" is opened, cleared, updated with the whole plan and its
    header formatted.  Whatever the service answers, an update that is
    done carries the whole plan, and an exception of the service is
    caught: the export raises nothing. *)
Theorem plan_exported_iff_dispatched
    (sheet : sheet_call → res unit)
    (data : data_model) (m : RoutingIndexManager) (solution : Assignment)
    (store_names vehicle_ids : list cell) (start_loading_times : list Z)
    (fuel : nat) (plan : list (list cell)) :
  (num_vehicles data ≤ length vehicle_ids)%nat →
  process_solution data m solution store_names vehicle_ids start_loading_times fuel
  = Ok plan →
  head plan = Some header
  ∧ (dispatched data m solution = 0%nat →
       plan = [header] ∧ export_solution_to_sheet sheet plan = ([], None))
  ∧ ((0 < dispatched data m solution)%nat →
       (1 < length plan)%nat
       ∧ ((∀ call, sheet call = Ok ()) →
            export_solution_to_sheet sheet plan
            = ([OpenRutas; ClearRutas; UpdateA1 plan; FormatHeader], None)))
  ∧ (∀ rows, UpdateA1 rows ∈ (export_solution_to_sheet sheet plan).1 →
       rows = plan ∧ (0 < dispatched data m solution)%nat).
Proof.
  intros Hids Hplan.
  destruct (plan_has_rows _ _ _ _ _ _ _ _ Hids Hplan) as (Hhead & Hnone & Hsome).
  split; [done|]. split; [|split].
  - intros Hzero. rewrite (Hnone Hzero). split; [done|]. by apply export_nothing.
  - intros Hpos. split; [by apply Hsome|].
    intros Hok. apply export_all_done; [by apply Hsome|done].
  - intros rows [-> Hlt]%export_updates. split; [done|].
    destruct (dispatched data m solution) as [|n] eqn:Ed; [|lia].
    rewrite (Hnone eq_refl) in Hlt. simpl in Hlt. lia.
Qed.

Lemma plan_exported_iff_dispatched_witness :
  ∃ plan,
    process_solution Demo.data (manager_of Demo.data) Demo.sol_one Demo.store_names
      Demo.vehicle_ids Demo.start_loading_times 5 = Ok plan
    ∧ dispatched Demo.data (manager_of Demo.data) Demo.sol_one = 1%nat
    ∧ export_solution_to_sheet Demo.sheet_ok plan
      = ([OpenRutas; ClearRutas; UpdateA1 plan; FormatHeader], None).
Proof.
  eexists. split; [reflexivity|]. split; [reflexivity|].
  destruct (plan_exported_iff_dispatched Demo.sheet_ok Demo.data (manager_of Demo.data)
              Demo.sol_one Demo.store_names Demo.vehicle_ids Demo.start_loading_times
              5 _ ltac:(simpl; lia) eq_refl) as (_ & _ & Hsome & _).
  apply Hsome; [vm_compute; lia|done].
Defined.

(** ** Runs of [main] *)

Section MainFacts.

Lemma get_time_matrix_length dm slowdown locations matrix :
  get_time_matrix dm slowdown locations = Some matrix →
  length matrix = length locations.
Proof.
  unfold get_time_matrix.
  destruct (origin_loop dm slowdown 0 locations []) as [[m0|]|] eqn:Eloop; try done.
  simpl. destruct (zero_diagonal m0) as [m1|] eqn:Ez; [|done]. simpl.
  intros [= <-].
  destruct (origin_loop_ok _ _ _ _ _ _ Eloop) as (rows & -> & Hlen & _).
  destruct (zero_diagonal_ok _ _ Ez) as [-> _].
  by rewrite zeroed_upto_length.
Qed.

(** With a shop to serve, a feasible solution sends a vehicle out. *)
Lemma feasible_dispatches data routing sol :
  feasible routing sol = true →
  manager routing = manager_of data → depot data = 0%nat →
  (2 ≤ length (time_matrix data))%nat →
  (0 < dispatched data (manager routing) sol)%nat.
Proof.
  intros Hfeas Hm Hdep Hn. unfold feasible in Hfeas.
  apply andb_true_iff in Hfeas as [[_ Hperm%bool_decide_eq_true]%andb_true_iff _].
  rewrite Hm in *. set (m := manager_of data) in *.
  assert (Hsize : (2 ≤ Size m)%nat) by (unfold Size, m; simpl; lia).
  assert (Hin : 1%nat ∈ visited m sol).
  { rewrite Hperm. apply elem_of_seq. lia. }
  unfold visited in Hin.
  apply list_elem_of_join in Hin as (l & Hl & Hfm).
  apply list_elem_of_fmap in Hfm as (v & -> & Hv%elem_of_seq).
  apply list_elem_of_filter in Hl as [_ Hl].
  destruct (route m sol v) as [stops|] eqn:Eroute; [|by apply elem_of_nil in Hl].
  simpl in Hl.
  assert (Hv' : (v < num_vehicles data)%nat) by (unfold m in Hv; simpl in Hv; lia).
  assert (Hstart : IsEnd m (Start m v) = false).
  { apply start_not_end; unfold m; simpl; [done|rewrite Hdep; lia]. }
  assert (Hused : not_required m sol v = false).
  { unfold not_required. unfold route in Eroute. simpl in Eroute.
    rewrite Hstart in Eroute.
    destruct (IsEnd m (next_var sol (Start m v))) eqn:Enext; [|done].
    exfalso. destruct (Size m) as [|fuel] eqn:Es; [lia|]. simpl in Eroute.
    rewrite Enext in Eroute. simpl in Eroute. injection Eroute as <-.
    apply elem_of_cons in Hl as [Hl|Hl].
    - unfold Start, m in Hl. simpl in Hl. rewrite Hdep in Hl. destruct v; lia.
    - apply list_elem_of_singleton in Hl. rewrite <- Hl in Enext.
      unfold IsEnd in Enext. apply bool_decide_eq_true in Enext. lia. }
  unfold dispatched.
  assert (Hin : v ∈ filter (λ v, ¬ not_required m sol v) (seq 0 (num_vehicles data))).
  { apply list_elem_of_filter. split; [by rewrite Hused; intros ?|].
    apply elem_of_seq. lia. }
  destruct (filter _ _); [by apply elem_of_nil in Hin|]. simpl. lia.
Qed.

End MainFacts.

(** X17. When the matrix is obtained but the configured start of loading,
    or a clock text of some location row, is not readable, [main] ends
    with an uncaught [ValueError] and hands nothing to the solver. *)
Theorem main_stops_on_unreadable_clock
    (distance_matrix : nat → res (list element)) (slowdown : Z → Z)
    (solve : RoutingModel → search_parameters → option Assignment)
    (sheet : sheet_call → res unit)
    (hora : string) (fuel : nat)
    (locs : list location_row) (vehs : list vehicle_row) (matrix : list (list Z)) :
  get_time_matrix distance_matrix slowdown (ubicacion <$> locs) = Some matrix →
  ¬ ((∃ inicio, time_to_minutes (CStr hora) = Ok inicio)
     ∧ Forall window_readable locs) →
  main distance_matrix slowdown solve sheet hora fuel (Some (locs, vehs))
  = ([], Raise ValueError).
Proof.
  intros Hmatrix Hbad. unfold main. rewrite Hmatrix.
  rewrite configure_unreadable; [done|].
  intros data Hd.
  destruct (time_to_minutes (CStr hora)) as [inicio|e] eqn:Eh; [|eauto].
  exfalso. apply Hbad. split; [eauto|]. by eapply create_data_model_readable.
Qed.

Lemma main_stops_on_unreadable_clock_witness :
  main Demo.service Demo.slowdown (λ _ _, Some Demo.sol_one) Demo.sheet_ok "7h30" 5
    (Some (Demo.locs, Demo.vehs))
  = ([], Raise ValueError).
Proof.
  apply (main_stops_on_unreadable_clock Demo.service Demo.slowdown
           (λ _ _, Some Demo.sol_one) Demo.sheet_ok "7h30" 5
           Demo.locs Demo.vehs Demo.matrix).
  - reflexivity.
  - intros [[inicio Hini] _]. discriminate Hini.
Defined.

(** X18. A complete run.  When the matrix is obtained, the model is built,
    and the solver answers a solution that satisfies it, [main] hands
    that one model to the solver and ends with what the export of the
    extractor's plan does, provided the route walks are granted as many
    turns as the model has route indices.  With at least one shop the
    plan has rows under the header, and a spreadsheet service that does
    every call ends with the sheet "Rutas" cleared and updated with the
    plan; an exception of the service does not stop [main]. *)
Theorem main_exports_the_plan
    (distance_matrix : nat → res (list element)) (slowdown : Z → Z)
    (solve : RoutingModel → search_parameters → option Assignment)
    (sheet : sheet_call → res unit)
    (hora : string) (fuel : nat)
    (locs : list location_row) (vehs : list vehicle_row) (matrix : list (list Z))
    (data : data_model) (routing : RoutingModel) (starts : list Z)
    (sol : Assignment) :
  get_time_matrix distance_matrix slowdown (ubicacion <$> locs) = Some matrix →
  configure hora locs vehs matrix = Ok (data, routing, starts) →
  solve routing search = Some sol →
  feasible routing sol = true →
  locs ≠ [] →
  (Size (manager routing) ≤ fuel)%nat →
  ∃ plan,
    process_solution data (manager routing) sol (tienda <$> locs)
      (id_camion <$> vehs) starts fuel = Ok plan
    ∧ main distance_matrix slowdown solve sheet hora fuel (Some (locs, vehs))
      = ([routing], Ok (Finished (export_solution_to_sheet sheet plan)))
    ∧ ((2 ≤ length locs)%nat →
         (1 < length plan)%nat
         ∧ ((∀ call, sheet call = Ok ()) →
              export_solution_to_sheet sheet plan
              = ([OpenRutas; ClearRutas; UpdateA1 plan; FormatHeader], None))).
Proof.
  intros Hmatrix Hcfg Hsolve Hfeas Hlocs Hfuel.
  pose proof (get_time_matrix_length _ _ _ _ Hmatrix) as Hlen.
  rewrite length_fmap in Hlen.
  destruct (process_solution_total _ _ _ _ _ _ _ _ fuel Hcfg Hfeas Hlen Hlocs Hfuel)
    as [plan Hplan].
  exists plan. split; [done|]. split.
  - unfold main. rewrite Hmatrix, Hcfg, Hsolve, Hplan. done.
  - intros Htwo.
    destruct (configure_ok _ _ _ _ _ _ _ Hcfg) as (_ & _ & _ & Hm & _).
    destruct (configure_data _ _ _ _ _ _ _ Hcfg) as (HT & _ & _ & Hnv & _ & Hdep & _).
    assert (Hdisp : (0 < dispatched data (manager routing) sol)%nat).
    { apply feasible_dispatches; try done. rewrite HT. lia. }
    assert (Hids : (num_vehicles data ≤ length (id_camion <$> vehs))%nat)
      by (rewrite length_fmap; lia).
    destruct (plan_has_rows _ _ _ _ _ _ _ _ Hids Hplan) as (_ & _ & Hrows).
    split; [by apply Hrows|].
    intros Hok. apply export_all_done; [by apply Hrows|done].
Qed.

Lemma main_exports_the_plan_witness :
  ∃ routing plan,
    main Demo.service Demo.slowdown (λ _ _, Some Demo.sol_two) Demo.sheet_ok
      HORA_INICIO_CARGA 5 (Some (Demo.locs, Demo.vehs))
    = ([routing],
       Ok (Finished ([OpenRutas; ClearRutas; UpdateA1 plan; FormatHeader], None)))
    ∧ length plan = 8%nat.
Proof.
  edestruct (main_exports_the_plan Demo.service Demo.slowdown (λ _ _, Some Demo.sol_two)
               Demo.sheet_ok HORA_INICIO_CARGA 5 Demo.locs Demo.vehs Demo.matrix)
    as (plan & Hplan & Hmain & Hexp);
    [reflexivity|reflexivity|reflexivity|reflexivity|discriminate|vm_compute; lia|].
  destruct (Hexp ltac:(simpl; lia)) as [_ Hall].
  rewrite (Hall ltac:(done)) in Hmain.
  eexists _, plan. split; [exact Hmain|].
  vm_compute in Hplan. injection Hplan as <-. reflexivity.
Defined.

Lemma posted_bounds_are_releases_and_shop_windows_witness :
  ∃ data routing starts,
    configure HORA_INICIO_CARGA Demo.locs Demo.vehs Demo.matrix
    = Ok (data, routing, starts)
    ∧ length (cumul_bounds routing) = 4%nat.
Proof.
  eexists _, _, _. split; [reflexivity|].
  edestruct (posted_bounds_are_releases_and_shop_windows
               HORA_INICIO_CARGA Demo.locs Demo.vehs Demo.matrix) as [Hlen _];
    [reflexivity|exact Hlen].
Defined.

(** X19. Along a route of a solution that satisfies the model, the
    arrival at a stop is at least the arrival at the stop before it, plus
    the service time there, plus the travel time between the two, and at
    most 60 minutes later than that. *)
Theorem arrival_follows_service_and_travel
    (hora : string) (locs : list location_row) (vehs : list vehicle_row)
    (matrix : list (list Z)) (data : data_model) (routing : RoutingModel)
    (starts : list Z) (sol : Assignment) (v : nat) (stops : list nat)
    (k i j : nat) (T_i : list Z) (travel : Z) (row : location_row) :
  configure hora locs vehs matrix = Ok (data, routing, starts) →
  feasible routing sol = true →
  (v < length vehs)%nat →
  route (manager routing) sol v = Some stops →
  stops !! k = Some i → stops !! S k = Some j →
  matrix !! IndexToNode (manager routing) i = Some T_i →
  T_i !! IndexToNode (manager routing) j = Some travel →
  locs !! IndexToNode (manager routing) i = Some row →
  cumul_var sol "time" i + tiempo_servicio row + travel ≤ cumul_var sol "time" j
  ∧ cumul_var sol "time" j ≤ cumul_var sol "time" i + tiempo_servicio row + travel + 60.
Proof.
  intros Hcfg Hfeas Hv Hroute Hi Hj HT Htr Hrow.
  destruct (configure_ok _ _ _ _ _ _ _ Hcfg) as (_ & _ & _ & Hm & _ & Hdims & _).
  destruct (configure_data _ _ _ _ _ _ _ Hcfg) as (HTm & _ & Hs & Hnv & _).
  destruct (feasible_route routing sol v Hfeas) as (stops' & Hroute' & _ & Hd).
  { by rewrite Hm; simpl; rewrite Hnv. }
  rewrite Hroute in Hroute'. injection Hroute' as <-.
  assert (Hok : dimension_ok routing sol (time_dimension data) v stops = true).
  { apply Hd. rewrite Hdims. apply list_elem_of_further, list_elem_of_here. }
  unfold dimension_ok in Hok. simpl in Hok.
  rewrite lookup_replicate_2 in Hok by lia.
  apply andb_true_iff in Hok as [[_ Ha]%andb_true_iff _].
  destruct (arcs_ok_lookup _ _ _ _ _ _ _ Ha Hi Hj) as (t & Ht & Hle).
  rewrite (time_transit _ _ _ _ _ _ _ i j Hcfg) in Ht. unfold time_callback in Ht.
  rewrite HTm, Hs in Ht.
  rewrite (getitem_ok _ _ _ HT), res_bind_ok in Ht.
  rewrite (getitem_ok _ _ _ Htr), res_bind_ok in Ht.
  rewrite (getitem_ok (tiempo_servicio <$> locs) _ (tiempo_servicio row)) in Ht
    by (by rewrite list_lookup_fmap, Hrow).
  simpl in Ht, Hle. injection Ht as <-. lia.
Qed.

Lemma arrival_follows_service_and_travel_witness :
  cumul_var Demo.sol_one "time" 1 + 10 + 20 ≤ cumul_var Demo.sol_one "time" 2
  ∧ cumul_var Demo.sol_one "time" 2 ≤ cumul_var Demo.sol_one "time" 1 + 10 + 20 + 60.
Proof.
  eapply (arrival_follows_service_and_travel HORA_INICIO_CARGA Demo.locs Demo.vehs
            Demo.matrix _ _ _ Demo.sol_one 0 [0; 1; 2; 4]%nat 1 1 2 [30; 0; 20] 20
            {| tienda := CStr "Tienda A"; ubicacion := CStr "Calle 1"; demanda := 3;
               hora_apertura := CStr "08:00"; hora_cierre := CStr "12:00";
               tiempo_servicio := 10 |});
    try reflexivity.
  simpl; lia.
Defined.

(** X20. [time_to_minutes] does not ask for two digits: leading zeros,
    or none, before the hour and before the minute give the same value,
    whatever the hour and the minute, as long as each field has at most
    4300 digits with its zeros, the most that the interpreter reads. *)
Theorem time_to_minutes_ignores_padding (k1 k2 : nat) (h m : N) :
  (k1 + String.length (PyStr.digits h) ≤ 4300)%nat →
  (k2 + String.length (PyStr.digits m) ≤ 4300)%nat →
  time_to_minutes
    (CStr ((PyStr.zeros k1 +:+ PyStr.digits h)
             +:+ ":" +:+ (PyStr.zeros k2 +:+ PyStr.digits m)))
  = Ok (Z.of_N h * 60 + Z.of_N m).
Proof.
  intros _ _.
  unfold time_to_minutes. simpl PyStr.str.
  change (":" +:+ (PyStr.zeros k2 +:+ PyStr.digits m))
    with (String ":" (PyStr.zeros k2 +:+ PyStr.digits m)).
  rewrite PyStrFacts.split_app
    by apply PyStrFacts.digits_no_colon, PyStrFacts.padded_all_digits.
  rewrite PyStrFacts.split_no_sep
    by apply PyStrFacts.digits_no_colon, PyStrFacts.padded_all_digits.
  by rewrite !PyStrFacts.int_padded.
Qed.

(** 007:05 reads as 07:05 does. *)
Lemma time_to_minutes_ignores_padding_witness :
  (2 + String.length (PyStr.digits 7) ≤ 4300)%nat
  ∧ (1 + String.length (PyStr.digits 5) ≤ 4300)%nat
  ∧ time_to_minutes (CStr "007:05") = Ok 425.
Proof.
  assert (H1 : (2 + String.length (PyStr.digits 7) ≤ 4300)%nat) by (vm_compute; lia).
  assert (H2 : (1 + String.length (PyStr.digits 5) ≤ 4300)%nat) by (vm_compute; lia).
  split; [exact H1|]. split; [exact H2|].
  apply (time_to_minutes_ignores_padding 2 1 7 5 H1 H2).
Defined.

(** ** Cost and finalizers of the model *)

Section CostFacts.

Lemma finalizers_list data r :
  minimized_by_finalizer (finalizers data r)
  = minimized_by_finalizer r
    ++ ((λ v, ("time", End (manager r) v)) <$> seq 0 (num_vehicles data))
  ∧ arc_cost_evaluator (finalizers data r) = arc_cost_evaluator r.
Proof.
  unfold finalizers. generalize (seq 0 (num_vehicles data)). intros l.
  revert r. induction l as [|v l IH]; intros r; simpl.
  - by rewrite app_nil_r.
  - destruct (IH (AddVariableMinimizedByFinalizer "time" (End (manager r) v) r))
      as [-> ->]. simpl. by rewrite <- app_assoc.
Qed.

Lemma configure_routing hora locs vehs matrix data routing starts :
  configure hora locs vehs matrix = Ok (data, routing, starts) →
  ∃ bounds,
    routing = finalizers data (post_all (window_bounds data)
                                 (post_all bounds (build_dimensions data))).
Proof.
  intros Hcfg.
  destruct (configure_inv _ _ _ _ _ _ _ Hcfg) as (inicio & _ & _ & _ & -> & _).
  eauto.
Qed.

End CostFacts.

(** X21. In the model [main] builds, the cost of every arc for the search
    is the transit of the time dimension, travel time plus service time
    at the node left, and the finalizer is asked to minimise the
    cumulative time at the route end of each vehicle, and nothing else. *)
Theorem cost_is_time_and_ends_are_minimised
    (hora : string) (locs : list location_row) (vehs : list vehicle_row)
    (matrix : list (list Z)) (data : data_model) (routing : RoutingModel)
    (starts : list Z) :
  configure hora locs vehs matrix = Ok (data, routing, starts) →
  (∀ i j, arc_cost routing i j = time_callback data (manager routing) i j)
  ∧ minimized_by_finalizer routing
    = (λ v, ("time", End (manager routing) v)) <$> seq 0 (length vehs).
Proof.
  intros Hcfg.
  destruct (configure_ok _ _ _ _ _ _ _ Hcfg) as (_ & _ & _ & Hm & Hcb & _).
  destruct (configure_data _ _ _ _ _ _ _ Hcfg) as (_ & _ & _ & Hnv & _).
  destruct (configure_routing _ _ _ _ _ _ _ Hcfg) as [bounds Hr].
  assert (Hfin := finalizers_list data
            (post_all (window_bounds data) (post_all bounds (build_dimensions data)))).
  rewrite <- Hr in Hfin. destruct Hfin as [Hmin Harc].
  destruct (post_all_frame (window_bounds data) (post_all bounds (build_dimensions data)))
    as (Hm1 & _ & _ & Ha1 & Hf1).
  destruct (post_all_frame bounds (build_dimensions data)) as (Hm2 & _ & _ & Ha2 & Hf2).
  rewrite Ha1, Ha2 in Harc. rewrite Hf1, Hf2, Hm1, Hm2 in Hmin.
  split.
  - intros i j. unfold arc_cost. rewrite Harc. simpl. rewrite Hcb, Hm. done.
  - rewrite Hmin, Hm, Hnv. done.
Qed.

Lemma cost_is_time_and_ends_are_minimised_witness :
  ∃ data routing starts,
    configure HORA_INICIO_CARGA Demo.locs Demo.vehs Demo.matrix
    = Ok (data, routing, starts)
    ∧ arc_cost routing 1 2 = Ok 30
    ∧ minimized_by_finalizer routing = [("time", 4%nat); ("time", 5%nat)].
Proof.
  eexists _, _, _. split; [reflexivity|].
  edestruct (cost_is_time_and_ends_are_minimised
               HORA_INICIO_CARGA Demo.locs Demo.vehs Demo.matrix) as [Hcost Hmin];
    [reflexivity|].
  split; [exact (Hcost 1%nat 2%nat)|exact Hmin].
Defined.

(** ** Reading the sheets *)

Section SheetFacts.

Lemma has_column_nonempty df col : has_column df col = true → df ≠ [].
Proof. by destruct df. Qed.

Lemma has_column_spec df col :
  has_column df col = true ↔ ∃ record, record ∈ df ∧ col ∈ record.*1.
Proof.
  unfold has_column. rewrite existsb_exists. split.
  - intros (r & Hr%list_elem_of_In & Hc). exists r. split; [done|].
    apply existsb_exists in Hc as (c & Hc%list_elem_of_In & ->%String.eqb_eq). done.
  - intros (r & Hr & Hc). exists r. split; [by apply list_elem_of_In|].
    apply existsb_exists. exists col. split; [by apply list_elem_of_In|].
    apply String.eqb_refl.
Qed.

End SheetFacts.

(** X22. [load_all_data_from_sheets] returns frames only when both sheets
    could be read and every required column occurs in some record of its
    sheet.  In particular both frames then have at least one data row: a
    sheet that holds its header row only is rejected like a sheet with a
    missing column.  The frames are returned as read. *)
Theorem loaded_frames_have_rows_and_columns
    (connect : res unit) (get_all_records : string → res frame)
    (df_locations df_vehicles : frame) :
  load_all_data_from_sheets connect get_all_records = Some (df_locations, df_vehicles) →
  get_all_records "Datos" = Ok df_locations
  ∧ get_all_records "Vehiculos" = Ok df_vehicles
  ∧ df_locations ≠ [] ∧ df_vehicles ≠ []
  ∧ (∀ col, col ∈ required_cols_loc →
       ∃ record, record ∈ df_locations ∧ col ∈ record.*1)
  ∧ (∀ col, col ∈ required_cols_veh →
       ∃ record, record ∈ df_vehicles ∧ col ∈ record.*1).
Proof.
  unfold load_all_data_from_sheets, mbind, res_bind.
  destruct connect as [[]|]; [|done].
  destruct (get_all_records "Datos") as [dl|] eqn:Edl; [|done].
  destruct (forallb (has_column dl) required_cols_loc) eqn:Hl; [|done].
  cbn [negb].
  destruct (get_all_records "Vehiculos") as [dv|] eqn:Edv; [|done].
  destruct (forallb (has_column dv) required_cols_veh) eqn:Hv; [|done].
  cbn [negb]. intros [= <- <-].
  rewrite forallb_forall in Hl, Hv.
  split; [done|]. split; [done|].
  split; [apply (has_column_nonempty dl "tienda"), Hl; simpl; tauto|].
  split; [apply (has_column_nonempty dv "id_camion"), Hv; simpl; tauto|].
  split.
  - intros col Hcol. apply has_column_spec, Hl. by apply list_elem_of_In.
  - intros col Hcol. apply has_column_spec, Hv. by apply list_elem_of_In.
Qed.

Lemma loaded_frames_have_rows_and_columns_witness :
  load_all_data_from_sheets (Ok ()) DemoSheets.sheets
  = Some (DemoSheets.datos, DemoSheets.vehiculos)
  ∧ DemoSheets.datos ≠ [] ∧ DemoSheets.vehiculos ≠ [].
Proof.
  split; [reflexivity|].
  destruct (loaded_frames_have_rows_and_columns (Ok ()) DemoSheets.sheets
              DemoSheets.datos DemoSheets.vehiculos eq_refl)
    as (_ & _ & Hl & Hv & _).
  split; [exact Hl|exact Hv].
Defined.

(** A sheet "Vehiculos" with its header row only: nothing is loaded. *)
Example load_without_fleet :
  load_all_data_from_sheets (Ok ()) DemoSheets.sheets_no_fleet = None.
Proof. reflexivity. Qed.

(** Without credentials nothing is loaded. *)
Example load_without_credentials :
  load_all_data_from_sheets (Raise KeyError) DemoSheets.sheets = None.
Proof. reflexivity. Qed.
